(** * The notification streams of libnetconf (src/notifications.c)

    A shallow embedding of the stream files, the event-allow rules, the
    publisher [ncntf_event_new], the replay iterator
    [ncntf_stream_iter_next] and the subscription validator
    [ncntf_subscription_check], followed by the properties proved about them.

    Conventions of the embedding:
    - a byte is an [ascii]; raw memory and file contents are [list ascii];
      a C string is a [string] (its characters, without the final NUL);
    - integers are [Z]; a conversion to a C integer type is written out
      ([to_uint16], [to_int32], [to_time_t], ...); the on-disk integers are
      in native order, taken little-endian here;
    - [time_t] and [off_t] are signed 64-bit, [size_t] is 64-bit;
    - the operating system is an explicit input: the outcome of every call
      that can fail ([open], [lockf], [write], [ftruncate], ...) is read from
      a record of outcomes given to the function that makes the call;
    - mutexes and logging have no counterpart: the model is sequential. *)

From Stdlib Require Import ZArith List String Ascii Bool Arith Lia.
Import ListNotations.

Local Open Scope string_scope.
Local Open Scope list_scope.
Local Open Scope nat_scope.
Local Open Scope Z_scope.

(** ** Bytes and machine integers *)

Definition NUL : ascii := Ascii.zero.

Definition byte_of_Z (z : Z) : ascii := ascii_of_N (Z.to_N (z mod 256)).
Definition Z_of_byte (a : ascii) : Z := Z.of_N (N_of_ascii a).

(** The [w] bytes of the object representation of [z], least significant
    byte first. *)
Fixpoint le_encode (w : nat) (z : Z) : list ascii :=
  match w with
  | O => []
  | S w' => byte_of_Z z :: le_encode w' (z / 256)
  end.

Fixpoint le_decode (bs : list ascii) : Z :=
  match bs with
  | [] => 0
  | b :: rest => Z_of_byte b + 256 * le_decode rest
  end.

Definition to_uint8 (z : Z) : Z := z mod 2 ^ 8.
Definition to_uint16 (z : Z) : Z := z mod 2 ^ 16.
Definition to_uint32 (z : Z) : Z := z mod 2 ^ 32.
Definition to_uint64 (z : Z) : Z := z mod 2 ^ 64.

(** Conversion to a signed type of [2^bits] values (two's complement). *)
Definition to_signed (bits : Z) (z : Z) : Z :=
  let m := z mod 2 ^ bits in
  if m <? 2 ^ (bits - 1) then m else m - 2 ^ bits.

Definition to_int32 (z : Z) : Z := to_signed 32 z.
Definition to_time_t (z : Z) : Z := to_signed 64 z.

Definition EXIT_SUCCESS : Z := 0.
Definition EXIT_FAILURE : Z := 1.

(** ** C strings *)

Definition strlen (s : string) : Z := Z.of_nat (String.length s).

(** The characters of [s] followed by the terminating NUL: what [s] occupies
    in memory. *)
Definition c_bytes (s : string) : list ascii := list_ascii_of_string s ++ [NUL].

(** The C string that starts at the beginning of a buffer: its bytes up to
    the first NUL (the whole buffer when it holds none; what a C reader would
    find past the end of the buffer is outside the model). *)
Fixpoint c_str (buf : list ascii) : list ascii :=
  match buf with
  | [] => []
  | c :: rest => if Ascii.eqb c NUL then [] else c :: c_str rest
  end.

Definition c_string (buf : list ascii) : string := string_of_list_ascii (c_str buf).

Fixpoint list_ascii_eqb (a b : list ascii) : bool :=
  match a, b with
  | [], [] => true
  | x :: a', y :: b' => Ascii.eqb x y && list_ascii_eqb a' b'
  | _, _ => false
  end.

(** [strncmp(a, b, n) == 0] on two buffers read as C strings. *)
Fixpoint strncmp_eq (a b : list ascii) (n : nat) : bool :=
  match n with
  | O => true
  | S n' =>
      match c_str a, c_str b with
      | [], [] => true
      | x :: _, y :: _ => Ascii.eqb x y && strncmp_eq (tl a) (tl b) n'
      | _, _ => false
      end
  end.

(** ** Files

    An open file: its contents and the offset of the descriptor. *)

Record file : Type := mkFile {
  f_data : list ascii;
  f_pos : nat
}.

Definition f_size (f : file) : Z := Z.of_nat (List.length (f_data f)).

(** [read(fd, buf, count)]: the bytes transferred (their number is the
    value returned) and the file with its offset moved. A [count] that is not
    positive transfers nothing. *)
Definition read (f : file) (count : Z) : list ascii * file :=
  let got := firstn (Z.to_nat count) (skipn (f_pos f) (f_data f)) in
  (got, mkFile (f_data f) (f_pos f + List.length got)).

(** The bytes of an object after a [read] that transferred [got] into it:
    the rest keeps what the object held before ([old]). *)
Definition fill (old got : list ascii) : list ascii :=
  got ++ skipn (List.length got) old.

(** The bytes [buf] written at the offset of the descriptor; a hole left by
    an offset past the end reads as NUL bytes. *)
Definition pwrite (f : file) (buf : list ascii) : file :=
  let pos := f_pos f in
  let d := f_data f in
  let before := firstn pos d ++ repeat NUL (pos - List.length d) in
  mkFile (before ++ buf ++ skipn (pos + List.length buf) d)
         (pos + List.length buf).

(** [lseek]: the new offset, which is also the value returned; an offset
    that would be negative is refused (-1) and the descriptor keeps its
    own. *)
Definition lseek_set (f : file) (off : Z) : Z * file :=
  if off <? 0 then (-1, f) else (off, mkFile (f_data f) (Z.to_nat off)).
Definition lseek_cur (f : file) (off : Z) : Z * file :=
  lseek_set f (Z.of_nat (f_pos f) + off).
Definition lseek_end (f : file) (off : Z) : Z * file :=
  lseek_set f (f_size f + off).

(** [ftruncate(fd, length)] when it succeeds: the offset is not moved. *)
Definition truncate (f : file) (len : Z) : file :=
  let n := Z.to_nat len in
  mkFile (firstn n (f_data f) ++ repeat NUL (n - List.length (f_data f))) (f_pos f).

(** What the system answers to the loop
    [while (((r = write(...)) == -1) && (errno == EAGAIN || errno == EINTR));]
    : [wr_interrupted] calls that fail with EAGAIN or EINTR, then a last call
    that fails for another reason, transfers the whole buffer, or transfers
    only its first [n] bytes. *)
Inductive write_end : Type :=
  | WriteError
  | WriteAll
  | WritePart (n : nat).

Record write_io : Type := mkWriteIo {
  wr_interrupted : nat;
  wr_end : write_end
}.

Fixpoint write_retry (interrupted : nat) (last : write_end)
    (f : file) (buf : list ascii) : Z * file :=
  match interrupted with
  | S k => write_retry k last f buf
  | O =>
      match last with
      | WriteError => (-1, f)
      | WriteAll => (Z.of_nat (List.length buf), pwrite f buf)
      | WritePart n =>
          let out := firstn n buf in
          (Z.of_nat (List.length out), pwrite f out)
      end
  end.

Definition write_loop (io : write_io) (f : file) (buf : list ascii) : Z * file :=
  write_retry (wr_interrupted io) (wr_end io) f buf.

(** ** Streams *)

Definition NCNTF_RULES_SIZE : Z := 1024 * 1024.

Definition MAGIC_NAME : string := "NCSTREAM".
Definition MAGIC_VERSION : Z := 0xFF01.

(** [struct stream]. The list link [next] is the list the streams are kept
    in; [events] is the file behind the descriptor [fd_events]; [rules] is the
    memory the pointer of that name maps ([[]] while it is NULL). *)
Record stream : Type := mkStream {
  fd_events : Z;
  fd_rules : Z;
  name : string;
  desc : option string;
  replay : Z;
  created : Z;
  locked : Z;
  rules : list ascii;
  data : Z;
  events : file
}.

Definition set_fd_events (s : stream) (fd : Z) : stream :=
  mkStream fd (fd_rules s) (name s) (desc s) (replay s) (created s)
           (locked s) (rules s) (data s) (events s).
Definition set_fd_rules (s : stream) (fd : Z) : stream :=
  mkStream (fd_events s) fd (name s) (desc s) (replay s) (created s)
           (locked s) (rules s) (data s) (events s).
Definition set_locked (s : stream) (l : Z) : stream :=
  mkStream (fd_events s) (fd_rules s) (name s) (desc s) (replay s) (created s)
           l (rules s) (data s) (events s).
Definition set_rules (s : stream) (r : list ascii) : stream :=
  mkStream (fd_events s) (fd_rules s) (name s) (desc s) (replay s) (created s)
           (locked s) r (data s) (events s).
Definition set_data (s : stream) (d : Z) : stream :=
  mkStream (fd_events s) (fd_rules s) (name s) (desc s) (replay s) (created s)
           (locked s) (rules s) d (events s).
Definition set_events (s : stream) (f : file) : stream :=
  mkStream (fd_events s) (fd_rules s) (name s) (desc s) (replay s) (created s)
           (locked s) (rules s) (data s) f.

(** *** The header of a stream file *)

(** [memcpy(header + offset, src, n); offset += n;] on the pair of the bytes
    prepared so far and [offset]. *)
Definition header_put (h : list ascii * Z) (src : list ascii) (n : Z) : list ascii * Z :=
  (fst h ++ firstn (Z.to_nat n) src, snd h + n).

(** The part of [write_fileheader] that prepares the header: the bytes put in
    the buffer [header] and the final value of [offset]. *)
Definition prepare_header (s : stream) : list ascii * Z :=
  let h := ([], 0) in
  (* magic bytes *)
  let h := header_put h (list_ascii_of_string MAGIC_NAME) (strlen MAGIC_NAME) in
  (* version *)
  let h := header_put h (le_encode 2 MAGIC_VERSION) 2 in
  (* stream name *)
  let len := to_uint16 (to_uint16 (strlen (name s)) + 1) in
  let h := header_put h (le_encode 2 len) 2 in
  let h := header_put h (c_bytes (name s)) len in
  (* stream description *)
  let h :=
    match desc s with
    | Some d =>
        let len := to_uint16 (to_uint16 (strlen d) + 1) in
        let h := header_put h (le_encode 2 len) 2 in
        header_put h (c_bytes d) len
    | None =>
        (* no description *)
        let len := 1 in
        let h := header_put h (le_encode 2 len) 2 in
        header_put h (c_bytes EmptyString) len
    end in
  (* replay flag *)
  let h := header_put h [byte_of_Z (replay s)] 1 in
  (* creation time *)
  let t := to_uint64 (created s) in
  header_put h (le_encode 8 t) 8.

(** The length [hlen] the buffer is allocated with. *)
Definition header_hlen (s : stream) : Z :=
  strlen MAGIC_NAME
  + match desc s with None => 0 | Some d => strlen d end
  + strlen (name s) + 1 + 4 * 2 + 8 + 2.

(** What the system answers during [write_fileheader]. *)
Record header_io : Type := mkHeaderIo {
  hio_open : Z;               (* open(O_RDWR|O_CREAT|O_TRUNC): descriptor or -1 *)
  hio_ftruncate : bool;       (* ftruncate(fd, 0) of an open file succeeds *)
  hio_header : Z;             (* the address malloc(hlen) returned *)
  hio_frame : nat -> ascii;   (* the memory that follows the variable header *)
  hio_write : write_io;       (* the write of the header *)
  hio_revert : bool           (* ftruncate(fd, 0) after a failed write succeeds *)
}.

(** The [n] bytes of memory that start at the address of the local variable
    [header], a pointer: its eight bytes, then whatever follows it. *)
Definition memory_at_header_variable (io : header_io) (n : Z) : list ascii :=
  firstn (Z.to_nat n)
         (le_encode 8 (hio_header io) ++ map (hio_frame io) (seq 0 (Z.to_nat n - 8))).

Definition write_fileheader (streams_path : option string) (io : header_io)
    (s : stream) : Z * stream :=
  match streams_path with
  | None => (EXIT_FAILURE, s)
  | Some _ =>
      (* check if the corresponding file is already opened *)
      let opened :=
        if fd_events s =? -1 then
          (* open and create/truncate the file *)
          let s := set_fd_events s (hio_open io) in
          if fd_events s =? -1 then inl s
          else inr (set_events s (mkFile [] 0))
        else
          (* truncate the file *)
          if hio_ftruncate io then inr (set_events s (mkFile [] 0))
          else inl s in
      match opened with
      | inl s => (EXIT_FAILURE, s)
      | inr s =>
          (* prepare the header *)
          let offset := snd (prepare_header s) in
          (* write the header: write(s->fd_events, &header, offset) *)
          let '(r, f) := write_loop (hio_write io) (events s)
                                    (memory_at_header_variable io offset) in
          if r =? -1 then
            let f := if hio_revert io then truncate f 0 else f in
            (EXIT_FAILURE, set_events s f)
          else
            (* set where the data starts *)
            let s := set_events s f in
            (EXIT_SUCCESS, set_data s (to_uint32 (fst (lseek_cur f 0))))
      end
  end.

(** What the system answers while [map_rules] opens and maps a rules file. *)
Inductive creat_result : Type :=
  | Created (fd : Z)     (* open(O_CREAT|O_RDWR|O_EXCL) gave a descriptor *)
  | CreatExists          (* it failed with EEXIST *)
  | CreatError.          (* it failed for another reason *)

Record rules_io : Type := mkRulesIo {
  rio_access : bool;                 (* access(filepath, F_OK) == 0 *)
  rio_creat : creat_result;
  rio_open : Z;                      (* open(filepath, O_RDWR): descriptor or -1 *)
  rio_mmap : option (list ascii)     (* the bytes mapped, None for MAP_FAILED *)
}.

(** The operating system as the functions that open files see it. *)
Record system : Type := mkSystem {
  (* the contents of an object that was not initialised: name, byte index *)
  sys_stale : string -> nat -> ascii;
  (* open(filepath, O_RDWR): the descriptor and the contents of the file *)
  sys_open : string -> option (Z * list ascii);
  (* the answers to map_rules for the rules file of that path *)
  sys_rules : string -> rules_io
}.

Definition stale_object (sys : system) (nm : string) (size : Z) : list ascii :=
  map (sys_stale sys nm) (seq 0 (Z.to_nat size)).

(** [read(fd, &obj, size)] into an object called [nm] that holds [old]. *)
Definition read_into (f : file) (old : list ascii) (size : Z)
  : Z * list ascii * file :=
  let '(got, f') := read f size in
  (Z.of_nat (List.length got), fill old got, f').

Definition read_fileheader (sys : system) (filepath : string) : option stream :=
  (* open the file *)
  match sys_open sys filepath with
  | None => None
  | Some (fd, bytes) =>
      let f := mkFile bytes 0 in
      (* check magic bytes *)
      let '(r, magic_name, f) :=
        read_into f (stale_object sys "magic_name" 8) (strlen MAGIC_NAME) in
      if r <=? 0 then None else
      if negb (strncmp_eq magic_name (list_ascii_of_string MAGIC_NAME)
                          (String.length MAGIC_NAME))
      then (* file is not of libnetconf's stream file format *) None else
      let '(r, magic_number, f) := read_into f (stale_object sys "magic_number" 2) 2 in
      if r <=? 0 then None else
      (* read the stream name *)
      let '(r, len, f) := read_into f (stale_object sys "len" 2) 2 in
      if r <=? 0 then None else
      let '(r, s_name, f) :=
        read_into f (stale_object sys "name" (le_decode len)) (le_decode len) in
      if r <=? 0 then None else
      (* read the description of the stream *)
      let '(r, len, f) := read_into f len 2 in
      if r <=? 0 then None else
      let '(r, s_desc, f) :=
        read_into f (stale_object sys "desc" (le_decode len)) (le_decode len) in
      if r <=? 0 then None else
      (* read the replay flag *)
      let '(r, s_replay, f) := read_into f (stale_object sys "replay" 1) 1 in
      if r <=? 0 then None else
      (* read creation time *)
      let '(r, t, f) := read_into f (stale_object sys "t" 8) 8 in
      if r <=? 0 then None else
      Some (mkStream fd (-1) (c_string s_name) (Some (c_string s_desc))
                     (le_decode s_replay) (to_time_t (le_decode t)) 0 []
                     (to_uint32 (fst (lseek_cur f 0))) f)
  end.

(** *** The rules of a stream *)

Definition map_rules (streams_path : option string) (sys : system) (s : stream)
  : Z * stream :=
  match streams_path with
  | None => (EXIT_FAILURE, s)
  | Some path =>
      let filepath := (path ++ "/" ++ name s ++ ".rules")%string in
      let io := sys_rules sys filepath in
      let opened :=
        if fd_rules s =? -1 then
          (* check if file with the rules exists *)
          let created :=
            if negb (rio_access io) then
              (* file does not exist, create it *)
              match rio_creat io with
              | Created fd => inr (set_fd_rules s fd)   (* create sparse file *)
              | CreatExists => inr s   (* someone already created it, just open it *)
              | CreatError => inl s
              end
            else inr s in
          match created with
          | inl s => inl s
          | inr s =>
              let s := if fd_rules s =? -1 then set_fd_rules s (rio_open io) else s in
              if fd_rules s =? -1 then inl s else inr s
          end
        else inr s in
      match opened with
      | inl s => (EXIT_FAILURE, s)
      | inr s =>
          match rio_mmap io with
          | None => (EXIT_FAILURE, s)
          | Some region => (EXIT_SUCCESS, set_rules s region)
          end
      end
  end.

(** ** The state of the library

    The global variables: [streams_path], [ncntf_config] (here whether it is
    not NULL), the list [streams], the D-Bus connection [dbus] (None for
    NULL). *)

(** A D-Bus message as the code inspects it. *)
Inductive dbus_arg : Type :=
  | DBUS_UINT64 (v : Z)
  | DBUS_STRING (v : string)
  | DBUS_OTHER.

Record dbus_message : Type := mkMessage {
  msg_path : string;
  msg_interface : string;
  msg_member : string;
  msg_is_signal : bool;
  msg_args : list dbus_arg
}.

(** A connection: whether it is still open, the messages received and not
    yet popped, the messages sent. *)
Record dbus_connection : Type := mkConnection {
  dbus_is_open : bool;
  dbus_incoming : list dbus_message;
  dbus_sent : list dbus_message
}.

Record globals : Type := mkGlobals {
  streams_path : option string;
  ncntf_config : bool;
  streams : list stream;
  dbus : option dbus_connection
}.

Definition set_streams (g : globals) (ss : list stream) : globals :=
  mkGlobals (streams_path g) (ncntf_config g) ss (dbus g).
Definition set_dbus (g : globals) (d : option dbus_connection) : globals :=
  mkGlobals (streams_path g) (ncntf_config g) (streams g) d.

(** A pointer into the list [streams] is the position of the stream in it. *)
Fixpoint find_stream (ss : list stream) (nm : string) : option nat :=
  match ss with
  | [] => None
  | s :: rest =>
      if String.eqb (name s) nm then Some O
      else option_map S (find_stream rest nm)
  end.

Fixpoint update_nth {A : Type} (i : nat) (x : A) (l : list A) : list A :=
  match l, i with
  | [], _ => []
  | _ :: rest, O => x :: rest
  | y :: rest, S i' => y :: update_nth i' x rest
  end.

Definition put_stream (g : globals) (i : nat) (s : stream) : globals :=
  set_streams g (update_nth i s (streams g)).

(** What [printf] prints for a [%s] argument that may be NULL. *)
Definition printf_s (s : option string) : string :=
  match s with Some v => v | None => "(null)" end.

(** [ncntf_stream_get]: the stream of that name, looked up in the list and,
    when it is not there, loaded from the streams directory and put at the
    head of the list. *)
Definition ncntf_stream_get (sys : system) (g : globals) (stream : option string)
  : option nat * globals :=
  match stream with
  | None => (None, g)
  | Some nm =>
      (* search for the specified stream in the list according to the name *)
      match find_stream (streams g) nm with
      | Some i => (Some i, g)
      | None =>
          (* try to localize so far unrecognized stream file *)
          let filepath := (printf_s (streams_path g) ++ "/" ++ nm ++ ".events")%string in
          match read_fileheader sys filepath with
          | None => (None, g)
          | Some s =>
              let '(r, s) := map_rules (streams_path g) sys s in
              if r =? 0 then
                (* add the stream file into the stream list *)
                (Some O, set_streams g (s :: streams g))
              else (None, g)
          end
      end
  end.

(** [ncntf_stream_lock] and [ncntf_stream_unlock]; [lockf] says whether the
    call of that name succeeds. *)
Definition ncntf_stream_lock (lockf : bool) (s : stream) : Z * stream :=
  let offset := fst (lseek_cur (events s) 0) in
  let f := snd (lseek_set (events s) 0) in
  let f := snd (lseek_set f offset) in
  if negb lockf then (EXIT_FAILURE, set_events s f)
  else (EXIT_SUCCESS, set_locked (set_events s f) 1).

Definition ncntf_stream_unlock (lockf : bool) (s : stream) : Z * stream :=
  if locked s =? 0 then (* nothing to do *) (EXIT_SUCCESS, s)
  else
    let offset := fst (lseek_cur (events s) 0) in
    let f := snd (lseek_set (events s) 0) in
    let f := snd (lseek_set f offset) in
    if negb lockf then (EXIT_FAILURE, set_events s f)
    else (EXIT_SUCCESS, set_locked (set_events s f) 0).

(** *** The event-allow rules *)

Definition LF : ascii := "010"%char.

(** The pieces of a text between occurrences of [d], empty ones included. *)
Fixpoint split_on (d : ascii) (s : list ascii) : list (list ascii) :=
  match s with
  | [] => [[]]
  | c :: rest =>
      if Ascii.eqb c d then [] :: split_on d rest
      else
        match split_on d rest with
        | seg :: segs => (c :: seg) :: segs
        | [] => [[c]]
        end
  end.

Definition is_nil {A : Type} (l : list A) : bool :=
  match l with [] => true | _ => false end.

(** The tokens the calls [strtok(s, d)], [strtok(NULL, d)], ... return, for a
    delimiter string of the single character [d]. *)
Definition strtok_tokens (d : ascii) (s : list ascii) : list (list ascii) :=
  filter (fun seg => negb (is_nil seg)) (split_on d s).

(** [strrchr(buf, c)] for a character other than NUL: the offset of its last
    occurrence in the C string. *)
Fixpoint last_index (c : ascii) (l : list ascii) : option nat :=
  match l with
  | [] => None
  | x :: rest =>
      match last_index c rest with
      | Some i => Some (S i)
      | None => if Ascii.eqb x c then Some O else None
      end
  end.

Definition strrchr (buf : list ascii) (c : ascii) : option nat :=
  last_index c (c_str buf).

(** [strcpy(mem + pos, src)]: the characters of [src] and its NUL are stored
    from offset [pos] on, whatever the size of the memory [mem] stands for:
    the result is longer than [mem] when the copy runs past its end. *)
Definition strcpy_at (mem : list ascii) (pos : nat) (src : string) : list ascii :=
  firstn pos mem ++ repeat NUL (pos - List.length mem)
  ++ c_bytes src ++ skipn (pos + List.length (c_bytes src)) mem.

Definition ncntf_event_isallowed (sys : system) (g : globals)
    (stream event : option string) : Z * globals :=
  match stream, event with
  | Some _, Some ev =>
      match ncntf_stream_get sys g stream with
      | (None, g) => (* stream does not exist or some error occurred *) (0, g)
      | (Some i, g) =>
          match nth_error (streams g) i with
          | None => (0, g)
          | Some s =>
              let rules := c_str (rules s) (* strdup(s->rules) *) in
              if existsb (fun token => list_ascii_eqb (list_ascii_of_string ev) token)
                         (strtok_tokens LF rules)
              then (1, g)
              else (* specified event is not allowed in the stream *) (0, g)
          end
      end
  | _, _ => (0, g)
  end.

(** [ncntf_stream_allow_events]. Besides the value returned and the new
    state, the result gives the bytes the call stored past the end of the
    mapped region of the stream ([[]] when it stored none there). *)
Definition ncntf_stream_allow_events (sys : system) (g : globals)
    (stream event : option string) : Z * globals * list ascii :=
  match stream, event with
  | Some _, Some ev =>
      let '(allowed, g) := ncntf_event_isallowed sys g stream event in
      if negb (allowed =? 0) then (EXIT_SUCCESS, g, [])
      else
        match ncntf_stream_get sys g stream with
        | (None, g) => (* stream does not exist or some error occurred *)
            (EXIT_FAILURE, g, [])
        | (Some i, g) =>
            match nth_error (streams g) i with
            | None => (EXIT_FAILURE, g, [])
            | Some s =>
                (* create new rule *)
                let size := List.length (rules s) in
                let end_ :=
                  match strrchr (rules s) LF with
                  | None => (* rules is empty *) O
                  | Some e => S e
                  end in
                let mem := strcpy_at (rules s) end_ ev in
                let mem := strcpy_at mem (end_ + String.length ev) (String LF EmptyString) in
                (EXIT_SUCCESS,
                 put_stream g i (set_rules s (firstn size mem)),
                 skipn size mem)
            end
        end
  | _, _ => (EXIT_FAILURE, g, [])
  end.

(** ** The functions of the library that use other parts of it

    [nc_time2datetime] (declared elsewhere in the library) and the XML parser
    are taken as given: [nc_time2datetime t] is the text of the time [t], or
    None for NULL; [xml_root_name content] is the name of the root element
    of the document [xmlReadMemory] parses from [content], or None when it
    does not parse. *)

Section Library.

Variable nc_time2datetime : Z -> option string.
Variable xml_root_name : string -> option string.

Definition NC_NS_NOTIFICATIONS : string :=
  "urn:ietf:params:xml:ns:netconf:notification:1.0".
Definition NC_NTF_DBUS_PATH : string := "/libnetconf/notifications/stream".
Definition NC_NTF_DBUS_INTERFACE : string := "libnetconf.notifications.stream".

(** *** The iterator *)

(** [ncntf_stream_iter_start]: the state and the thread's [replay_done]
    flag it leaves. Subscribing to the signals of the stream on D-Bus has no
    counterpart here: the messages a connection receives are given with
    it. *)
Definition ncntf_stream_iter_start (sys : system) (g : globals) (replay_done : Z)
    (stream : option string) : globals * Z :=
  if negb (ncntf_config g) then (g, replay_done)
  else
    match ncntf_stream_get sys g stream with
    | (None, g) => (g, replay_done)
    | (Some i, g) =>
        match nth_error (streams g) i with
        | None => (g, replay_done)
        | Some s =>
            let s := set_events s (snd (lseek_set (events s) (data s))) in
            (put_stream g i s, 0)
        end
    end.

(** What the system answers during one call of [ncntf_stream_iter_next]:
    the clock, and for the n-th pass of the reading loop whether locking and
    unlocking the stream file succeed. *)
Record iter_io : Type := mkIterIo {
  it_time : Z;
  it_lockf : nat -> bool;
  it_ulockf : nat -> bool
}.

(** What a call leaves: the value returned (None for NULL), the state, the
    thread's [replay_done] flag, and the object [event_time] points to (None
    when the pointer is NULL). *)
Record iter_result : Type := mkIterResult {
  it_text : option string;
  it_globals : globals;
  it_replay_done : Z;
  it_event_time : option Z
}.

Definition store_time (event_time : option Z) (t : Z) : option Z :=
  match event_time with
  | None => None
  | Some _ => Some t
  end.

Definition dbus_message_is_signal (m : dbus_message) (iface member : string) : bool :=
  msg_is_signal m && String.eqb (msg_interface m) iface
  && String.eqb (msg_member m) member.

Definition DQUOTE : string := String "034"%char EmptyString.

Definition replayComplete_text (time_s : option string) : string :=
  ("<notification xmlns=" ++ DQUOTE
   ++ "urn:ietf:params:xml:ns:netconf:notification:1.0" ++ DQUOTE ++ ">"
   ++ "<eventTime>" ++ printf_s time_s
   ++ "</eventTime><replayComplete/></notification>")%string.

(** The loop [while (ncntf_config != NULL)] that polls D-Bus, run on the
    messages received: the text and time of the event returned, if any, and
    the messages left in the queue. *)
Fixpoint dbus_poll (config is_open : bool) (queue : list dbus_message)
    (start stop : Z) : option (string * Z) * list dbus_message :=
  if negb config then (None, queue)
  else if negb is_open then (* dbus connection is closed *) (None, queue)
  else
    match queue with
    | [] => (* signal == NULL *) (None, [])
    | signal :: queue' =>
        if dbus_message_is_signal signal NC_NTF_DBUS_INTERFACE "Event" then
          match msg_args signal with
          | [] => (None, queue')
          | DBUS_UINT64 t :: args' =>
              (* check boundaries *)
              if negb (start =? -1) && (start >? to_time_t t) then
                dbus_poll config is_open queue' start stop
              else if negb (stop =? -1) && (stop <? to_time_t t) then
                dbus_poll config is_open queue' start stop
              else
                (* we're interested, read content *)
                match args' with
                | DBUS_STRING text :: _ => (Some (text, to_time_t t), queue')
                | _ => dbus_poll config is_open queue' start stop
                end
          | _ :: _ => dbus_poll config is_open queue' start stop
          end
        else (None, queue')
    end.

(** The loop [while (1)] of [ncntf_stream_iter_next], from its pass number
    [pass] on, for at most [fuel] passes (None when they do not suffice).
    [s] is the stream the pointer of that name designates, the one at
    position [i] of the list, where it is put back when the call returns;
    [len] and [t] are the bytes of the local variables of these names. *)
Fixpoint iter_loop (fuel : nat) (sys : system) (io : iter_io) (pass : nat)
    (g : globals) (i : nat) (s : stream) (replay_done : Z) (len t : list ascii)
    (start stop : Z) (event_time : option Z) : option iter_result :=
  match fuel with
  | O => None
  | S fuel' =>
      (* condition to read events from file (use replay) *)
      let '(more, f) :=
        if (replay_done =? 0) && negb (start =? -1) && (replay s =? 1) then
          let offset := fst (lseek_cur (events s) 0) in
          let '(end_, f) := lseek_end (events s) 0 in
          if offset <? end_ then
            (* there are still some data to read *)
            (true, snd (lseek_set f offset))
          else (false, f)
        else (false, events s) in
      let s := set_events s f in
      if negb more then
        (* no more data *)
        if replay_done =? 0 then
          (* send replayComplete notification *)
          let tnow := it_time io in
          Some (mkIterResult (Some (replayComplete_text (nc_time2datetime tnow)))
                             (put_stream g i s) 1 (store_time event_time tnow))
        else
          (* try DBus *)
          match dbus g with
          | None => Some (mkIterResult None (put_stream g i s) replay_done event_time)
          | Some conn =>
              let '(found, queue) :=
                dbus_poll (ncntf_config g) (dbus_is_open conn)
                          (dbus_incoming conn) start stop in
              let g := set_dbus g (Some (mkConnection (dbus_is_open conn) queue
                                                      (dbus_sent conn))) in
              match found with
              | Some (text, tm) =>
                  Some (mkIterResult (Some text) (put_stream g i s) replay_done
                                     (store_time event_time tm))
              | None => (* no more events *)
                  Some (mkIterResult None (put_stream g i s) replay_done event_time)
              end
          end
      else
        let '(r, s) := ncntf_stream_lock (it_lockf io pass) s in
        if r =? 0 then
          let '(r, len, f) := read_into (events s) len 4 in
          let s := set_events s f in
          if r <=? 0 then
            Some (mkIterResult None (put_stream g i s) replay_done event_time)
          else
          let '(r, t, f) := read_into (events s) t 8 in
          let s := set_events s f in
          if r <=? 0 then
            Some (mkIterResult None (put_stream g i s) replay_done event_time)
          else
          let len_v := to_int32 (le_decode len) in
          let t_v := to_time_t (le_decode t) in
          (* check boundaries *)
          if (negb (start =? -1) && (start >? t_v))
             || (negb (stop =? -1) && (stop <? t_v)) then
            (* we're not interested in this event *)
            let s := set_events s (snd (lseek_cur (events s) len_v)) in
            (* read another event *)
            let s := snd (ncntf_stream_unlock (it_ulockf io pass) s) in
            iter_loop fuel' sys io (S pass) g i s replay_done
                      len t start stop event_time
          else
            (* we're interested, read content *)
            let '(r, text, f) :=
              read_into (events s) (stale_object sys "text" len_v) len_v in
            let s := set_events s f in
            if r <=? 0 then
              Some (mkIterResult None (put_stream g i s) replay_done event_time)
            else
            let s := snd (ncntf_stream_unlock (it_ulockf io pass) s) in
            Some (mkIterResult (Some (c_string text)) (put_stream g i s)
                               replay_done (store_time event_time t_v))
        else
          Some (mkIterResult None (put_stream g i s) replay_done event_time)
  end.

Definition ncntf_stream_iter_next (fuel : nat) (sys : system) (io : iter_io)
    (g : globals) (replay_done : Z) (stream : option string) (start stop : Z)
    (event_time : option Z) : option iter_result :=
  if negb (ncntf_config g) then Some (mkIterResult None g replay_done event_time)
  else
    (* check time boundaries *)
    if negb (start =? -1) && negb (stop =? -1) && (stop <? start) then
      Some (mkIterResult None g replay_done event_time)
    else
      match ncntf_stream_get sys g stream with
      | (None, g) => Some (mkIterResult None g replay_done event_time)
      | (Some i, g) =>
          match nth_error (streams g) i with
          | None => Some (mkIterResult None g replay_done event_time)
          | Some s =>
              let replay_done := if start =? -1 then 1 else replay_done in
              iter_loop fuel sys io O g i s replay_done
                        (stale_object sys "len" 4) (stale_object sys "t" 8)
                        start stop event_time
          end
      end.

(** *** The publisher *)

(** The parameters of [ncntf_event_new] that follow [etime], one case for
    each value of [event] with the arguments read by [va_arg]. *)
Inductive NC_DATASTORE : Type :=
  | NC_DATASTORE_STARTUP
  | NC_DATASTORE_RUNNING
  | NC_DATASTORE_other.

Inductive NCNTF_EVENT_BY : Type :=
  | NCNTF_EVENT_BY_SERVER
  | NCNTF_EVENT_BY_USER.

Inductive NC_SESSION_TERM_REASON : Type :=
  | NC_SESSION_TERM_KILLED
  | NC_SESSION_TERM_other (code : Z).

Record nc_session : Type := mkSession {
  username : string;
  session_id : string;
  hostname : string
}.

Inductive event_params : Type :=
  | NCNTF_GENERIC (content : option string)
  | NCNTF_BASE_CFG_CHANGE (ds : NC_DATASTORE) (by_ : NCNTF_EVENT_BY)
                          (session : option nc_session)
  | NCNTF_BASE_CPBLT_CHANGE (old new : list string) (by_ : NCNTF_EVENT_BY)
                            (session : option nc_session)
  | NCNTF_BASE_SESSION_START (session : option nc_session)
  | NCNTF_BASE_SESSION_END (session : option nc_session)
                           (reason : NC_SESSION_TERM_REASON)
                           (killed_by : option string)
  | NCNTF_other.

Variable nc_session_term_string : NC_SESSION_TERM_REASON -> string.

Definition user_text (session : nc_session) : string :=
  ("<username>" ++ username session ++ "</username>"
   ++ "<session-id>" ++ session_id session ++ "</session-id>"
   ++ "<source-host>" ++ hostname session ++ "</source-host>")%string.

(** The text of the one who changed something: None when the session that
    [NCNTF_EVENT_BY_USER] asks for is NULL. *)
Definition changed_by_text (by_ : NCNTF_EVENT_BY) (session : option nc_session)
  : option string :=
  match by_ with
  | NCNTF_EVENT_BY_SERVER => Some "<server/>"
  | NCNTF_EVENT_BY_USER =>
      match session with
      | None => None
      | Some se => Some (user_text se)
      end
  end.

(** The length of a capability URI without its parameters. *)
Fixpoint poffset_of (uri : list ascii) : nat :=
  match uri with
  | [] => O
  | c :: rest => if Ascii.eqb c "?"%char then O else S (poffset_of rest)
  end.

Definition uri_matches (a b : string) (poffset : nat) : bool :=
  strncmp_eq (list_ascii_of_string a) (list_ascii_of_string b) poffset.

(** The character [s[i]] of a C string, its NUL when [i] is its length. *)
Definition char_at (s : string) (i : nat) : ascii :=
  nth i (list_ascii_of_string s) NUL.

(** "find created capabilities" *)
Definition created_capability (old : list string) (new_i : string) : string :=
  let poffset := poffset_of (list_ascii_of_string new_i) in
  match find (fun old_j => uri_matches new_i old_j poffset) old with
  | Some old_j =>
      if (Ascii.eqb (char_at old_j poffset) "?"%char
          || Ascii.eqb (char_at old_j poffset) NUL)
         && negb (String.eqb new_i old_j)
      then ("<modified-capability>" ++ new_i ++ "</modified-capability>")%string
      else EmptyString
  | None => ("<added-capability>" ++ new_i ++ "</added-capability>")%string
  end.

(** "find deleted capabilities" *)
Definition deleted_capability (new : list string) (old_i : string) : string :=
  let poffset := poffset_of (list_ascii_of_string old_i) in
  match find (fun new_j => uri_matches new_j old_i poffset) new with
  | Some _ => EmptyString
  | None => ("<deleted-capability>" ++ old_i ++ "</deleted-capability>")%string
  end.

(** The first part of [ncntf_event_new]: the content of the event, None when
    the function returns EXIT_FAILURE from the [switch]. *)
Definition event_content (event : event_params) : option string :=
  match event with
  | NCNTF_GENERIC content => content
  | NCNTF_BASE_CFG_CHANGE ds by_ session =>
      let aux1 :=
        match ds with
        | NC_DATASTORE_STARTUP => Some "startup"
        | NC_DATASTORE_RUNNING => Some "running"
        | NC_DATASTORE_other => None
        end in
      match aux1, changed_by_text by_ session with
      | Some aux1, Some aux2 =>
          Some ("<netconf-config-change><datastore>" ++ aux1 ++ "</datastore>"
                ++ aux2 ++ "</netconf-config-change>")%string
      | _, _ => None
      end
  | NCNTF_BASE_CPBLT_CHANGE old new by_ session =>
      let aux2 :=
        (String.concat EmptyString (map (created_capability old) new)
         ++ String.concat EmptyString (map (deleted_capability new) old))%string in
      match changed_by_text by_ session with
      | Some aux1 =>
          Some ("<netconf-capability-change>" ++ aux1 ++ aux2
                ++ "</netconf-capability-change>")%string
      | None => None
      end
  | NCNTF_BASE_SESSION_START session =>
      match session with
      | None => None
      | Some se =>
          Some ("<netconf-session-start>" ++ user_text se
                ++ "</netconf-session-start>")%string
      end
  | NCNTF_BASE_SESSION_END session reason killed_by =>
      match session with
      | None => None
      | Some se =>
          let aux2 :=
            match reason, killed_by with
            | NC_SESSION_TERM_KILLED, Some sid =>
                ("<killed-by>" ++ sid ++ "</killed-by>")%string
            | _, _ => EmptyString
            end in
          let aux1 := ("<termination-reason>" ++ nc_session_term_string reason
                       ++ "</termination-reason>")%string in
          Some ("<netconf-session-end>" ++ user_text se ++ aux2 ++ aux1
                ++ "</netconf-session-end>")%string
      end
  | NCNTF_other => None
  end.

(** "complete the event text" *)
Definition event_record (event_time content : string) : string :=
  ("<?xml version=" ++ DQUOTE ++ "1.0" ++ DQUOTE ++ " encoding=" ++ DQUOTE
   ++ "UTF-8" ++ DQUOTE ++ "?>"
   ++ "<notification xmlns=" ++ DQUOTE ++ NC_NS_NOTIFICATIONS ++ DQUOTE ++ ">"
   ++ "<eventTime>" ++ event_time ++ "</eventTime>"
   ++ content ++ "</notification>")%string.

(** What the system answers while one stream file is appended to. *)
Record append_io : Type := mkAppendIo {
  ap_lockf : bool;          (* locking the file succeeds *)
  ap_len : write_io;        (* the write of the length *)
  ap_time : write_io;       (* the write of the time *)
  ap_record : write_io;     (* the write of the record *)
  ap_ftruncate : bool;      (* the ftruncate that reverts succeeds *)
  ap_ulockf : bool          (* unlocking the file succeeds *)
}.

(** What the system answers during one call of [ncntf_event_new]: the clock,
    and for the stream at each position of the list the answers to the
    append and whether the calls that build and send its signal all
    succeed. *)
Record publish_io : Type := mkPublishIo {
  pub_time : Z;
  pub_append : nat -> append_io;
  pub_signal : nat -> bool
}.

(** "log the event to the stream file": the body of the first loop for a
    stream the event is allowed in. *)
Definition append_event (io : append_io) (len etime64 : Z) (record : string)
    (s : stream) : stream :=
  let '(r, s) := ncntf_stream_lock (ap_lockf io) s in
  if r =? 0 then
    let '(offset, f) := lseek_end (events s) 0 in
    let '(r, f) := write_loop (ap_len io) f (le_encode 4 len) in
    let '(r, f) :=
      if r =? -1 then (r, f)
      else write_loop (ap_time io) f (le_encode 8 etime64) in
    let '(r, f) :=
      if r =? -1 then (r, f)
      else write_loop (ap_record io) f (firstn (Z.to_nat len) (c_bytes record)) in
    (* write_failed: *)
    let f :=
      if r =? -1 then
        (* revert changes *)
        let f := if ap_ftruncate io then truncate f offset else f in
        snd (lseek_set f offset)
      else f in
    snd (ncntf_stream_unlock (ap_ulockf io) (set_events s f))
  else s.

(** "write the event into the stream file(s)": the first loop, when the
    pointer [s] is at position [k] of the list and [rest] is the part of the
    list from there on. *)
Fixpoint store_event (sys : system) (io : publish_io) (len etime64 : Z)
    (record ename : string) (g : globals) (k : nat) (rest : list stream)
  : globals :=
  match rest with
  | [] => g
  | s :: rest' =>
      let g :=
        if replay s =? 0 then g
        else
          let '(allowed, g) :=
            ncntf_event_isallowed sys g (Some (name s)) (Some ename) in
          if negb (allowed =? 0) then
            put_stream g k (append_event (pub_append io k) len etime64 record s)
          else g in
      store_event sys io len etime64 record ename g (S k) rest'
  end.

Definition event_signal (s : stream) (etime64 : Z) (record : string) : dbus_message :=
  mkMessage (NC_NTF_DBUS_PATH ++ "/" ++ name s)%string NC_NTF_DBUS_INTERFACE "Event"
            true [DBUS_UINT64 etime64; DBUS_STRING record].

(** "announce event via DBus": the second loop, on the connection [conn]. *)
Fixpoint announce_event (sys : system) (io : publish_io) (etime64 : Z)
    (record ename : string) (g : globals) (conn : dbus_connection)
    (k : nat) (rest : list stream) : globals * dbus_connection :=
  match rest with
  | [] => (g, conn)
  | s :: rest' =>
      let '(allowed, g) :=
        ncntf_event_isallowed sys g (Some (name s)) (Some ename) in
      if allowed =? 0 then
        announce_event sys io etime64 record ename g conn (S k) rest'
      else if negb (pub_signal io k) then
        (* goto cleanup_dbus_mut *) (g, conn)
      else
        (* send the message and flush the connection *)
        let conn := mkConnection (dbus_is_open conn) (dbus_incoming conn)
                                 (dbus_sent conn ++ [event_signal s etime64 record]) in
        announce_event sys io etime64 record ename g conn (S k) rest'
  end.

Definition ncntf_event_new (sys : system) (io : publish_io) (g : globals)
    (etime : Z) (event : event_params) : Z * globals :=
  let ret := EXIT_SUCCESS in
  (* check the stream *)
  if negb (ncntf_config g) then (EXIT_FAILURE, g) else
  (* get the event description *)
  match event_content event with
  | None => (EXIT_FAILURE, g)
  | Some content =>
      (* process the EventTime *)
      let etime := if etime =? -1 then pub_time io else etime in
      if etime =? -1 then (EXIT_FAILURE, g) else
      match nc_time2datetime etime with
      | None => (EXIT_FAILURE, g)
      | Some event_time =>
          let etime64 := to_uint64 etime in
          (* get event name string for filter on streams *)
          match xml_root_name content with
          | None => (EXIT_FAILURE, g)
          | Some ename =>
              (* complete the event text *)
              let record := event_record event_time content in
              let len := to_int32 (strlen record) in
              if len =? -1 then (EXIT_FAILURE, g) else
              let len := to_int32 (len + 1) in
              (* write the event into the stream file(s) *)
              let g := store_event sys io len etime64 record ename g O (streams g) in
              (* announce event via DBus *)
              let g :=
                match dbus g with
                | None => g
                | Some conn =>
                    let '(g, conn) :=
                      announce_event sys io etime64 record ename g conn O (streams g) in
                    set_dbus g (Some conn)
                end in
              (ret, g)
          end
      end
  end.

(** *** The subscription validator *)

Variable NCNTF_STREAM_DEFAULT : string.
Variable nc_datetime2time : string -> Z.

(** A request as [ncntf_subscription_get_params] reads it: the operation, and
    what each XPath query finds (the content of the node when there is
    exactly one, None otherwise). *)
Record nc_rpc : Type := mkRpc {
  rpc_is_create_subscription : bool;   (* nc_rpc_get_op() == NC_OP_CREATESUBSCRIPTION *)
  rpc_xpath_context : bool;            (* the XPath context is set up *)
  rpc_stream : option string;
  rpc_startTime : option string;
  rpc_stopTime : option string;
  rpc_filter : option bool             (* the filter node, and whether
                                          nc_rpc_get_filter() accepts it *)
}.

(** The value returned and the values stored through [stream], [start] and
    [stop]. *)
Definition ncntf_subscription_get_params (subscribe_rpc : option nc_rpc)
  : Z * string * Z * Z :=
  match subscribe_rpc with
  | None => (-1, EmptyString, 0, 0)
  | Some rpc =>
      if negb (rpc_is_create_subscription rpc) then (-1, EmptyString, 0, 0)
      else if negb (rpc_xpath_context rpc) then (-1, EmptyString, 0, 0)
      else
        (* get stream name from subscription *)
        let stream :=
          match rpc_stream rpc with
          | None => NCNTF_STREAM_DEFAULT
          | Some v => v
          end in
        (* get startTime from the subscription *)
        let start :=
          match rpc_startTime rpc with
          | None => -1
          | Some v => nc_datetime2time v
          end in
        (* get stopTime from the subscription *)
        let stop :=
          match rpc_stopTime rpc with
          | None => -1
          | Some v => nc_datetime2time v
          end in
        (* get filter from the subscription *)
        match rpc_filter rpc with
        | Some false => (-2, stream, start, stop)
        | _ => (0, stream, start, stop)
        end
  end.

Inductive NC_ERR : Type :=
  | NC_ERR_INVALID_VALUE
  | NC_ERR_OP_FAILED
  | NC_ERR_BAD_ELEM
  | NC_ERR_MISSING_ELEM.

(** An error with the parameters this file sets in it. *)
Record nc_err : Type := mkErr {
  err_tag : NC_ERR;
  err_type : option string;       (* NC_ERR_PARAM_TYPE *)
  err_badelem : option string;    (* NC_ERR_PARAM_INFO_BADELEM *)
  err_msg : option string         (* NC_ERR_PARAM_MSG *)
}.

Inductive nc_reply : Type :=
  | nc_reply_ok
  | nc_reply_error (e : nc_err).

Definition nc_err_new (tag : NC_ERR) : nc_err := mkErr tag None None None.

Definition protocol_error (tag : NC_ERR) (elem : string) : nc_err :=
  mkErr tag (Some "protocol") (Some elem) None.

(** [ncntf_subscription_check]; [now] is what [time(NULL)] returns. *)
Definition ncntf_subscription_check (sys : system) (now : Z) (g : globals)
    (subscribe_rpc : option nc_rpc) : nc_reply * globals :=
  match subscribe_rpc with
  | None => (nc_reply_error (nc_err_new NC_ERR_INVALID_VALUE), g)
  | Some rpc =>
      if negb (rpc_is_create_subscription rpc)
      then (nc_reply_error (nc_err_new NC_ERR_INVALID_VALUE), g)
      else
        let '(r, stream, start, stop) := ncntf_subscription_get_params subscribe_rpc in
        if r =? 0 then
          (* check existence of the stream *)
          match ncntf_stream_get sys g (Some stream) with
          | (None, g) =>
              (nc_reply_error
                 (mkErr NC_ERR_INVALID_VALUE None None
                        (Some ("Requested stream '" ++ stream ++ "' does not exist.")%string)),
               g)
          | (Some _, g) =>
              (* check start and stop times *)
              if negb (stop =? -1) && (start =? -1) then
                (nc_reply_error (protocol_error NC_ERR_MISSING_ELEM "startTime"), g)
              else if negb (stop =? -1) && negb (start =? -1) && (start >? stop) then
                (nc_reply_error (protocol_error NC_ERR_BAD_ELEM "stopTime"), g)
              else if negb (start =? -1) && (start >? now) then
                (nc_reply_error (protocol_error NC_ERR_BAD_ELEM "startTime"), g)
              else
                (* all is checked and correct *)
                (nc_reply_ok, g)
          end
        else if r =? -1 then
          (* rpc is invalid *)
          (nc_reply_error (nc_err_new NC_ERR_OP_FAILED), g)
        else if r =? -2 then
          (* filter is invalid *)
          (nc_reply_error (protocol_error NC_ERR_BAD_ELEM "filter"), g)
        else
          (* unknown error *)
          (nc_reply_error (nc_err_new NC_ERR_OP_FAILED), g)
  end.

End Library.

(** ** Instances of the parts taken as given, for the examples *)

Definition digit (d : Z) : ascii := ascii_of_N (Z.to_N (48 + d mod 10)).
Definition dec2 (n : Z) : string :=
  String (digit (n / 10)) (String (digit n) EmptyString).
Definition dec4 (n : Z) : string :=
  String (digit (n / 1000)) (String (digit (n / 100)) (dec2 n)).

(** Modelled from the spec: [nc_time2datetime], which another file of the
    library defines; the spec says that the publisher converts the
    timestamp "to ISO-8601 text". Here: the date and time in UTC of [t]
    seconds since the epoch, in the proleptic Gregorian calendar. *)
Definition iso8601 (t : Z) : option string :=
  let days := t / 86400 in
  let secs := t mod 86400 in
  let z := days + 719468 in
  let era := z / 146097 in
  let doe := z - era * 146097 in
  let yoe := (doe - doe / 1460 + doe / 36524 - doe / 146096) / 365 in
  let doy := doe - (365 * yoe + yoe / 4 - yoe / 100) in
  let mp := (5 * doy + 2) / 153 in
  let d := doy - (153 * mp + 2) / 5 + 1 in
  let m := if mp <? 10 then mp + 3 else mp - 9 in
  let y := yoe + era * 400 + (if m <=? 2 then 1 else 0) in
  Some (dec4 y ++ "-" ++ dec2 m ++ "-" ++ dec2 d ++ "T"
        ++ dec2 (secs / 3600) ++ ":" ++ dec2 (secs / 60 mod 60) ++ ":"
        ++ dec2 (secs mod 60) ++ "Z")%string.

(** A stand-in for the XML parser on the contents of the examples: the name
    that follows the opening bracket of the text, None when there is
    none. *)
Fixpoint element_name (s : string) : string :=
  match s with
  | EmptyString => EmptyString
  | String c rest =>
      if Ascii.eqb c ">"%char || Ascii.eqb c "/"%char || Ascii.eqb c " "%char
      then EmptyString
      else String c (element_name rest)
  end.

Definition root_element_name (content : string) : option string :=
  match content with
  | String "<" rest =>
      match element_name rest with
      | EmptyString => None
      | nm => Some nm
      end
  | _ => None
  end.

Definition term_string (reason : NC_SESSION_TERM_REASON) : string :=
  match reason with
  | NC_SESSION_TERM_KILLED => "killed"
  | NC_SESSION_TERM_other _ => "other"
  end.

(** A system with no file to open, whose stale memory is all ["U"]. *)
Definition no_rules_io : rules_io := mkRulesIo false CreatError (-1) None.
Definition bare_system : system :=
  mkSystem (fun _ _ => "U"%char) (fun _ => None) (fun _ => no_rules_io).

(** Answers of a system where every call succeeds at once. *)
Definition write_all : write_io := mkWriteIo 0 WriteAll.
Definition append_ok : append_io :=
  mkAppendIo true write_all write_all write_all true true.
Definition publish_ok (now : Z) : publish_io :=
  mkPublishIo now (fun _ => append_ok) (fun _ => true).
Definition iter_ok (now : Z) : iter_io :=
  mkIterIo now (fun _ => true) (fun _ => true).

(** The bytes of a rules region of [size] bytes that holds [text]. *)
Definition rules_region (text : string) (size : nat) : list ascii :=
  list_ascii_of_string text ++ repeat NUL (size - String.length text).


Definition example_datetime2time (s : string) : Z :=
  if String.eqb s "1970-01-01T00:16:40Z" then 1000
  else if String.eqb s "1970-01-01T00:25:00Z" then 1500
  else if String.eqb s "1970-01-01T00:33:20Z" then 2000
  else -1.

(** ** The states of the examples *)

Definition LFs : string := String LF EmptyString.

(** A stream as it is once loaded: its file holds its header, the rules
    region (64 bytes here) holds the text [allowed]. *)
Definition example_stream (nm : string) (replay_flag : Z) (allowed : string) : stream :=
  let s := mkStream 3 4 nm (Some "d") replay_flag 500 0 (rules_region allowed 64)
                    0 (mkFile [] 0) in
  let header := fst (prepare_header s) in
  set_data (set_events s (mkFile header (List.length header)))
           (Z.of_nat (List.length header)).

Definition open_bus : option dbus_connection := Some (mkConnection true [] []).

(** One stream, "A", that keeps its events and allows the event [x]. *)
Definition one_stream : globals :=
  mkGlobals (Some "/var/streams") true
            [example_stream "A" 1 ("x" ++ LFs)] open_bus.

(** ** The requests of the examples *)

(** A request for the stream "A" from 00:33:20 to 00:25:00 on 1 January
    1970. *)
Definition backwards_request : nc_rpc :=
  mkRpc true true (Some "A") (Some "1970-01-01T00:33:20Z")
        (Some "1970-01-01T00:25:00Z") None.


(** A request for the stream "A" from 00:16:40 to 00:33:20 on 1 January
    1970. *)
Definition example_request : nc_rpc :=
  mkRpc true true (Some "A") (Some "1970-01-01T00:16:40Z")
        (Some "1970-01-01T00:33:20Z") None.


(** ** Notions used to state the properties of the publisher *)

(** A text that holds no NUL, as every C string does. *)
Definition no_nul (l : list ascii) : Prop := Forall (fun c => c <> NUL) l.

(** Two lists of streams with the same names and rules, in the same
    order. *)
Definition same_rules (ss ss' : list stream) : Prop :=
  Forall2 (fun a b => name a = name b /\ rules a = rules b) ss ss'.

(** Whether the rules of the stream called [nm] in the list [ss] hold the
    line [ename]: the answer of [ncntf_event_isallowed] for a stream of the
    list. *)
Definition allowed_in (ss : list stream) (nm ename : string) : bool :=
  match find_stream ss nm with
  | None => false
  | Some i =>
      match nth_error ss i with
      | None => false
      | Some s =>
          existsb (fun token => list_ascii_eqb (list_ascii_of_string ename) token)
                  (strtok_tokens LF (c_str (rules s)))
      end
  end.

(** The stream [s] of the state [g] admits the event [ename]. *)
Definition admits (g : globals) (ename : string) (s : stream) : bool :=
  allowed_in (streams g) (name s) ename.

(** [f k x] for each element [x] of a list, [k] its position counted
    from [k0]. *)
Fixpoint mapi_from {A B : Type} (f : nat -> A -> B) (k0 : nat) (l : list A) : list B :=
  match l with
  | [] => []
  | x :: rest => f k0 x :: mapi_from f (S k0) rest
  end.

(** What the first loop of the publisher makes of the stream at
    position [k]. *)
Definition stored (io : publish_io) (len etime64 : Z) (record : string)
    (admitted : stream -> bool) (k : nat) (s : stream) : stream :=
  if replay s =? 0 then s
  else if admitted s then append_event (pub_append io k) len etime64 record s
  else s.

(** The signals the second loop of the publisher sends. *)
Fixpoint signals (io : publish_io) (etime64 : Z) (record : string)
    (admitted : stream -> bool) (k : nat) (rest : list stream) : list dbus_message :=
  match rest with
  | [] => []
  | s :: rest' =>
      if admitted s then
        if pub_signal io k
        then event_signal s etime64 record
             :: signals io etime64 record admitted (S k) rest'
        else []
      else signals io etime64 record admitted (S k) rest'
  end.

(** The bytes of one record of a stream file. *)
Definition record_bytes (len etime64 : Z) (record : string) : list ascii :=
  le_encode 4 len ++ le_encode 8 etime64 ++ firstn (Z.to_nat len) (c_bytes record).

(** The stream file took the append: it was locked and no write failed. *)
Definition append_accepted (io : append_io) : Prop :=
  ap_lockf io = true
  /\ wr_end (ap_len io) <> WriteError
  /\ wr_end (ap_time io) <> WriteError
  /\ wr_end (ap_record io) <> WriteError.

(** One of the three writes of the append fails. *)
Definition append_write_fails (io : append_io) : Prop :=
  wr_end (ap_len io) = WriteError
  \/ wr_end (ap_time io) = WriteError
  \/ wr_end (ap_record io) = WriteError.

(** The three writes of the append transfer all their bytes. *)
Definition append_complete (io : append_io) : Prop :=
  ap_lockf io = true
  /\ wr_end (ap_len io) = WriteAll
  /\ wr_end (ap_time io) = WriteAll
  /\ wr_end (ap_record io) = WriteAll.

(** A stream the publisher writes the event to. *)
Definition targeted (g : globals) (ename : string) (s : stream) : Prop :=
  replay s <> 0 /\ admits g ename s = true.

(** Sending on D-Bus failed during the call. *)
Definition bus_broadcast_failed (io : publish_io) (g : globals) (ename : string) : Prop :=
  dbus g <> None
  /\ exists k s, nth_error (streams g) k = Some s
                 /\ admits g ename s = true /\ pub_signal io k = false.

(** The result of a publish as the specification states it: success if and
    only if every targeted stream took the append and sending on D-Bus did
    not fail. *)
Definition success_iff_all_accepted (ret : Z) (io : publish_io) (g : globals)
    (ename : string) : Prop :=
  ret = EXIT_SUCCESS
  <-> ((forall k s, nth_error (streams g) k = Some s -> targeted g ename s ->
                    append_accepted (pub_append io k))
       /\ ~ bus_broadcast_failed io g ename).

(** A failed append as the specification states it: a stream the publisher
    writes the event [ename] to, whose file it has locked and for which
    one of the three writes fails, has after the call (state [g']) the file
    contents it had before (state [g]). *)
Definition failed_append_leaves_file (io : publish_io) (g g' : globals)
    (ename : string) : Prop :=
  forall k s,
    nth_error (streams g) k = Some s ->
    targeted g ename s ->
    ap_lockf (pub_append io k) = true ->
    append_write_fails (pub_append io k) ->
    exists s',
      nth_error (streams g') k = Some s'
      /\ f_data (events s') = f_data (events s).

(** The first arguments of the signals sent on a connection: the times they
    carry. *)
Definition sent_times (g : globals) : list dbus_arg :=
  match dbus g with
  | None => []
  | Some conn => map (fun m => hd DBUS_OTHER (msg_args m)) (dbus_sent conn)
  end.

(** The time of an event as the specification states it: [etime] when it is
    not negative, the clock otherwise. *)
Definition time_as_stated (now etime : Z) : Z :=
  if 0 <=? etime then etime else now.

(** Answers of a system where sending on D-Bus fails. *)
Definition publish_bus_down (now : Z) : publish_io :=
  mkPublishIo now (fun _ => append_ok) (fun _ => false).

(** Answers of a system where the write of the record fails, after two
    interrupted attempts. *)
Definition append_record_fails : append_io :=
  mkAppendIo true write_all write_all (mkWriteIo 2 WriteError) true true.
Definition publish_disk_full (now : Z) : publish_io :=
  mkPublishIo now (fun _ => append_record_fails) (fun _ => true).

(** Answers of a system where the write of the record fails and the
    [ftruncate] that reverts fails as well. *)
Definition append_not_reverted : append_io :=
  mkAppendIo true write_all write_all (mkWriteIo 0 WriteError) false true.
Definition publish_revert_fails (now : Z) : publish_io :=
  mkPublishIo now (fun _ => append_not_reverted) (fun _ => true).

(** Three streams: "A" keeps its events and allows [x]; "B" allows [x] and
    [y] and keeps nothing; "C" keeps its events and allows [y]. *)
Definition three_streams : globals :=
  mkGlobals (Some "/var/streams") true
            [example_stream "A" 1 ("x" ++ LFs);
             example_stream "B" 0 ("x" ++ LFs ++ "y" ++ LFs);
             example_stream "C" 1 ("y" ++ LFs)]
            open_bus.

Definition generic_x : event_params := NCNTF_GENERIC (Some "<x/>").


(** The part of [ncntf_event_new] before its two loops: the length, the
    time, the text and the element name of the record it goes on with, None
    when it returns EXIT_FAILURE before them. *)
Definition prepare_event (nc_time2datetime : Z -> option string)
    (xml_root_name : string -> option string)
    (nc_session_term_string : NC_SESSION_TERM_REASON -> string)
    (io : publish_io) (g : globals) (etime : Z) (event : event_params)
  : option (Z * Z * string * string) :=
  if negb (ncntf_config g) then None else
  match event_content nc_session_term_string event with
  | None => None
  | Some content =>
      let etime := if etime =? -1 then pub_time io else etime in
      if etime =? -1 then None else
      match nc_time2datetime etime with
      | None => None
      | Some event_time =>
          match xml_root_name content with
          | None => None
          | Some ename =>
              let record := event_record event_time content in
              let len := to_int32 (strlen record) in
              if len =? -1 then None
              else Some (to_int32 (len + 1), to_uint64 etime, record, ename)
          end
      end
  end.

(** The state the two loops of [ncntf_event_new] leave. *)
Definition published (io : publish_io) (len etime64 : Z) (record ename : string)
    (g : globals) : globals :=
  mkGlobals (streams_path g) (ncntf_config g)
    (mapi_from (stored io len etime64 record (admits g ename)) O (streams g))
    (match dbus g with
     | None => None
     | Some conn =>
         Some (mkConnection (dbus_is_open conn) (dbus_incoming conn)
                 (dbus_sent conn
                  ++ signals io etime64 record (admits g ename) O (streams g)))
     end).

(** A file whose offset is at its end. *)
Definition at_end (d : list ascii) : file := mkFile d (List.length d).


(** The record of the event [<x/>] at the time 1000. *)
Definition example_record : string := event_record "1970-01-01T00:16:40Z" "<x/>".
Definition example_len : Z := to_int32 (to_int32 (strlen example_record) + 1).

(** The instances of the publisher used in the examples. *)
Definition example_event_new : system -> publish_io -> globals -> Z -> event_params
                               -> Z * globals :=
  ncntf_event_new iso8601 root_element_name term_string.
Definition example_prepare : publish_io -> globals -> Z -> event_params
                             -> option (Z * Z * string * string) :=
  prepare_event iso8601 root_element_name term_string.


(** ** Notions used to state the properties of the iterator *)

(** A record of a stream file: its time, as stored, and its text. *)
Record event_rec : Type := mkRec {
  er_time : Z;
  er_text : string
}.

(** The bytes of a record, as the publisher writes them. *)
Definition encode_record (r : event_rec) : list ascii :=
  record_bytes (strlen (er_text r) + 1) (er_time r) (er_text r).

Definition encode_records (rs : list event_rec) : list ascii :=
  List.concat (map encode_record rs).

(** The bytes of a file from the offset of its descriptor on. *)
Definition remaining (f : file) : list ascii := skipn (f_pos f) (f_data f).

(** A record the publisher can have written: a text without NUL whose
    length fits [int32_t], a time that fits [uint64_t]. *)
Definition well_formed (r : event_rec) : Prop :=
  no_nul (list_ascii_of_string (er_text r))
  /\ strlen (er_text r) + 1 < 2 ^ 31
  /\ 0 <= er_time r < 2 ^ 64.

(** The time of the record lies in the window: not before [start], and not
    after [stop] when [stop] is set. *)
Definition in_window (start stop : Z) (r : event_rec) : bool :=
  (start <=? to_time_t (er_time r))
  && ((stop =? -1) || (to_time_t (er_time r) <=? stop)).

(** What a record is returned as: its text and its time as [time_t]. *)
Definition delivered (r : event_rec) : string * Z :=
  (er_text r, to_time_t (er_time r)).

(** The events a caller gets from the file: the texts and times returned by
    successive calls of [ncntf_stream_iter_next], up to the call that
    returns NULL or sets the [replay_done] flag. None when a call is not
    given passes enough for its loop, or when [calls] calls do not reach the
    end. *)
Fixpoint replayed (nc_time2datetime : Z -> option string) (calls fuel : nat)
    (sys : system) (io : iter_io) (g : globals) (replay_done : Z)
    (stream : option string) (start stop : Z) : option (list (string * Z)) :=
  match calls with
  | O => None
  | S calls' =>
      match ncntf_stream_iter_next nc_time2datetime fuel sys io g replay_done
                                   stream start stop (Some 0) with
      | None => None
      | Some res =>
          if it_replay_done res =? 0 then
            match it_text res, it_event_time res with
            | Some text, Some tm =>
                option_map (cons (text, tm))
                           (replayed nc_time2datetime calls' fuel sys io
                                     (it_globals res) (it_replay_done res)
                                     stream start stop)
            | _, _ => Some []
            end
          else Some []
      end
  end.

(** The stream once a pass of the loop of the iterator has gone over the
    record [r]. *)
Definition after_record (io : iter_io) (pass : nat) (s : stream) (r : event_rec)
  : stream :=
  snd (ncntf_stream_unlock (it_ulockf io pass)
         (set_events (set_locked s 1)
            (mkFile (f_data (events s))
                    (f_pos (events s) + List.length (encode_record r))))).

(** Three records of the event [x], at the times 100, 200 and 300, and the
    stream "A" with these records in its file after its header, the offset
    of the descriptor at the first of them. *)
Definition record_at (t : Z) : event_rec :=
  mkRec t (event_record (printf_s (iso8601 t)) "<x/>").
Definition stored_records : list event_rec := [record_at 100; record_at 200; record_at 300].
Definition replay_stream : stream :=
  let s := example_stream "A" 1 ("x" ++ LFs) in
  set_events s (mkFile (f_data (events s) ++ encode_records stored_records)
                       (f_pos (events s))).
Definition replay_state : globals :=
  mkGlobals (Some "/var/streams") true [replay_stream] open_bus.

(** The state after the event [x] is published to "A" at the times 100, 200
    and 300. *)
Definition published_thrice : globals :=
  let g := snd (example_event_new bare_system (publish_ok 5000) one_stream 100 generic_x) in
  let g := snd (example_event_new bare_system (publish_ok 5000) g 200 generic_x) in
  snd (example_event_new bare_system (publish_ok 5000) g 300 generic_x).


(** ** The states of the examples of the rules *)

(** A rules region of [n + 2] bytes that one line of [n] characters
    fills: the line, its newline, and the NUL that ends the text. *)
Definition filled_rules (n : nat) : list ascii :=
  repeat "a"%char n ++ [LF; NUL].

Definition stream_with_rules (region : list ascii) : stream :=
  set_rules (example_stream "A" 1 EmptyString) region.

Definition state_with_rules (region : list ascii) : globals :=
  mkGlobals (Some "/var/streams") true [stream_with_rules region] open_bus.

(** The region of [NCNTF_RULES_SIZE] bytes with one byte free. *)
Definition full_rules : list ascii := filled_rules (Z.to_nat NCNTF_RULES_SIZE - 2).


(** ** The example of the header *)

(** The stream "A" as [ncntf_stream_new] fills it before it writes the
    header, and the answers of a system where every call succeeds: the
    buffer of the header is allocated at the address 0x55555555a2a0, and the
    memory after the pointer variable holds the bytes ["U"]. *)
Definition new_stream : stream :=
  mkStream (-1) (-1) "A" (Some "d") 1 1000 0 [] 0 (mkFile [] 0).
Definition header_ok : header_io :=
  mkHeaderIo 3 true 0x55555555a2a0 (fun _ => "U"%char) (mkWriteIo 0 WriteAll) true.

(** A system whose only file is the one at [filepath], with the contents
    [bytes]. *)
Definition system_with_file (filepath : string) (bytes : list ascii) : system :=
  mkSystem (fun _ _ => "U"%char)
           (fun p => if String.eqb p filepath then Some (3, bytes) else None)
           (fun _ => no_rules_io).

(** ** The examples of loading a stream file *)

(** The stream [read_fileheader] returns for a file that holds the header
    prepared for [new_stream], opened on the descriptor 3. *)
Definition loaded_stream : stream :=
  mkStream 3 (-1) "A" (Some "d") 1 1000 0 [] 27
           (mkFile (fst (prepare_header new_stream)) 27).

(** The bytes of that header after the magic bytes and the version. *)
Definition header_after_version : list ascii :=
  skipn 10 (fst (prepare_header new_stream)).

(** ** Notions used to state the properties of the rules *)

(** A rules text made of whole lines: it is empty or ends with a newline. *)
Definition terminated (text : list ascii) : Prop :=
  text = [] \/ exists body, text = body ++ [LF].

(** The region has room for one more line [ev], its newline and the NUL that
    ends the text. *)
Definition has_room (region : list ascii) (ev : string) : Prop :=
  (List.length (c_str region) + String.length ev + 2 <= List.length region)%nat.

(** ** Creating, listing and closing streams, and starting the library

    Memory allocation is an answer of the system where the code checks the
    pointer it gets ([malloc], [calloc]); [asprintf] and [strdup] are taken
    to succeed, as everywhere in this development. [ncntf_stream_free]
    releases a structure and closes its events file: a stream that is freed
    is in no list any more, and the function has no other counterpart. The
    document that [streams_to_xml] builds is kept in the state only as the
    fact that [ncntf_config] is not NULL. *)

(** What the system answers during [ncntf_stream_new]. *)
Record new_io : Type := mkNewIo {
  new_malloc : bool;        (* malloc(sizeof(struct stream)) is not NULL *)
  new_time : Z;             (* time(NULL) *)
  new_header : header_io    (* the answers during write_fileheader *)
}.

Definition ncntf_stream_new (sys : system) (io : new_io) (g : globals)
    (nm description : string) (replay_flag : Z) : Z * globals :=
  if negb (ncntf_config g) then (EXIT_FAILURE, g) else
  (* check the stream name if the requested stream already exists *)
  if existsb (fun s => String.eqb nm (name s)) (streams g) then (EXIT_FAILURE, g) else
  if negb (new_malloc io) then (EXIT_FAILURE, g) else
  let s := mkStream (-1) (-1) nm (Some description) (to_uint8 replay_flag)
                    (new_time io) 0 []
                    (to_uint32 (le_decode (stale_object sys "data" 4)))
                    (mkFile [] 0) in
  let '(r, s) := write_fileheader (streams_path g) (new_header io) s in
  if negb (r =? 0) then (EXIT_FAILURE, g) else
  let '(r, s) := map_rules (streams_path g) sys s in
  if negb (r =? 0) then (EXIT_FAILURE, g) else
  (* add created stream into the list *)
  (EXIT_SUCCESS, set_streams g (s :: streams g)).

(** [ncntf_stream_list]: the names of the streams, None for NULL; [calloc]
    says whether the list is allocated. *)
Definition ncntf_stream_list (calloc : bool) (g : globals) : option (list string) :=
  if negb (ncntf_config g) then None
  else if negb calloc then None
  else Some (map name (streams g)).

Definition ncntf_stream_isavailable (g : globals) (nm : option string) : Z :=
  match nm with
  | None => 0
  | Some nm =>
      if negb (ncntf_config g) then 0
      else if existsb (fun s => String.eqb (name s) nm) (streams g)
      then (* the specified stream does exist *) 1
      else (* the stream does not exist *) 0
  end.

Definition ncntf_dbus_close (g : globals) : globals :=
  match dbus g with
  | Some _ => set_dbus g None
  | None => g
  end.

(** [ncntf_streams_close]: every stream of the list is freed. *)
Definition ncntf_streams_close (g : globals) : globals := set_streams g [].

Definition ncntf_close (g : globals) : globals :=
  if ncntf_config g then
    let g := mkGlobals (streams_path g) false (streams g) (dbus g) in
    ncntf_streams_close (ncntf_dbus_close g)
  else g.

(** [ncntf_dbus_init]; [bus] is what [dbus_bus_get] returns, None for
    NULL. *)
Definition ncntf_dbus_init (bus : option dbus_connection) (g : globals) : Z * globals :=
  match dbus g with
  | Some _ => (EXIT_SUCCESS, g)
  | None =>
      (* connect to the D-Bus *)
      match bus with
      | None => (EXIT_FAILURE, g)
      | Some conn => (EXIT_SUCCESS, set_dbus g (Some conn))
      end
  end.

(** What the system answers about a path during [check_streams_path]. *)
Inductive access_result : Type :=
  | AccessOk           (* access(path, F_OK|R_OK|W_OK) == 0 *)
  | AccessNoEntry      (* it failed with ENOENT *)
  | AccessDenied.      (* it failed for another reason *)

Record path_io : Type := mkPathIo {
  pa_access : access_result;
  pa_mkdir : bool;           (* mkdir(path, 0777) succeeds *)
  pa_stat : option bool      (* stat(path): None when it fails, else S_ISDIR *)
}.

Definition check_streams_path (io : path_io) : Z :=
  match pa_access io with
  | AccessNoEntry =>
      (* path does not exist -> create it *)
      if pa_mkdir io then EXIT_SUCCESS else EXIT_FAILURE
  | AccessDenied => EXIT_FAILURE
  | AccessOk =>
      (* check that the file is directory *)
      match pa_stat io with
      | None => EXIT_FAILURE
      | Some false => EXIT_FAILURE
      | Some true => EXIT_SUCCESS
      end
  end.

(** An entry of a directory as [scandir] gives it, with what [stat] says of
    the file (None when it fails, else S_ISREG). Without the macro
    _DIRENT_HAVE_D_TYPE every entry is handled as one of type DT_UNKNOWN. *)
Inductive dirent_type : Type :=
  | DT_REG
  | DT_UNKNOWN
  | DT_other.

Record dirent : Type := mkDirent {
  d_name : string;
  d_type : dirent_type;
  d_stat : option bool
}.

(** [filter_reg_files]: the entries that are not regular files become NULL.
    The entries are gone through from the last to the first; none depends on
    another. *)
Definition filter_reg_files (filelist : list (option dirent)) : list (option dirent) :=
  map (fun entry =>
         match entry with
         | None => None
         | Some d =>
             match d_type d with
             | DT_UNKNOWN =>
                 (* try another detection method -> use stat *)
                 match d_stat d with
                 | None => None
                 | Some false => None
                 | Some true => Some d
                 end
             | DT_REG => Some d
             | DT_other => None
             end
         end)
      filelist.

Section Registry.

(** The macros NCNTF_STREAM_BASE and NCNTF_STREAMS_PATH, which other files
    of the library define. *)
Variable NCNTF_STREAM_BASE : string.
Variable NCNTF_STREAMS_PATH : string.

(** [set_streams_path]; [env] is what [getenv] returns, [paths] the answers
    of the system about each path. *)
Definition set_streams_path (env : option string) (paths : string -> path_io)
    (g : globals) : Z * globals :=
  (* forgot previously set value *)
  let path := None in
  (* try to get path from the environment variable *)
  let path :=
    match env with
    | Some e => if check_streams_path (paths e) =? 0 then Some e else path
    | None => path
    end in
  let path :=
    match path with
    | None =>
        (* try to use default path *)
        if check_streams_path (paths NCNTF_STREAMS_PATH) =? 0
        then Some NCNTF_STREAMS_PATH else None
    | Some _ => path
    end in
  let g := mkGlobals path (ncntf_config g) (streams g) (dbus g) in
  match path with
  | None => (EXIT_FAILURE, g)
  | Some _ => (EXIT_SUCCESS, g)
  end.

(** What the system answers during [ncntf_init]. *)
Record init_io : Type := mkInitIo {
  in_mutexes : bool;                         (* the mutexes that are missing are created *)
  in_bus : option dbus_connection;           (* dbus_bus_get() *)
  in_env : option string;                    (* getenv(NCNTF_STREAMS_PATH_ENV) *)
  in_paths : string -> path_io;
  in_scandir : string -> option (list dirent);   (* None when scandir fails *)
  in_new : new_io                            (* while the base stream is created *)
}.

(** The body of the loop of [ncntf_streams_init] that opens the files. *)
Definition load_stream_file (sys : system) (entry : option dirent) (g : globals)
  : globals :=
  match entry with
  | None => (* was not a regular file *) g
  | Some d =>
      let filepath := (printf_s (streams_path g) ++ "/" ++ d_name d)%string in
      match read_fileheader sys filepath with
      | None => (* not an event stream file *) g
      | Some s =>
          let '(r, s) := map_rules (streams_path g) sys s in
          if r =? 0 then
            (* add the stream file into the stream list *)
            set_streams g (s :: streams g)
          else g
      end
  end.

(** The five calls of [ncntf_streams_init] that "allow notifications defined
    in RFC 6470" in the base stream. *)
Definition allow_base_events (sys : system) (g : globals) : globals :=
  let g := snd (fst (ncntf_stream_allow_events sys g (Some NCNTF_STREAM_BASE)
                       (Some "netconf-config-change"))) in
  let g := snd (fst (ncntf_stream_allow_events sys g (Some NCNTF_STREAM_BASE)
                       (Some "netconf-capability-change"))) in
  let g := snd (fst (ncntf_stream_allow_events sys g (Some NCNTF_STREAM_BASE)
                       (Some "netconf-session-start"))) in
  let g := snd (fst (ncntf_stream_allow_events sys g (Some NCNTF_STREAM_BASE)
                       (Some "netconf-session-end"))) in
  snd (fst (ncntf_stream_allow_events sys g (Some NCNTF_STREAM_BASE)
              (Some "netconf-confirmed-commit"))).

Definition ncntf_streams_init (sys : system) (io : init_io) (g : globals)
  : Z * globals :=
  if ncntf_config g then (* we are already initialized *) (EXIT_SUCCESS, g) else
  (* check the streams path *)
  let '(r, g) :=
    match streams_path g with
    | None => set_streams_path (in_env io) (in_paths io) g
    | Some _ => (0, g)
    end in
  if negb (r =? 0) then (EXIT_FAILURE, g) else
  (* explore the stream directory *)
  match in_scandir io (printf_s (streams_path g)) with
  | None => (EXIT_FAILURE, g)
  | Some entries =>
      (* keep only regular files that could store the events stream *)
      let filelist := filter_reg_files (map Some entries) in
      (* and open all libnetconf's stream files, from the last to the first *)
      let g := fold_right (load_stream_file sys) g filelist in
      (* dump streams into xml status data *)
      let g := mkGlobals (streams_path g) true (streams g) (dbus g) in
      if ncntf_stream_isavailable g (Some NCNTF_STREAM_BASE) =? 0 then
        (* create default NETCONF stream if does not exist *)
        let g := snd (ncntf_stream_new sys (in_new io) g NCNTF_STREAM_BASE
                                       "NETCONF Base Notifications" 1) in
        (* allow notifications defined in RFC 6470 *)
        let g := allow_base_events sys g in
        (EXIT_SUCCESS, g)
      else (EXIT_SUCCESS, g)
  end.

Definition ncntf_init (sys : system) (io : init_io) (g : globals) : Z * globals :=
  if ncntf_config g then (* we are already initialized *) (EXIT_SUCCESS, g) else
  (* init the mutexes if needed *)
  if negb (in_mutexes io) then (EXIT_FAILURE, g) else
  (* initiate DBus communication *)
  let '(ret, g) := ncntf_dbus_init (in_bus io) g in
  if negb (ret =? 0) then (ret, g) else
  (* initiate streams *)
  let '(ret, g) := ncntf_streams_init sys io g in
  if negb (ret =? 0) then (ret, g) else
  (EXIT_SUCCESS, g).

End Registry.

(** ** The examples of creating streams *)

(** A system where the rules file of every stream is created on the
    descriptor 4 and mapped as a region of 128 NUL bytes. *)
Definition fresh_rules_io : rules_io :=
  mkRulesIo false (Created 4) (-1) (Some (repeat NUL 128)).
Definition fresh_system : system :=
  mkSystem (fun _ _ => "U"%char) (fun _ => None) (fun _ => fresh_rules_io).

(** Answers of a system where every call of [ncntf_stream_new] succeeds, at
    the time 1000. *)
Definition new_ok : new_io := mkNewIo true 1000 header_ok.

(** ** Notions used to state the properties of [ncntf_init] *)

(** An entry that [filter_reg_files] keeps. *)
Definition regular_file (d : dirent) : Prop :=
  d_type d = DT_REG \/ (d_type d = DT_UNKNOWN /\ d_stat d = Some true).

(** The events of RFC 6470 that [ncntf_streams_init] allows in the base
    stream. *)
Definition base_events : list string :=
  ["netconf-config-change"; "netconf-capability-change"; "netconf-session-start";
   "netconf-session-end"; "netconf-confirmed-commit"].

(** The library before [ncntf_init], and the answers of a system where the
    directory "/var/run/netconf_events" exists and holds no file but its
    two links. *)
Definition not_started : globals := mkGlobals None false [] None.
Definition init_ok : init_io :=
  mkInitIo true open_bus None (fun _ => mkPathIo AccessOk true (Some true))
           (fun _ => Some [mkDirent "." DT_other None; mkDirent ".." DT_other None])
           new_ok.

(** The state [g'] has the settings of [g] and streams of all the names that
    [g] has. *)
Definition extends (g g' : globals) : Prop :=
  ncntf_config g' = ncntf_config g
  /\ streams_path g' = streams_path g
  /\ dbus g' = dbus g
  /\ incl (map name (streams g)) (map name (streams g')).

(** The library once initialised with no stream, and the same once the base
    stream "NETCONF" is created in it. *)
Definition no_stream : globals :=
  mkGlobals (Some "/var/run/netconf_events") true [] open_bus.
Definition base_created : globals :=
  snd (ncntf_stream_new fresh_system new_ok no_stream "NETCONF"
                        "NETCONF Base Notifications" 1).

(** A system whose streams directory holds the file of the stream "A", and
    the answers of [ncntf_init] there. *)
Definition system_with_stream : system :=
  mkSystem (fun _ _ => "U"%char)
           (fun p => if String.eqb p "/var/run/netconf_events/A.events"
                     then Some (3, fst (prepare_header new_stream)) else None)
           (fun _ => fresh_rules_io).
Definition init_with_stream : init_io :=
  mkInitIo true open_bus None (fun _ => mkPathIo AccessOk true (Some true))
           (fun _ => Some [mkDirent "." DT_other None; mkDirent ".." DT_other None;
                           mkDirent "A.events" DT_REG None;
                           mkDirent "A.rules" DT_UNKNOWN (Some true)])
           new_ok.

(** ** The examples of live events *)

(** The stream "A" with two Event signals waiting on the connection, of the
    times 50 and 200. *)
Definition live_queue : list dbus_message :=
  [mkMessage "/libnetconf/notifications/stream/A" "libnetconf.notifications.stream"
             "Event" true [DBUS_UINT64 50; DBUS_STRING "<early/>"];
   mkMessage "/libnetconf/notifications/stream/A" "libnetconf.notifications.stream"
             "Event" true [DBUS_UINT64 200; DBUS_STRING "<x/>"]].
Definition live_state : globals :=
  mkGlobals (Some "/var/streams") true [example_stream "A" 1 ("x" ++ LFs)]
            (Some (mkConnection true live_queue [])).

(** ** Notions used to state the properties of lookups *)

(** A rules text written line by line. *)
Definition rules_text (lines : list (list ascii)) : list ascii :=
  List.concat (map (fun line => line ++ [LF]) lines).

(** A line that can stand for an event in the rules: it is not empty and
    holds no newline. *)
Definition rule_line (line : list ascii) : Prop :=
  line <> [] /\ ~ In LF line.

(** ** The type of a notification

    A notification as [ncntf_notif_get_type] reads it: the document
    [notif->doc] (None for NULL), the element [xmlDocGetRootElement]
    returns for it (None for NULL), the name of that element and the names
    of its children in the order of the links [next] (None for a name that
    is NULL). *)

Record xml_element : Type := mkElement {
  elem_name : option string;
  elem_children : list (option string)
}.

Record xml_doc : Type := mkDoc {
  doc_root : option xml_element
}.

Record nc_ntf : Type := mkNtf {
  ntf_doc : option xml_doc
}.

(** [xmlStrcmp(name, str) == 0], for a name that may be NULL. *)
Definition xml_name_is (nm : option string) (str : string) : bool :=
  match nm with
  | None => false
  | Some v => String.eqb v str
  end.

(** The values of the type NCNTF_EVENT that this file returns. *)
Module NtfType.
Inductive NCNTF_EVENT : Type :=
  | NCNTF_ERROR
  | NCNTF_GENERIC
  | NCNTF_REPLAY_COMPLETE
  | NCNTF_NTF_COMPLETE
  | NCNTF_BASE_CFG_CHANGE
  | NCNTF_BASE_CPBLT_CHANGE
  | NCNTF_BASE_SESSION_START
  | NCNTF_BASE_SESSION_END
  | NCNTF_BASE_CONFIRMED_COMMIT.
End NtfType.

Definition ncntf_notif_get_type (notif : option nc_ntf) : NtfType.NCNTF_EVENT :=
  match notif with
  | None => NtfType.NCNTF_ERROR
  | Some ntf =>
      match ntf_doc ntf with
      | None => NtfType.NCNTF_ERROR
      | Some d =>
          match doc_root d with
          | None => (* root element is missing *) NtfType.NCNTF_ERROR
          | Some root =>
              if xml_name_is (elem_name root) "notification" then
                (* use first not eventTime element *)
                match find (fun child =>
                              match child with
                              | None => false
                              | Some nm => negb (String.eqb nm "eventTime")
                              end)
                           (elem_children root) with
                | None => (* missing event description *) NtfType.NCNTF_ERROR
                | Some child =>
                    if xml_name_is child "replayComplete"
                    then NtfType.NCNTF_REPLAY_COMPLETE
                    else if xml_name_is child "notificationComplete"
                    then NtfType.NCNTF_NTF_COMPLETE
                    else if xml_name_is child "netconf-config-change"
                    then NtfType.NCNTF_BASE_CFG_CHANGE
                    else if xml_name_is child "netconf-capability-change"
                    then NtfType.NCNTF_BASE_CPBLT_CHANGE
                    else if xml_name_is child "netconf-session-start"
                    then NtfType.NCNTF_BASE_SESSION_START
                    else if xml_name_is child "netconf-session-end"
                    then NtfType.NCNTF_BASE_SESSION_END
                    else if xml_name_is child "netconf-configrmed-commit"
                    then NtfType.NCNTF_BASE_CONFIRMED_COMMIT
                    else NtfType.NCNTF_GENERIC
                end
              else (* missing <notification> element *) NtfType.NCNTF_ERROR
          end
      end
  end.

(** A notification whose root is [notification], with the children [before],
    all of the name [eventTime] or without a name, and then one child of the
    name [event]. *)
Definition notification_of (before : list (option string)) (event : string)
    (after : list (option string)) : nc_ntf :=
  mkNtf (Some (mkDoc (Some (mkElement (Some "notification")
                                      (before ++ Some event :: after))))).

(** * Properties *)

(** ** Bytes, lists and C strings *)

Lemma Z_of_byte_of_Z (z : Z) : Z_of_byte (byte_of_Z z) = z mod 256.
Proof.
  unfold Z_of_byte, byte_of_Z.
  assert (H : 0 <= z mod 256 < 256) by (apply Z.mod_pos_bound; lia).
  rewrite N_ascii_embedding.
  - rewrite Z2N.id; lia.
  - change 256%N with (Z.to_N 256). apply Z2N.inj_lt; lia.
Qed.

Lemma Z_of_byte_range (a : ascii) : 0 <= Z_of_byte a < 256.
Proof.
  unfold Z_of_byte.
  pose proof (N_ascii_bounded a) as H.
  split; [apply N2Z.is_nonneg | ].
  change 256 with (Z.of_N 256). apply N2Z.inj_lt. exact H.
Qed.

Lemma byte_of_Z_of_byte (a : ascii) : byte_of_Z (Z_of_byte a) = a.
Proof.
  unfold byte_of_Z.
  rewrite Z.mod_small by apply Z_of_byte_range.
  unfold Z_of_byte. rewrite N2Z.id. apply ascii_N_embedding.
Qed.

Lemma le_encode_length (w : nat) (z : Z) : List.length (le_encode w z) = w.
Proof.
  revert z. induction w as [|w IH]; intros z; simpl; [reflexivity | now rewrite IH].
Qed.

Lemma le_decode_encode (w : nat) (z : Z) :
  le_decode (le_encode w z) = z mod 256 ^ Z.of_nat w.
Proof.
  revert z. induction w as [|w IH]; intros z.
  - simpl. now rewrite Z.mod_1_r.
  - cbn [le_encode le_decode]. rewrite IH, Z_of_byte_of_Z.
    rewrite Nat2Z.inj_succ, Z.pow_succ_r by lia.
    rewrite Z.rem_mul_r by (try apply Z.pow_pos_nonneg; lia).
    reflexivity.
Qed.

Lemma le_decode_encode_small (w : nat) (z : Z) :
  0 <= z < 256 ^ Z.of_nat w -> le_decode (le_encode w z) = z.
Proof.
  intros H. rewrite le_decode_encode. now apply Z.mod_small.
Qed.

Lemma firstn_app_exact {A : Type} (l r : list A) :
  firstn (List.length l) (l ++ r) = l.
Proof.
  induction l as [|x l IH]; simpl; [now destruct r | now rewrite IH].
Qed.

Lemma skipn_app_exact {A : Type} (l r : list A) :
  skipn (List.length l) (l ++ r) = r.
Proof.
  induction l as [|x l IH]; simpl; [reflexivity | exact IH].
Qed.

Lemma firstn_app_at {A : Type} (n : nat) (l r : list A) :
  n = List.length l -> firstn n (l ++ r) = l.
Proof. intros ->. apply firstn_app_exact. Qed.

Lemma skipn_app_at {A : Type} (n : nat) (l r : list A) :
  n = List.length l -> skipn n (l ++ r) = r.
Proof. intros ->. apply skipn_app_exact. Qed.

Lemma fill_full (old got : list ascii) :
  (List.length old <= List.length got)%nat -> fill old got = got.
Proof.
  intros H. unfold fill. rewrite skipn_all2 by exact H. apply app_nil_r.
Qed.

Lemma length_list_ascii_of_string (s : string) :
  List.length (list_ascii_of_string s) = String.length s.
Proof. induction s as [|c s IH]; simpl; [reflexivity | now rewrite IH]. Qed.

Lemma c_str_app_nul (l rest : list ascii) :
  no_nul l -> c_str (l ++ NUL :: rest) = l.
Proof.
  induction 1 as [|c l Hc _ IH]; simpl.
  - reflexivity.
  - destruct (Ascii.eqb_spec c NUL) as [E|_]; [contradiction | now rewrite IH].
Qed.

Lemma c_str_no_nul (l : list ascii) : no_nul l -> c_str l = l.
Proof.
  induction 1 as [|c l Hc _ IH]; simpl; [reflexivity | ].
  destruct (Ascii.eqb_spec c NUL) as [E|_]; [contradiction | now rewrite IH].
Qed.

Lemma c_string_c_bytes (s : string) :
  no_nul (list_ascii_of_string s) -> c_string (c_bytes s) = s.
Proof.
  intros H. unfold c_string, c_bytes.
  rewrite c_str_app_nul by exact H. apply string_of_list_ascii_of_string.
Qed.

Lemma list_ascii_eqb_spec (a b : list ascii) :
  list_ascii_eqb a b = true <-> a = b.
Proof.
  revert b. induction a as [|x a IH]; intros [|y b]; simpl; split;
    try reflexivity; try discriminate.
  - intros H. apply andb_true_iff in H as [Hx Hab].
    apply Ascii.eqb_eq in Hx. apply IH in Hab. now subst.
  - intros H. injection H as -> ->. rewrite Ascii.eqb_refl. now apply IH.
Qed.

(** ** The list of streams *)

Lemma update_nth_length {A : Type} (i : nat) (x : A) (l : list A) :
  List.length (update_nth i x l) = List.length l.
Proof.
  revert i. induction l as [|y l IH]; intros [|i]; simpl; try reflexivity.
  now rewrite IH.
Qed.

Lemma nth_error_update_nth_eq {A : Type} (i : nat) (x y : A) (l : list A) :
  nth_error l i = Some y -> nth_error (update_nth i x l) i = Some x.
Proof.
  revert i. induction l as [|z l IH]; intros [|i]; simpl; try discriminate.
  - reflexivity.
  - apply IH.
Qed.

Lemma nth_error_update_nth_neq {A : Type} (i j : nat) (x : A) (l : list A) :
  i <> j -> nth_error (update_nth i x l) j = nth_error l j.
Proof.
  revert i j. induction l as [|z l IH]; intros [|i] [|j] H; simpl;
    try reflexivity; try congruence.
  apply IH. congruence.
Qed.

Lemma update_nth_same {A : Type} (i : nat) (x : A) (l : list A) :
  nth_error l i = Some x -> update_nth i x l = l.
Proof.
  revert i. induction l as [|z l IH]; intros [|i]; simpl; try discriminate.
  - now intros [= ->].
  - intros H. now rewrite IH.
Qed.

Lemma find_stream_nth (ss : list stream) (nm : string) (i : nat) :
  find_stream ss nm = Some i ->
  exists s, nth_error ss i = Some s /\ name s = nm.
Proof.
  revert i. induction ss as [|s ss IH]; intros i; simpl; [discriminate | ].
  destruct (String.eqb_spec (name s) nm) as [E|E].
  - intros [= <-]. now exists s.
  - destruct (find_stream ss nm) as [j|]; [ | discriminate].
    intros [= <-]. destruct (IH j eq_refl) as (s' & H1 & H2). now exists s'.
Qed.

Lemma set_events_same (s : stream) : set_events s (events s) = s.
Proof. now destruct s. Qed.

Lemma put_stream_same (g : globals) (i : nat) (s : stream) :
  nth_error (streams g) i = Some s -> put_stream g i s = g.
Proof.
  intros H. unfold put_stream, set_streams. rewrite update_nth_same by exact H.
  now destruct g.
Qed.

(** ** The iterator: an empty window and live-only iteration *)

Section Iterator.

Variable nc_time2datetime : Z -> option string.

(** C10. A call of [ncntf_stream_iter_next] with both [start] and [stop] set
    and [stop < start] returns NULL at once, whatever the number of passes
    allowed to its loop: the state (the list of streams, every file offset,
    the D-Bus queue), the [replay_done] flag and the object [event_time]
    points to are those it was called with. *)
Theorem iter_next_stop_before_start (fuel : nat) (sys : system) (io : iter_io)
    (g : globals) (replay_done : Z) (stream : option string) (start stop : Z)
    (event_time : option Z) :
  start <> -1 -> stop <> -1 -> stop < start ->
  ncntf_stream_iter_next nc_time2datetime fuel sys io g replay_done stream
                         start stop event_time
  = Some (mkIterResult None g replay_done event_time).
Proof.
  intros Hstart Hstop Hlt. unfold ncntf_stream_iter_next.
  destruct (ncntf_config g); simpl; [ | reflexivity].
  apply Z.eqb_neq in Hstart, Hstop. apply Z.ltb_lt in Hlt.
  now rewrite Hstart, Hstop, Hlt.
Qed.

(** What [dbus_poll] returns is the content of a message of the queue. *)
Lemma dbus_poll_returns_message (config is_open : bool) (queue : list dbus_message)
    (start stop : Z) (text : string) (tm : Z) (left : list dbus_message) :
  dbus_poll config is_open queue start stop = (Some (text, tm), left) ->
  exists m t rest,
    In m queue
    /\ dbus_message_is_signal m NC_NTF_DBUS_INTERFACE "Event" = true
    /\ msg_args m = DBUS_UINT64 t :: DBUS_STRING text :: rest
    /\ tm = to_time_t t.
Proof.
  induction queue as [|m queue IH]; cbn [dbus_poll].
  - destruct config, is_open; discriminate.
  - destruct config; [ | discriminate]. destruct is_open; [ | discriminate].
    cbn [negb].
    destruct (dbus_message_is_signal m NC_NTF_DBUS_INTERFACE "Event") eqn:Esig;
      [ | discriminate].
    assert (Hrec : dbus_poll true true queue start stop = (Some (text, tm), left) ->
                   exists m0 t rest,
                     In m0 (m :: queue)
                     /\ dbus_message_is_signal m0 NC_NTF_DBUS_INTERFACE "Event" = true
                     /\ msg_args m0 = DBUS_UINT64 t :: DBUS_STRING text :: rest
                     /\ tm = to_time_t t).
    { intros H. destruct (IH H) as (m0 & t & rest & Hin & H1 & H2 & H3).
      exists m0, t, rest. repeat split; try assumption. now right. }
    destruct (msg_args m) as [|[t| |] args] eqn:Eargs; try discriminate; try exact Hrec.
    destruct (negb (start =? -1) && (start >? to_time_t t)); [exact Hrec | ].
    destruct (negb (stop =? -1) && (stop <? to_time_t t)); [exact Hrec | ].
    destruct args as [|[| text' |] rest]; try exact Hrec.
    intros [= <- <- <-]. exists m, t, rest. repeat split; try assumption. now left.
Qed.

(** C8. When [start] is not set (-1), a call of [ncntf_stream_iter_next]
    returns after one pass of its loop; once the stream is found the
    [replay_done] flag is 1; no stream changes, so no record is read and no
    file offset moves; and a text returned is the content of an "Event"
    signal that was waiting on D-Bus, never the replayComplete notification
    the function makes itself. *)
Theorem iter_next_live_only (fuel : nat) (sys : system) (io : iter_io)
    (g : globals) (replay_done : Z) (stream : option string) (stop : Z)
    (event_time : option Z) :
  exists res,
    ncntf_stream_iter_next nc_time2datetime (S fuel) sys io g replay_done stream
                           (-1) stop event_time = Some res
    /\ (ncntf_config g = true ->
        fst (ncntf_stream_get sys g stream) <> None ->
        it_replay_done res = 1)
    /\ streams (it_globals res)
       = streams (if ncntf_config g then snd (ncntf_stream_get sys g stream) else g)
    /\ (forall text, it_text res = Some text ->
        exists conn m t rest,
          dbus g = Some conn
          /\ In m (dbus_incoming conn)
          /\ dbus_message_is_signal m NC_NTF_DBUS_INTERFACE "Event" = true
          /\ msg_args m = DBUS_UINT64 t :: DBUS_STRING text :: rest
          /\ it_event_time res = store_time event_time (to_time_t t)).
Proof.
  unfold ncntf_stream_iter_next.
  destruct (ncntf_config g) eqn:Ecfg; cbn [negb].
  2:{ eexists; split; [reflexivity | ]. cbn. repeat split; try discriminate. }
  change (negb (-1 =? -1)) with false. cbn [andb].
  assert (Hdbus : dbus (snd (ncntf_stream_get sys g stream)) = dbus g
                  /\ ncntf_config (snd (ncntf_stream_get sys g stream)) = ncntf_config g).
  { unfold ncntf_stream_get. destruct stream as [nm|]; [ | now split].
    destruct (find_stream (streams g) nm); [now split | ].
    destruct (read_fileheader sys _) as [s|]; [ | now split].
    destruct (map_rules (streams_path g) sys s) as [r s'].
    destruct (r =? 0); now split. }
  destruct (ncntf_stream_get sys g stream) as [[i|] g1] eqn:Eget; cbn [fst snd] in *.
  2:{ eexists; split; [reflexivity | ]. cbn.
      repeat split; try discriminate. intros _ H. now contradiction H. }
  destruct Hdbus as [Hdbus Hcfg1].
  destruct (nth_error (streams g1) i) as [s|] eqn:Enth.
  2:{ eexists; split; [reflexivity | ]. cbn.
      repeat split; try discriminate.
      intros _ _. exfalso.
      unfold ncntf_stream_get in Eget. destruct stream as [nm|]; [ | discriminate].
      destruct (find_stream (streams g) nm) as [j|] eqn:Efind.
      - injection Eget as <- <-.
        destruct (find_stream_nth _ _ _ Efind) as (s' & Hs' & _). congruence.
      - destruct (read_fileheader sys _) as [s0|]; [ | discriminate].
        destruct (map_rules (streams_path g) sys s0) as [r s'].
        destruct (r =? 0); [ | discriminate].
        injection Eget as <- <-. discriminate. }
  change (-1 =? -1) with true. cbn iota.
  cbn [iter_loop]. change (1 =? 0) with false. cbn [andb negb].
  rewrite set_events_same.
  destruct (dbus g1) as [conn|] eqn:Econn.
  2:{ eexists; split; [reflexivity | ]. cbn [it_replay_done it_globals it_text].
      rewrite put_stream_same by exact Enth.
      repeat split; try reflexivity. discriminate. }
  destruct (dbus_poll (ncntf_config g1) (dbus_is_open conn) (dbus_incoming conn) (-1) stop)
    as [[[text tm]|] queue] eqn:Epoll.
  - eexists; split; [reflexivity | ]. cbn [it_replay_done it_globals it_text it_event_time].
    repeat split; try reflexivity.
    + unfold put_stream, set_streams, set_dbus. cbn [streams].
      now rewrite update_nth_same.
    + intros text' [= <-].
      destruct (dbus_poll_returns_message _ _ _ _ _ _ _ _ Epoll)
        as (m & t & rest & Hin & Hsig & Hargs & ->).
      exists conn, m, t, rest. rewrite <- Hdbus. now repeat split.
  - eexists; split; [reflexivity | ]. cbn [it_replay_done it_globals it_text it_event_time].
    repeat split; try reflexivity.
    + unfold put_stream, set_streams, set_dbus. cbn [streams].
      now rewrite update_nth_same.
    + discriminate.
Qed.

End Iterator.

(** C10 at an example: the stream "A" asked from time 200 to time 100. *)
Lemma iter_next_stop_before_start_witness :
  200 <> -1 /\ 100 <> -1 /\ 100 < 200
  /\ ncntf_stream_iter_next iso8601 0 bare_system (iter_ok 5000) one_stream 0
                            (Some "A") 200 100 (Some 0)
     = Some (mkIterResult None one_stream 0 (Some 0)).
Proof.
  split; [lia | split; [lia | split; [lia | ]]].
  apply (iter_next_stop_before_start iso8601 0 bare_system (iter_ok 5000)
           one_stream 0 (Some "A") 200 100 (Some 0)); lia.
Defined.

(** ** The subscription validator *)

Section Validator.

Variable NCNTF_STREAM_DEFAULT : string.
Variable nc_datetime2time : string -> Z.

(** C9. For a request that [ncntf_subscription_get_params] reads without
    error and whose stream exists, the validator follows the time rules in
    the order they are listed, which is the order of the tests in the code,
    and the first one that applies gives the reply:
    missing-element(startTime) when stopTime is set without startTime;
    bad-element(stopTime) when both are set and startTime is after
    stopTime; bad-element(startTime) when startTime is set and lies in the
    future (and the rule before has not applied); ok when none of the three
    applies. *)
Theorem subscription_check_times (sys : system) (now : Z) (g g' : globals)
    (rpc : nc_rpc) (stream : string) (start stop : Z) (i : nat) :
  ncntf_subscription_get_params NCNTF_STREAM_DEFAULT nc_datetime2time (Some rpc)
  = (0, stream, start, stop) ->
  ncntf_stream_get sys g (Some stream) = (Some i, g') ->
  let reply :=
    fst (ncntf_subscription_check NCNTF_STREAM_DEFAULT nc_datetime2time sys now g
                                  (Some rpc)) in
  (stop <> -1 /\ start = -1 ->
   reply = nc_reply_error (protocol_error NC_ERR_MISSING_ELEM "startTime"))
  /\ (stop <> -1 /\ start <> -1 /\ start > stop ->
      reply = nc_reply_error (protocol_error NC_ERR_BAD_ELEM "stopTime"))
  /\ (start <> -1 /\ start > now /\ ~ (stop <> -1 /\ start > stop) ->
      reply = nc_reply_error (protocol_error NC_ERR_BAD_ELEM "startTime"))
  /\ (~ (stop <> -1 /\ start = -1)
      /\ ~ (stop <> -1 /\ start <> -1 /\ start > stop)
      /\ ~ (start <> -1 /\ start > now) ->
      reply = nc_reply_ok).
Proof.
  intros Hparams Hget reply. subst reply.
  assert (Hop : rpc_is_create_subscription rpc = true).
  { unfold ncntf_subscription_get_params in Hparams.
    destruct (rpc_is_create_subscription rpc); [reflexivity | discriminate]. }
  unfold ncntf_subscription_check. rewrite Hop. cbn [negb].
  rewrite Hparams. change (0 =? 0) with true. cbn iota. rewrite Hget.
  destruct (Z.eqb_spec stop (-1)) as [Estop|Estop];
    destruct (Z.eqb_spec start (-1)) as [Estart|Estart]; cbn [negb andb fst];
    repeat split; intros H; try reflexivity; try (exfalso; tauto).
  all: try (destruct H as (_ & H & _); lia).
  all: unfold Z.gtb; repeat
         match goal with
         | |- context [?a ?= ?b] => destruct (Z.compare_spec a b)
         end; cbn [fst]; try reflexivity; exfalso; try tauto; try lia.
Qed.

End Validator.

(** C9 at an example: the stream "A" asked from time 1000 to time 2000, at
    time 5000. *)
Lemma subscription_check_times_witness :
  ncntf_subscription_get_params "NETCONF" example_datetime2time (Some example_request)
  = (0, "A", 1000, 2000)
  /\ ncntf_stream_get bare_system one_stream (Some "A") = (Some O, one_stream)
  /\ fst (ncntf_subscription_check "NETCONF" example_datetime2time bare_system 5000
            one_stream (Some example_request))
     = nc_reply_ok.
Proof.
  split; [reflexivity | split; [reflexivity | ]].
  apply (subscription_check_times "NETCONF" example_datetime2time bare_system 5000
           one_stream one_stream example_request "A" 1000 2000 O eq_refl eq_refl).
  repeat split; intros H; lia.
Defined.

(** A request whose startTime (2000) is both after its stopTime (1500) and
    in the future (the time is 1000) meets two of the rules: the reply is
    that of the one listed first, and names stopTime. *)
Example subscription_check_first_fault :
  fst (ncntf_subscription_check "NETCONF" example_datetime2time bare_system 1000
         one_stream (Some backwards_request))
  = nc_reply_error (protocol_error NC_ERR_BAD_ELEM "stopTime").
Proof. reflexivity. Qed.

(** ** The publisher *)

Lemma find_stream_listed (ss : list stream) (k : nat) (s : stream) :
  nth_error ss k = Some s -> exists i, find_stream ss (name s) = Some i.
Proof.
  revert k. induction ss as [|s0 ss IH]; intros [|k]; simpl; try discriminate.
  - intros [= ->]. rewrite String.eqb_refl. now exists O.
  - intros H. destruct (String.eqb (name s0) (name s)); [now exists O | ].
    destruct (IH k H) as [i ->]. now exists (S i).
Qed.

Lemma isallowed_listed (sys : system) (g : globals) (nm ename : string) (i : nat) :
  find_stream (streams g) nm = Some i ->
  ncntf_event_isallowed sys g (Some nm) (Some ename)
  = ((if allowed_in (streams g) nm ename then 1 else 0), g).
Proof.
  intros Hfind. unfold ncntf_event_isallowed, ncntf_stream_get, allowed_in.
  rewrite Hfind. destruct (find_stream_nth _ _ _ Hfind) as (s & -> & _).
  now destruct (existsb _ _).
Qed.

Lemma same_rules_refl (ss : list stream) : same_rules ss ss.
Proof. induction ss; constructor; auto. Qed.

Lemma same_rules_find (ss ss' : list stream) (nm : string) :
  same_rules ss ss' -> find_stream ss nm = find_stream ss' nm.
Proof.
  induction 1 as [|a b ss ss' [Hn _] _ IH]; simpl; [reflexivity | ].
  now rewrite Hn, IH.
Qed.

Lemma same_rules_nth (ss ss' : list stream) (i : nat) :
  same_rules ss ss' ->
  option_map rules (nth_error ss i) = option_map rules (nth_error ss' i).
Proof.
  intros H. revert i. induction H as [|a b ss ss' [_ Hr] _ IH]; intros [|i]; simpl;
    try reflexivity.
  - now rewrite Hr.
  - apply IH.
Qed.

Lemma allowed_in_same_rules (ss ss' : list stream) (nm ename : string) :
  same_rules ss ss' -> allowed_in ss nm ename = allowed_in ss' nm ename.
Proof.
  intros H. unfold allowed_in. rewrite (same_rules_find _ _ nm H).
  destruct (find_stream ss' nm) as [i|]; [ | reflexivity].
  pose proof (same_rules_nth _ _ i H) as Hr.
  destruct (nth_error ss i), (nth_error ss' i); simpl in Hr; try discriminate;
    [ | reflexivity].
  injection Hr as ->. reflexivity.
Qed.

(** In a list where no two streams have the same name, which the functions
    that put a stream in the list keep so, the pointer [ncntf_stream_get]
    returns for the name of a stream is that stream, and the stream admits
    an event when its own rules hold the line. *)
Lemma find_stream_unique (ss : list stream) (k : nat) (s : stream) :
  NoDup (map name ss) -> nth_error ss k = Some s ->
  find_stream ss (name s) = Some k.
Proof.
  revert k. induction ss as [|s0 ss IH]; intros [|k] Hnd; simpl; try discriminate.
  - intros [= ->]. now rewrite String.eqb_refl.
  - intros Hk. inversion Hnd as [|? ? Hnotin Hnd']; subst.
    destruct (String.eqb_spec (name s0) (name s)) as [E|_].
    + exfalso. apply Hnotin. rewrite E. apply in_map.
      now apply nth_error_In with k.
    + now rewrite (IH k Hnd' Hk).
Qed.

Lemma admits_own_rules (g : globals) (ename : string) (k : nat) (s : stream) :
  NoDup (map name (streams g)) -> nth_error (streams g) k = Some s ->
  admits g ename s
  = existsb (fun token => list_ascii_eqb (list_ascii_of_string ename) token)
            (strtok_tokens LF (c_str (rules s))).
Proof.
  intros Hnd Hk. unfold admits, allowed_in.
  now rewrite (find_stream_unique _ k s Hnd Hk), Hk.
Qed.

Lemma same_rules_app_mid (pre rest ss0 : list stream) (s s' : stream) :
  name s' = name s -> rules s' = rules s ->
  same_rules (pre ++ s :: rest) ss0 -> same_rules (pre ++ s' :: rest) ss0.
Proof.
  intros Hn Hr. revert ss0. induction pre as [|p pre IH]; intros ss0 H; simpl in *.
  - inversion H as [|a b l l' [H1 H2] Hrest]; subst. constructor; [ | exact Hrest].
    split; congruence.
  - inversion H as [|a b l l' Hab Hrest]; subst. constructor; [exact Hab | ].
    now apply IH.
Qed.

Lemma update_nth_app {A : Type} (pre rest : list A) (x y : A) :
  update_nth (List.length pre) x (pre ++ y :: rest) = pre ++ x :: rest.
Proof. induction pre as [|p pre IH]; simpl; [reflexivity | now rewrite IH]. Qed.

Lemma lock_name_rules (b : bool) (s : stream) :
  name (snd (ncntf_stream_lock b s)) = name s
  /\ rules (snd (ncntf_stream_lock b s)) = rules s
  /\ replay (snd (ncntf_stream_lock b s)) = replay s.
Proof. unfold ncntf_stream_lock. now destruct b. Qed.

Lemma unlock_name_rules (b : bool) (s : stream) :
  name (snd (ncntf_stream_unlock b s)) = name s
  /\ rules (snd (ncntf_stream_unlock b s)) = rules s
  /\ replay (snd (ncntf_stream_unlock b s)) = replay s.
Proof. unfold ncntf_stream_unlock. destruct (locked s =? 0); [easy | now destruct b]. Qed.

Lemma append_event_name_rules (io : append_io) (len etime64 : Z) (record : string)
    (s : stream) :
  name (append_event io len etime64 record s) = name s
  /\ rules (append_event io len etime64 record s) = rules s.
Proof.
  unfold append_event.
  pose proof (lock_name_rules (ap_lockf io) s) as (Hn & Hr & _).
  destruct (ncntf_stream_lock (ap_lockf io) s) as [r s1]. cbn [snd] in *.
  destruct (r =? 0); [ | now split].
  destruct (lseek_end (events s1) 0) as [offset f0].
  destruct (write_loop (ap_len io) f0 _) as [r1 f1].
  destruct (if r1 =? -1 then _ else _) as [r2 f2].
  destruct (if r2 =? -1 then _ else _) as [r3 f3].
  match goal with
  | |- context [ncntf_stream_unlock ?b ?x] =>
      pose proof (unlock_name_rules b x) as (Hn' & Hr' & _)
  end.
  rewrite Hn', Hr'. now split.
Qed.

Lemma set_streams_same (g : globals) : set_streams g (streams g) = g.
Proof. now destruct g. Qed.

Section Publisher.

Variable nc_time2datetime : Z -> option string.
Variable xml_root_name : string -> option string.
Variable nc_session_term_string : NC_SESSION_TERM_REASON -> string.

Variable sys : system.
Variable io : publish_io.
Variables len etime64 : Z.
Variables record ename : string.

(** The first loop: each stream becomes what [stored] makes of it, and
    nothing else of the state changes. *)
Lemma store_event_eq (ss0 rest pre : list stream) (g : globals) :
  streams g = pre ++ rest ->
  same_rules (streams g) ss0 ->
  store_event sys io len etime64 record ename g (List.length pre) rest
  = set_streams g
      (pre ++ mapi_from (stored io len etime64 record
                                (fun s => allowed_in ss0 (name s) ename))
                        (List.length pre) rest).
Proof.
  revert pre g. induction rest as [|s rest IH]; intros pre g Hg Hsame.
  - cbn [store_event mapi_from]. rewrite <- Hg. symmetry. apply set_streams_same.
  - cbn [store_event mapi_from].
    set (F := fun s0 : stream => allowed_in ss0 (name s0) ename).
    assert (Hst : stored io len etime64 record F (List.length pre) s
                  = if replay s =? 0 then s
                    else if allowed_in ss0 (name s) ename
                         then append_event (pub_append io (List.length pre))
                                           len etime64 record s
                         else s) by reflexivity.
    rewrite Hst. clear Hst.
    assert (Hk : nth_error (streams g) (List.length pre) = Some s).
    { rewrite Hg, nth_error_app2, Nat.sub_diag by lia. reflexivity. }
    destruct (find_stream_listed _ _ _ Hk) as [i Hi].
    rewrite (isallowed_listed sys g (name s) ename i Hi).
    rewrite (allowed_in_same_rules _ _ (name s) ename Hsame).
    assert (Hlen : S (List.length pre) = List.length (pre ++ [s])).
    { rewrite length_app. simpl. lia. }
    destruct (replay s =? 0).
    + rewrite Hlen, (IH (pre ++ [s]) g); rewrite <- ?app_assoc; try assumption.
      reflexivity.
    + destruct (allowed_in ss0 (name s) ename); cbn [negb Z.eqb].
      * change (negb (1 =? 0)) with true. cbn iota.
        set (s' := append_event (pub_append io (List.length pre)) len etime64 record s).
        destruct (append_event_name_rules (pub_append io (List.length pre))
                    len etime64 record s) as [Hn Hr]. fold s' in Hn, Hr.
        assert (Hg' : streams (put_stream g (List.length pre) s') = (pre ++ [s']) ++ rest).
        { unfold put_stream, set_streams. cbn [streams].
          rewrite Hg, update_nth_app, <- app_assoc. reflexivity. }
        replace (S (List.length pre)) with (List.length (pre ++ [s']))
          by (rewrite length_app; simpl; lia).
        rewrite (IH (pre ++ [s']) _ Hg').
        -- rewrite <- app_assoc. unfold put_stream, set_streams. reflexivity.
        -- rewrite Hg', <- app_assoc. cbn [app].
           apply (same_rules_app_mid pre rest ss0 s s' Hn Hr). now rewrite <- Hg.
      * change (negb (0 =? 0)) with false. cbn iota.
        rewrite Hlen, (IH (pre ++ [s]) g); rewrite <- ?app_assoc; try assumption.
        reflexivity.
Qed.

(** The second loop: the signals sent are those of [signals], and the state
    does not change. *)
Lemma announce_event_eq (rest pre : list stream) (g : globals)
    (conn : dbus_connection) :
  streams g = pre ++ rest ->
  announce_event sys io etime64 record ename g conn (List.length pre) rest
  = (g, mkConnection (dbus_is_open conn) (dbus_incoming conn)
          (dbus_sent conn
           ++ signals io etime64 record (admits g ename) (List.length pre) rest)).
Proof.
  revert pre conn. induction rest as [|s rest IH]; intros pre conn Hg.
  - cbn [announce_event signals]. rewrite app_nil_r. now destruct conn.
  - cbn [announce_event signals].
    assert (Hk : nth_error (streams g) (List.length pre) = Some s).
    { rewrite Hg, nth_error_app2, Nat.sub_diag by lia. reflexivity. }
    destruct (find_stream_listed _ _ _ Hk) as [i Hi].
    rewrite (isallowed_listed sys g (name s) ename i Hi).
    assert (Hg' : streams g = (pre ++ [s]) ++ rest) by now rewrite <- app_assoc.
    assert (Hlen : S (List.length pre) = List.length (pre ++ [s])).
    { rewrite length_app. simpl. lia. }
    unfold admits at 1. destruct (allowed_in (streams g) (name s) ename).
    + change (1 =? 0) with false. cbn iota.
      destruct (pub_signal io (List.length pre)); cbn [negb].
      * rewrite Hlen, (IH (pre ++ [s]) _ Hg'). cbn [dbus_is_open dbus_incoming dbus_sent].
        now rewrite <- app_assoc.
      * rewrite app_nil_r. now destruct conn.
    + change (0 =? 0) with true. cbn iota.
      now rewrite Hlen, (IH (pre ++ [s]) _ Hg').
Qed.

End Publisher.

(** *** The calls on files *)

Lemma lseek_set_nat (f : file) (n : nat) :
  lseek_set f (Z.of_nat n) = (Z.of_nat n, mkFile (f_data f) n).
Proof.
  unfold lseek_set. destruct (Z.ltb_spec (Z.of_nat n) 0) as [H|_]; [lia | ].
  now rewrite Nat2Z.id.
Qed.

Lemma lseek_cur_0 (f : file) : lseek_cur f 0 = (Z.of_nat (f_pos f), f).
Proof.
  unfold lseek_cur. rewrite Z.add_0_r, lseek_set_nat. now destruct f.
Qed.

Lemma lseek_end_0 (f : file) : lseek_end f 0 = (f_size f, at_end (f_data f)).
Proof.
  unfold lseek_end, f_size. now rewrite Z.add_0_r, lseek_set_nat.
Qed.

Lemma lseek_there_and_back (f : file) :
  snd (lseek_set (snd (lseek_set f 0)) (Z.of_nat (f_pos f))) = f.
Proof.
  change (lseek_set f 0) with (lseek_set f (Z.of_nat O)).
  rewrite !lseek_set_nat. cbn [snd f_data]. now destruct f.
Qed.

Lemma ncntf_stream_lock_eq (b : bool) (s : stream) :
  ncntf_stream_lock b s
  = if b then (EXIT_SUCCESS, set_locked s 1) else (EXIT_FAILURE, s).
Proof.
  unfold ncntf_stream_lock. rewrite lseek_cur_0. cbn [fst].
  rewrite lseek_there_and_back, set_events_same. now destruct b.
Qed.

Lemma ncntf_stream_unlock_eq (b : bool) (s : stream) :
  ncntf_stream_unlock b s
  = if locked s =? 0 then (EXIT_SUCCESS, s)
    else if b then (EXIT_SUCCESS, set_locked s 0) else (EXIT_FAILURE, s).
Proof.
  unfold ncntf_stream_unlock. destruct (locked s =? 0); [reflexivity | ].
  rewrite lseek_cur_0. cbn [fst].
  rewrite lseek_there_and_back, set_events_same. now destruct b.
Qed.

Lemma unlock_events (b : bool) (s : stream) :
  events (snd (ncntf_stream_unlock b s)) = events s.
Proof.
  rewrite ncntf_stream_unlock_eq. destruct (locked s =? 0); [reflexivity | now destruct b].
Qed.

Lemma pwrite_at_end (d buf : list ascii) : pwrite (at_end d) buf = at_end (d ++ buf).
Proof.
  unfold pwrite, at_end. cbn [f_data f_pos].
  rewrite firstn_all, Nat.sub_diag, skipn_all2 by lia. cbn [repeat].
  rewrite !app_nil_r, length_app. reflexivity.
Qed.

Lemma write_retry_once (k : nat) (e : write_end) (f : file) (buf : list ascii) :
  write_retry k e f buf = write_retry O e f buf.
Proof. induction k as [|k IH]; [reflexivity | exact IH]. Qed.

(** A write loop at the end of a file either fails and leaves the file, or
    adds some first bytes of the buffer. *)
Lemma write_loop_at_end (w : write_io) (d buf : list ascii) :
  (wr_end w = WriteError /\ write_loop w (at_end d) buf = (-1, at_end d))
  \/ (wr_end w <> WriteError
      /\ exists out, write_loop w (at_end d) buf
                     = (Z.of_nat (List.length out), at_end (d ++ out))
                     /\ (wr_end w = WriteAll -> out = buf)).
Proof.
  unfold write_loop. rewrite write_retry_once. cbn [write_retry].
  destruct (wr_end w) as [| |n].
  - left. now split.
  - right. split; [discriminate | ]. exists buf. now rewrite pwrite_at_end.
  - right. split; [discriminate | ]. exists (firstn n buf).
    rewrite pwrite_at_end. split; [reflexivity | discriminate].
Qed.

Lemma truncate_back (d extra : list ascii) :
  snd (lseek_set (truncate (at_end (d ++ extra)) (Z.of_nat (List.length d)))
                 (Z.of_nat (List.length d)))
  = at_end d.
Proof.
  rewrite lseek_set_nat. unfold truncate, at_end. cbn [snd f_data f_pos].
  rewrite Nat2Z.id, firstn_app_exact.
  replace (List.length d - List.length (d ++ extra))%nat with O
    by (rewrite length_app; lia).
  cbn [repeat]. now rewrite app_nil_r.
Qed.

Lemma of_nat_not_minus_one (n : nat) : (Z.of_nat n =? -1) = false.
Proof. apply Z.eqb_neq. lia. Qed.

(** *** One append *)

(** When the file cannot be locked the stream is left as it is. *)
Lemma append_event_not_locked (a : append_io) (len etime64 : Z) (record : string)
    (s : stream) :
  ap_lockf a = false -> append_event a len etime64 record s = s.
Proof.
  intros H. unfold append_event. rewrite ncntf_stream_lock_eq, H. reflexivity.
Qed.

(** When the three writes transfer all their bytes the file gains the
    record. *)
Lemma append_event_complete (a : append_io) (len etime64 : Z) (record : string)
    (s : stream) :
  append_complete a ->
  events (append_event a len etime64 record s)
  = at_end (f_data (events s) ++ record_bytes len etime64 record).
Proof.
  intros (Hlock & H1 & H2 & H3). unfold append_event, record_bytes.
  rewrite ncntf_stream_lock_eq, Hlock. change (EXIT_SUCCESS =? 0) with true. cbn iota.
  cbn [events set_locked]. rewrite lseek_end_0.
  destruct (write_loop_at_end (ap_len a) (f_data (events s)) (le_encode 4 len))
    as [[E _]|(_ & out1 & -> & Ho1)]; [congruence | ].
  rewrite (Ho1 H1), of_nat_not_minus_one.
  destruct (write_loop_at_end (ap_time a) (f_data (events s) ++ le_encode 4 len)
              (le_encode 8 etime64))
    as [[E _]|(_ & out2 & -> & Ho2)]; [congruence | ].
  rewrite (Ho2 H2), of_nat_not_minus_one.
  destruct (write_loop_at_end (ap_record a)
              ((f_data (events s) ++ le_encode 4 len) ++ le_encode 8 etime64)
              (firstn (Z.to_nat len) (c_bytes record)))
    as [[E _]|(_ & out3 & -> & Ho3)]; [congruence | ].
  rewrite (Ho3 H3), of_nat_not_minus_one.
  rewrite unlock_events. cbn [events set_events]. now rewrite <- !app_assoc.
Qed.

(** When one of the three writes fails and the file is truncated back, the
    contents of the file are those before the append. *)
Lemma append_event_reverted (a : append_io) (len etime64 : Z) (record : string)
    (s : stream) :
  append_write_fails a -> ap_ftruncate a = true ->
  f_data (events (append_event a len etime64 record s)) = f_data (events s).
Proof.
  intros Hfail Htrunc. unfold append_event.
  rewrite ncntf_stream_lock_eq. destruct (ap_lockf a); [ | reflexivity].
  change (EXIT_SUCCESS =? 0) with true. cbn iota.
  cbn [events set_locked]. rewrite lseek_end_0. unfold f_size.
  set (d := f_data (events s)).
  assert (Hrevert : forall extra,
            f_data (events (snd (ncntf_stream_unlock (ap_ulockf a)
              (set_events (set_locked s 1)
                 (snd (lseek_set (truncate (at_end (d ++ extra))
                                           (Z.of_nat (List.length d)))
                                 (Z.of_nat (List.length d)))))))) = d).
  { intros extra. now rewrite unlock_events, truncate_back. }
  destruct (write_loop_at_end (ap_len a) d (le_encode 4 len))
    as [[E1 ->]|(N1 & out1 & -> & _)].
  { change (-1 =? -1) with true. cbn iota. rewrite Htrunc.
    rewrite <- (app_nil_r d) at 1. apply Hrevert. }
  rewrite of_nat_not_minus_one.
  destruct (write_loop_at_end (ap_time a) (d ++ out1) (le_encode 8 etime64))
    as [[E2 ->]|(N2 & out2 & -> & _)].
  { change (-1 =? -1) with true. cbn iota. rewrite Htrunc. apply Hrevert. }
  rewrite of_nat_not_minus_one.
  destruct (write_loop_at_end (ap_record a) ((d ++ out1) ++ out2)
              (firstn (Z.to_nat len) (c_bytes record)))
    as [[E3 ->]|(N3 & out3 & -> & _)].
  { change (-1 =? -1) with true. cbn iota. rewrite Htrunc.
    rewrite <- app_assoc. apply Hrevert. }
  exfalso. destruct Hfail as [H|[H|H]]; contradiction.
Qed.

(** *** The whole call *)

Lemma nth_error_mapi_from {A B : Type} (f : nat -> A -> B) (k0 k : nat) (l : list A) :
  nth_error (mapi_from f k0 l) k = option_map (f (k0 + k)%nat) (nth_error l k).
Proof.
  revert k0 k. induction l as [|x l IH]; intros k0 [|k]; simpl; try reflexivity.
  - now rewrite Nat.add_0_r.
  - rewrite IH. now replace (S k0 + k)%nat with (k0 + S k)%nat by lia.
Qed.

Lemma same_rules_stored (io : publish_io) (len etime64 : Z) (record : string)
    (adm : stream -> bool) (k0 : nat) (ss : list stream) :
  same_rules (mapi_from (stored io len etime64 record adm) k0 ss) ss.
Proof.
  revert k0. induction ss as [|s ss IH]; intros k0; simpl; constructor; [ | apply IH].
  unfold stored. destruct (replay s =? 0); [now split | ].
  destruct (adm s); [ | now split].
  apply append_event_name_rules.
Qed.

Lemma signals_same_rules (io : publish_io) (etime64 : Z) (record : string)
    (adm adm' : stream -> bool) (ss ss' : list stream) (k0 : nat) :
  same_rules ss ss' ->
  (forall a b, name a = name b -> adm a = adm' b) ->
  signals io etime64 record adm k0 ss = signals io etime64 record adm' k0 ss'.
Proof.
  intros H Hadm. revert k0. induction H as [|a b ss ss' [Hn _] _ IH]; intros k0; simpl;
    [reflexivity | ].
  rewrite (Hadm a b Hn), IH. unfold event_signal. now rewrite Hn.
Qed.

Section PublisherCall.

Variable nc_time2datetime : Z -> option string.
Variable xml_root_name : string -> option string.
Variable nc_session_term_string : NC_SESSION_TERM_REASON -> string.

(** [ncntf_event_new] fails before its loops and leaves the state, or runs
    them and returns EXIT_SUCCESS. *)
Lemma ncntf_event_new_eq (sys : system) (io : publish_io) (g : globals) (etime : Z)
    (event : event_params) :
  ncntf_event_new nc_time2datetime xml_root_name nc_session_term_string
                  sys io g etime event
  = match prepare_event nc_time2datetime xml_root_name nc_session_term_string
                        io g etime event with
    | None => (EXIT_FAILURE, g)
    | Some (len, etime64, record, ename) =>
        (EXIT_SUCCESS, published io len etime64 record ename g)
    end.
Proof.
  unfold ncntf_event_new, prepare_event.
  destruct (negb (ncntf_config g)); [reflexivity | ].
  destruct (event_content nc_session_term_string event) as [content|]; [ | reflexivity].
  destruct ((if etime =? -1 then pub_time io else etime) =? -1); [reflexivity | ].
  destruct (nc_time2datetime _) as [event_time|]; [ | reflexivity].
  destruct (xml_root_name content) as [ename|]; [ | reflexivity].
  destruct (to_int32 (strlen (event_record event_time content)) =? -1); [reflexivity | ].
  set (len := to_int32 (to_int32 (strlen (event_record event_time content)) + 1)).
  set (etime64 := to_uint64 (if etime =? -1 then pub_time io else etime)).
  set (record := event_record event_time content).
  f_equal.
  pose proof (store_event_eq sys io len etime64 record ename (streams g) (streams g)
                [] g eq_refl (same_rules_refl _)) as Hstore.
  cbn [List.length app] in Hstore. rewrite Hstore.
  fold (admits g ename).
  set (ss' := mapi_from (stored io len etime64 record (admits g ename)) O (streams g)).
  unfold published. fold ss'.
  cbn [dbus set_streams]. destruct (dbus g) as [conn|] eqn:Econn.
  2:{ unfold set_streams. now rewrite Econn. }
  pose proof (announce_event_eq sys io etime64 record ename ss' [] (set_streams g ss')
                conn eq_refl) as Hann.
  cbn [List.length] in Hann. change (streams (set_streams g ss')) with ss'.
  rewrite Hann.
  unfold set_dbus. cbn [streams_path ncntf_config streams set_streams].
  do 4 f_equal.
  apply signals_same_rules.
  - apply same_rules_stored.
  - intros a b Hn. unfold admits. cbn [streams set_streams]. rewrite Hn.
    apply allowed_in_same_rules, same_rules_stored.
Qed.

End PublisherCall.

Lemma signals_all_sent (io : publish_io) (etime64 : Z) (record : string)
    (adm : stream -> bool) (k0 : nat) (ss : list stream) :
  (forall k, pub_signal io k = true) ->
  signals io etime64 record adm k0 ss
  = map (fun s => event_signal s etime64 record) (filter adm ss).
Proof.
  intros Hok. revert k0. induction ss as [|s ss IH]; intros k0; simpl; [reflexivity | ].
  destruct (adm s); [ | apply IH]. rewrite Hok. simpl. now rewrite IH.
Qed.

Lemma signals_admitted (io : publish_io) (etime64 : Z) (record : string)
    (adm : stream -> bool) (k0 : nat) (ss : list stream) (m : dbus_message) :
  In m (signals io etime64 record adm k0 ss) ->
  exists s, In s ss /\ adm s = true /\ m = event_signal s etime64 record.
Proof.
  revert k0. induction ss as [|s ss IH]; intros k0; simpl; [contradiction | ].
  destruct (adm s) eqn:Es.
  - destruct (pub_signal io k0); [ | contradiction].
    intros [<-|H].
    + exists s. auto.
    + destruct (IH _ H) as (s' & H1 & H2 & H3). exists s'. auto.
  - intros H. destruct (IH _ H) as (s' & H1 & H2 & H3). exists s'. auto.
Qed.

Lemma signals_times (io : publish_io) (etime64 : Z) (record : string)
    (adm : stream -> bool) (k0 : nat) (ss : list stream) :
  Forall (eq (DBUS_UINT64 etime64))
         (map (fun m => hd DBUS_OTHER (msg_args m))
              (signals io etime64 record adm k0 ss)).
Proof.
  revert k0. induction ss as [|s ss IH]; intros k0; simpl; [constructor | ].
  destruct (adm s); [ | apply IH].
  destruct (pub_signal io k0); [ | constructor].
  simpl. constructor; [reflexivity | apply IH].
Qed.

Section PublisherClaims.

Variable nc_time2datetime : Z -> option string.
Variable xml_root_name : string -> option string.
Variable nc_session_term_string : NC_SESSION_TERM_REASON -> string.

(** C2, as the code has it. A call of [ncntf_event_new] that stops before
    its loops returns EXIT_FAILURE and leaves the state; a call that reaches
    them returns EXIT_SUCCESS when every targeted stream took the append,
    whatever the answers of D-Bus are: a signal that cannot be sent ends the
    second loop and the value returned stays EXIT_SUCCESS. *)
Theorem publish_result (sys : system) (io : publish_io) (g : globals) (etime : Z)
    (event : event_params) :
  (prepare_event nc_time2datetime xml_root_name nc_session_term_string
                 io g etime event = None ->
   ncntf_event_new nc_time2datetime xml_root_name nc_session_term_string
                   sys io g etime event = (EXIT_FAILURE, g))
  /\ (forall len etime64 record ename,
        prepare_event nc_time2datetime xml_root_name nc_session_term_string
                      io g etime event = Some (len, etime64, record, ename) ->
        (forall k s, nth_error (streams g) k = Some s -> targeted g ename s ->
                     append_accepted (pub_append io k)) ->
        fst (ncntf_event_new nc_time2datetime xml_root_name nc_session_term_string
                             sys io g etime event) = EXIT_SUCCESS).
Proof.
  split.
  - intros H. now rewrite ncntf_event_new_eq, H.
  - intros len etime64 record ename H _. now rewrite ncntf_event_new_eq, H.
Qed.

(** C3, as the code has it. If one of the three writes of a record to the
    file of a stream fails during a call of [ncntf_event_new], the code
    calls [ftruncate] with the offset the file ended at before the append;
    when that [ftruncate] succeeds, the contents of the file after the call
    are its contents before the call. *)
Theorem publish_failed_append_reverted (sys : system) (io : publish_io)
    (g : globals) (etime : Z) (event : event_params) (k : nat) (s : stream) :
  nth_error (streams g) k = Some s ->
  append_write_fails (pub_append io k) ->
  ap_ftruncate (pub_append io k) = true ->
  exists s',
    nth_error (streams (snd (ncntf_event_new nc_time2datetime xml_root_name
                               nc_session_term_string sys io g etime event))) k
    = Some s'
    /\ f_data (events s') = f_data (events s).
Proof.
  intros Hk Hfail Htrunc. rewrite ncntf_event_new_eq.
  destruct (prepare_event _ _ _ io g etime event) as [[[[len etime64] record] ename]|].
  - cbn [snd published streams]. rewrite nth_error_mapi_from, Hk. cbn [option_map Nat.add].
    eexists; split; [reflexivity | ].
    unfold stored. destruct (replay s =? 0); [reflexivity | ].
    destruct (admits g ename s); [ | reflexivity].
    now apply append_event_reverted.
  - exists s. now split.
Qed.

(** C5, as the code has it. The time recorded by a call of
    [ncntf_event_new] that succeeds is [etime] converted to [uint64_t] when
    [etime] is not -1, and the time of the clock when it is -1: every signal
    the call sends carries it, and a stream file that the call changes,
    with writes that transfer all their bytes, gains a record that holds it
    after the four bytes of its length. For [etime] from 0 on the time
    recorded is [etime]; for a negative [etime] other than -1 it is the
    value that reads back as [etime]. *)
Theorem publish_time_recorded (sys : system) (io : publish_io) (g g' : globals)
    (etime : Z) (event : event_params) :
  ncntf_event_new nc_time2datetime xml_root_name nc_session_term_string
                  sys io g etime event = (EXIT_SUCCESS, g') ->
  let recorded := to_uint64 (if etime =? -1 then pub_time io else etime) in
  (exists new, sent_times g' = sent_times g ++ new
               /\ Forall (eq (DBUS_UINT64 recorded)) new)
  /\ (forall k s s',
        nth_error (streams g) k = Some s ->
        nth_error (streams g') k = Some s' ->
        append_complete (pub_append io k) ->
        s' = s
        \/ exists len payload,
             f_data (events s')
             = f_data (events s) ++ le_encode 4 len ++ le_encode 8 recorded ++ payload)
  /\ (0 <= etime < 2 ^ 63 -> recorded = etime)
  /\ (etime = -1 -> 0 <= pub_time io < 2 ^ 63 -> recorded = pub_time io)
  /\ (- 2 ^ 63 <= etime < -1 -> to_time_t recorded = etime).
Proof.
  intros Hcall recorded. rewrite ncntf_event_new_eq in Hcall.
  destruct (prepare_event _ _ _ io g etime event)
    as [[[[len etime64] record] ename]|] eqn:Hprep; [ | discriminate].
  injection Hcall as <-.
  assert (Het : etime64 = recorded).
  { unfold prepare_event in Hprep.
    destruct (negb (ncntf_config g)); [discriminate | ].
    destruct (event_content _ event); [ | discriminate].
    destruct ((if etime =? -1 then pub_time io else etime) =? -1); [discriminate | ].
    destruct (nc_time2datetime _); [ | discriminate].
    destruct (xml_root_name _); [ | discriminate].
    destruct (to_int32 _ =? -1); [discriminate | ].
    apply (f_equal (fun o : option (Z * Z * string * string) =>
                      match o with Some (_, e, _, _) => e | None => 0 end)) in Hprep.
    cbv beta iota in Hprep. symmetry. exact Hprep. }
  subst etime64. split; [ | split; [ | split; [ | split]]].
  - unfold sent_times, published. cbn [dbus].
    destruct (dbus g) as [conn|].
    + cbn [dbus_sent]. rewrite map_app. eexists; split; [reflexivity | ].
      apply signals_times.
    + exists []. split; [reflexivity | constructor].
  - intros k s s' Hk Hk' Hio. cbn [published streams] in Hk'.
    rewrite nth_error_mapi_from, Hk in Hk'. cbn [option_map Nat.add] in Hk'.
    injection Hk' as <-. unfold stored.
    destruct (replay s =? 0); [now left | ].
    destruct (admits g ename s); [ | now left].
    right. exists len, (firstn (Z.to_nat len) (c_bytes record)).
    now rewrite append_event_complete.
  - intros H. subst recorded. destruct (Z.eqb_spec etime (-1)) as [E|_]; [lia | ].
    unfold to_uint64. apply Z.mod_small. lia.
  - intros -> H. subst recorded. change (-1 =? -1) with true. cbn iota.
    unfold to_uint64. apply Z.mod_small. lia.
  - intros H. subst recorded. destruct (Z.eqb_spec etime (-1)) as [E|_]; [lia | ].
    unfold to_time_t, to_signed, to_uint64. rewrite Z.mod_mod by lia.
    change (64 - 1) with 63.
    replace (etime mod 2 ^ 64) with (etime + 2 ^ 64).
    + destruct (Z.ltb_spec (etime + 2 ^ 64) (2 ^ 63)); lia.
    + apply Z.mod_unique with (q := -1); lia.
Qed.

(** C6. When a call of [ncntf_event_new] reaches its loops with the record
    [record] of the event [ename]: the file of a stream that keeps its
    events and admits [ename] gains the record, when the writes transfer all
    their bytes; any other stream is left as it is; every signal sent is the
    "Event" signal of a stream that admits [ename]; and when no sending
    fails, the signals sent are those of all the streams that admit
    [ename], whether they keep their events or not, in the order of the
    list. *)
Theorem publish_footprint (sys : system) (io : publish_io) (g : globals)
    (etime : Z) (event : event_params) (len etime64 : Z) (record ename : string) :
  prepare_event nc_time2datetime xml_root_name nc_session_term_string
                io g etime event = Some (len, etime64, record, ename) ->
  let g' := snd (ncntf_event_new nc_time2datetime xml_root_name
                                 nc_session_term_string sys io g etime event) in
  (forall k s, nth_error (streams g) k = Some s ->
     exists s', nth_error (streams g') k = Some s'
       /\ (targeted g ename s -> append_complete (pub_append io k) ->
           f_data (events s') = f_data (events s) ++ record_bytes len etime64 record)
       /\ (~ targeted g ename s -> s' = s))
  /\ (forall conn, dbus g = Some conn ->
        exists conn', dbus g' = Some conn'
          /\ (forall m, In m (dbus_sent conn') ->
                In m (dbus_sent conn)
                \/ exists s, In s (streams g) /\ admits g ename s = true
                             /\ m = event_signal s etime64 record)
          /\ ((forall k, pub_signal io k = true) ->
              dbus_sent conn'
              = dbus_sent conn
                ++ map (fun s => event_signal s etime64 record)
                       (filter (admits g ename) (streams g)))).
Proof.
  intros Hprep g'. subst g'. rewrite ncntf_event_new_eq, Hprep. cbn [snd]. split.
  - intros k s Hk. cbn [published streams].
    rewrite nth_error_mapi_from, Hk. cbn [option_map Nat.add].
    eexists; split; [reflexivity | ]. unfold stored, targeted. split.
    + intros [Hr Ha] Hio. apply Z.eqb_neq in Hr. rewrite Hr, Ha.
      now rewrite append_event_complete.
    + intros Hnot. destruct (Z.eqb_spec (replay s) 0); [reflexivity | ].
      destruct (admits g ename s); [ | reflexivity].
      exfalso. apply Hnot. now split.
  - intros conn Hconn. cbn [published dbus]. rewrite Hconn.
    eexists; split; [reflexivity | ]. cbn [dbus_sent]. split.
    + intros m Hin. apply in_app_or in Hin as [Hin|Hin]; [now left | right].
      now apply signals_admitted in Hin.
    + intros Hok. now rewrite signals_all_sent.
Qed.

End PublisherClaims.

(** *** The publisher at examples *)

(** C2 at an example: the event [x] published to three streams while no
    signal can be sent. *)
Lemma publish_result_witness :
  example_prepare (publish_bus_down 5000) three_streams 1000 generic_x
  = Some (example_len, 1000, example_record, "x")
  /\ fst (example_event_new bare_system (publish_bus_down 5000) three_streams
                            1000 generic_x) = EXIT_SUCCESS.
Proof.
  split; [vm_compute; reflexivity | ].
  apply (proj2 (publish_result iso8601 root_element_name term_string bare_system
                  (publish_bus_down 5000) three_streams 1000 generic_x)
               example_len 1000 example_record "x").
  - vm_compute. reflexivity.
  - intros k s _ _. repeat split; discriminate.
Defined.

(** C2 as the specification states it fails when a signal cannot be sent:
    the stream "A" took the append, sending on D-Bus failed, and the call
    returns EXIT_SUCCESS. *)
Lemma publish_success_with_bus_down :
  ~ success_iff_all_accepted
      (fst (example_event_new bare_system (publish_bus_down 5000) one_stream
                              1000 generic_x))
      (publish_bus_down 5000) one_stream "x".
Proof.
  intros [H _].
  assert (E : fst (example_event_new bare_system (publish_bus_down 5000) one_stream
                                     1000 generic_x) = EXIT_SUCCESS)
    by (vm_compute; reflexivity).
  destruct (H E) as [_ Hbus]. apply Hbus. split; [discriminate | ].
  exists O, (example_stream "A" 1 ("x" ++ LFs)).
  repeat split; vm_compute; reflexivity.
Qed.

(** The value returned is EXIT_SUCCESS as well when the write of the record
    fails: the file of "A" is as before and the signal is sent. *)
Example publish_success_with_failed_append :
  let r := example_event_new bare_system (publish_disk_full 5000) one_stream
                             1000 generic_x in
  fst r = EXIT_SUCCESS
  /\ map (fun s => f_data (events s)) (streams (snd r))
     = map (fun s => f_data (events s)) (streams one_stream)
  /\ sent_times (snd r) = [DBUS_UINT64 1000].
Proof. vm_compute. repeat split; reflexivity. Qed.

(** C3 at an example: the write of the record to the file of "A" fails. *)
Lemma publish_failed_append_reverted_witness :
  append_write_fails (pub_append (publish_disk_full 5000) 0)
  /\ exists s',
       nth_error (streams (snd (example_event_new bare_system (publish_disk_full 5000)
                                  one_stream 1000 generic_x))) 0 = Some s'
       /\ f_data (events s') = f_data (events (example_stream "A" 1 ("x" ++ LFs))).
Proof.
  split; [right; right; reflexivity | ].
  apply (publish_failed_append_reverted iso8601 root_element_name term_string
           bare_system (publish_disk_full 5000) one_stream 1000 generic_x O
           (example_stream "A" 1 ("x" ++ LFs))).
  - reflexivity.
  - right; right; reflexivity.
  - reflexivity.
Defined.

(** When the [ftruncate] that reverts fails too, which the code only logs,
    the file keeps the length and the time that were written before the
    write that failed. *)
Example failed_append_not_reverted :
  let s := example_stream "A" 1 ("x" ++ LFs) in
  f_data (events (append_event append_not_reverted example_len 1000 example_record s))
  = f_data (events s) ++ le_encode 4 example_len ++ le_encode 8 1000.
Proof. vm_compute. reflexivity. Qed.

(** C3 as the specification states it fails when the [ftruncate] that
    reverts fails as well: the write of the record to the file of "A"
    fails, the code logs the failure of [ftruncate] and goes on, the call
    returns EXIT_SUCCESS, and the file of "A" has grown by the four bytes
    of the length and the eight bytes of the time. *)
Lemma publish_append_not_reverted :
  fst (example_event_new bare_system (publish_revert_fails 5000) one_stream
                         1000 generic_x) = EXIT_SUCCESS
  /\ map (fun s => f_data (events s))
         (streams (snd (example_event_new bare_system (publish_revert_fails 5000)
                                          one_stream 1000 generic_x)))
     = [ f_data (events (example_stream "A" 1 ("x" ++ LFs)))
         ++ le_encode 4 example_len ++ le_encode 8 1000 ]
  /\ ~ failed_append_leaves_file
         (publish_revert_fails 5000) one_stream
         (snd (example_event_new bare_system (publish_revert_fails 5000) one_stream
                                 1000 generic_x))
         "x".
Proof.
  split; [vm_compute; reflexivity | ].
  split; [vm_compute; reflexivity | ].
  intros H.
  destruct (H O (example_stream "A" 1 ("x" ++ LFs))) as (s' & Hs' & Hdata).
  - reflexivity.
  - split; [discriminate | vm_compute; reflexivity].
  - reflexivity.
  - right; right; reflexivity.
  - vm_compute in Hs'. injection Hs' as <-.
    vm_compute in Hdata. discriminate Hdata.
Qed.

(** C5 at an example: the event [x] published with the time 1000. *)
Lemma publish_time_recorded_witness :
  exists new,
    sent_times (snd (example_event_new bare_system (publish_ok 5000) one_stream
                                       1000 generic_x))
    = sent_times one_stream ++ new
    /\ Forall (eq (DBUS_UINT64 1000)) new.
Proof.
  apply (publish_time_recorded iso8601 root_element_name term_string bare_system
           (publish_ok 5000) one_stream
           (snd (example_event_new bare_system (publish_ok 5000) one_stream
                                   1000 generic_x))
           1000 generic_x).
  vm_compute. reflexivity.
Defined.

(** C5 as the specification states it fails for the time -2: the signal
    carries -2 converted to [uint64_t], not the time of the clock (5000). *)
Lemma publish_negative_time_recorded :
  sent_times (snd (example_event_new bare_system (publish_ok 5000) one_stream
                                     (-2) generic_x))
  = [DBUS_UINT64 (2 ^ 64 - 2)]
  /\ time_as_stated 5000 (-2) = 5000
  /\ 2 ^ 64 - 2 <> time_as_stated 5000 (-2).
Proof. vm_compute. repeat split; try reflexivity. discriminate. Qed.

(** C6 at an example: the event [x] published to the three streams. *)
Lemma publish_footprint_witness :
  example_prepare (publish_ok 5000) three_streams 1000 generic_x
  = Some (example_len, 1000, example_record, "x")
  /\ forall conn, dbus three_streams = Some conn ->
       exists conn',
         dbus (snd (example_event_new bare_system (publish_ok 5000) three_streams
                                      1000 generic_x)) = Some conn'
         /\ ((forall k, pub_signal (publish_ok 5000) k = true) ->
             dbus_sent conn'
             = dbus_sent conn
               ++ map (fun s => event_signal s 1000 example_record)
                      (filter (admits three_streams "x") (streams three_streams))).
Proof.
  split; [vm_compute; reflexivity | ].
  intros conn Hconn.
  destruct (proj2 (publish_footprint iso8601 root_element_name term_string bare_system
                     (publish_ok 5000) three_streams 1000 generic_x
                     example_len 1000 example_record "x"
                     ltac:(vm_compute; reflexivity)) conn Hconn)
    as (conn' & H1 & _ & H2).
  exists conn'. split; assumption.
Defined.

(** The event [x] published to the three streams: the file of "A" grows by
    one record, the files of "B" (which keeps nothing) and "C" (which does
    not allow [x]) do not, and the signal goes to "A" and "B". *)
Example publish_filtered_example :
  let g' := snd (example_event_new bare_system (publish_ok 5000) three_streams
                                   1000 generic_x) in
  map (fun s => f_data (events s)) (streams g')
  = [ f_data (events (example_stream "A" 1 ("x" ++ LFs)))
      ++ record_bytes example_len 1000 example_record;
      f_data (events (example_stream "B" 0 ("x" ++ LFs ++ "y" ++ LFs)));
      f_data (events (example_stream "C" 1 ("y" ++ LFs))) ]
  /\ option_map (fun c => map msg_path (dbus_sent c)) (dbus g')
     = Some [ "/libnetconf/notifications/stream/A";
              "/libnetconf/notifications/stream/B" ].
Proof. vm_compute. split; reflexivity. Qed.

(** ** The iterator: replay from the file *)

Lemma remaining_size (f : file) :
  remaining f <> [] -> Z.of_nat (f_pos f) < f_size f.
Proof.
  unfold remaining, f_size. intros H.
  destruct (Nat.lt_ge_cases (f_pos f) (List.length (f_data f))) as [Hlt|Hge]; [lia | ].
  exfalso. apply H. now apply skipn_all2.
Qed.

Lemma remaining_nil_size (f : file) :
  remaining f = [] -> f_size f <= Z.of_nat (f_pos f).
Proof.
  unfold remaining, f_size. intros H.
  apply (f_equal (@List.length ascii)) in H. rewrite length_skipn in H. simpl in H. lia.
Qed.

(** Reading the bytes [x] that come next in the file. *)
Lemma read_remaining (f : file) (x rest : list ascii) :
  remaining f = x ++ rest ->
  read f (Z.of_nat (List.length x))
  = (x, mkFile (f_data f) (f_pos f + List.length x)).
Proof.
  unfold remaining, read. intros H. rewrite Nat2Z.id, H, firstn_app_exact. reflexivity.
Qed.

Lemma remaining_advance (f : file) (x rest : list ascii) :
  remaining f = x ++ rest ->
  remaining (mkFile (f_data f) (f_pos f + List.length x)) = rest.
Proof.
  unfold remaining. cbn [f_data f_pos]. intros H.
  rewrite Nat.add_comm, <- skipn_skipn, H. apply skipn_app_exact.
Qed.

Lemma read_into_remaining (f : file) (old x rest : list ascii) :
  remaining f = x ++ rest ->
  (List.length old <= List.length x)%nat ->
  read_into f old (Z.of_nat (List.length x))
  = (Z.of_nat (List.length x), x, mkFile (f_data f) (f_pos f + List.length x)).
Proof.
  intros H Hold. unfold read_into. rewrite (read_remaining f x rest H).
  now rewrite fill_full.
Qed.

Lemma stale_object_length (sys : system) (nm : string) (size : Z) :
  List.length (stale_object sys nm size) = Z.to_nat size.
Proof. unfold stale_object. now rewrite length_map, length_seq. Qed.

Lemma c_bytes_length (s : string) :
  List.length (c_bytes s) = S (String.length s).
Proof.
  unfold c_bytes. rewrite length_app, length_list_ascii_of_string. simpl. lia.
Qed.

Lemma to_int32_small (z : Z) : 0 <= z < 2 ^ 31 -> to_int32 z = z.
Proof.
  intros H. unfold to_int32, to_signed. change (32 - 1) with 31.
  rewrite Z.mod_small by lia.
  destruct (Z.ltb_spec z (2 ^ 31)); lia.
Qed.

(** The window test of the code is the one of [in_window]. *)
Lemma window_test (start stop t : Z) (r : event_rec) :
  start <> -1 -> t = to_time_t (er_time r) ->
  (negb (start =? -1) && (start >? t)) || (negb (stop =? -1) && (stop <? t))
  = negb (in_window start stop r).
Proof.
  intros Hs ->. unfold in_window. lia.
Qed.

Lemma encode_record_parts (r : event_rec) (tail : list ascii) :
  well_formed r ->
  encode_record r ++ tail
  = le_encode 4 (strlen (er_text r) + 1)
    ++ le_encode 8 (er_time r) ++ c_bytes (er_text r) ++ tail.
Proof.
  intros (_ & Hlen & _). unfold encode_record, record_bytes.
  rewrite <- !app_assoc. do 2 f_equal.
  rewrite firstn_all2; [reflexivity | ].
  rewrite c_bytes_length. unfold strlen. lia.
Qed.

Lemma set_events_twice (s : stream) (f f' : file) :
  set_events (set_events s f) f' = set_events s f'.
Proof. reflexivity. Qed.

Lemma lseek_cur_nat (f : file) (n : nat) :
  lseek_cur f (Z.of_nat n) = (Z.of_nat (f_pos f + n), mkFile (f_data f) (f_pos f + n)).
Proof. unfold lseek_cur. now rewrite <- Nat2Z.inj_add, lseek_set_nat. Qed.

Lemma encode_record_length (r : event_rec) :
  well_formed r ->
  List.length (encode_record r) = (4 + (8 + S (String.length (er_text r))))%nat.
Proof.
  intros Hwf. rewrite <- (app_nil_r (encode_record r)).
  rewrite encode_record_parts by exact Hwf.
  now rewrite !length_app, !le_encode_length, c_bytes_length, Nat.add_0_r.
Qed.

Lemma window_skip (start stop : Z) (r : event_rec) :
  start <> -1 ->
  ((start >? to_time_t (er_time r))
   || (negb (stop =? -1) && (stop <? to_time_t (er_time r))))
  = negb (in_window start stop r).
Proof. intros Hs. unfold in_window. lia. Qed.

Lemma to_time_t_decode (t : Z) :
  0 <= t < 2 ^ 64 -> to_time_t (le_decode (le_encode 8 t)) = to_time_t t.
Proof. intros H. now rewrite le_decode_encode_small by (simpl; lia). Qed.

Lemma to_int32_decode (v : Z) :
  0 <= v < 2 ^ 31 -> to_int32 (le_decode (le_encode 4 v)) = v.
Proof.
  intros H. rewrite le_decode_encode_small by (simpl; lia). now apply to_int32_small.
Qed.

Lemma in_window_empty (start stop : Z) (r : event_rec) :
  stop <> -1 -> stop < start -> in_window start stop r = false.
Proof. intros H1 H2. unfold in_window. lia. Qed.

Section Replay.

Variable nc_time2datetime : Z -> option string.
Variable sys : system.
Variable io : iter_io.
Variables start stop : Z.

Hypothesis start_set : start <> -1.
Hypothesis lockf_ok : forall n, it_lockf io n = true.

Lemma iter_loop_record (fuel pass : nat) (g : globals) (i : nat) (s : stream)
    (len t : list ascii) (r : event_rec) (tail : list ascii)
    (event_time : option Z) :
  replay s = 1 ->
  remaining (events s) = encode_record r ++ tail ->
  well_formed r ->
  List.length len = 4%nat -> List.length t = 8%nat ->
  iter_loop nc_time2datetime (S fuel) sys io pass g i s 0 len t start stop event_time
  = if in_window start stop r
    then Some (mkIterResult (Some (er_text r)) (put_stream g i (after_record io pass s r)) 0
                            (store_time event_time (to_time_t (er_time r))))
    else iter_loop nc_time2datetime fuel sys io (S pass) g i (after_record io pass s r) 0
                   (le_encode 4 (strlen (er_text r) + 1)) (le_encode 8 (er_time r))
                   start stop event_time.
Proof.
  intros Hreplay Hrem Hwf Hlen Ht.
  pose proof Hwf as (Hnul & Hsize & Htime).
  pose proof (encode_record_length r Hwf) as Henc.
  rewrite encode_record_parts in Hrem by exact Hwf.
  set (L := le_encode 4 (strlen (er_text r) + 1)) in *.
  set (T := le_encode 8 (er_time r)) in *.
  set (P := c_bytes (er_text r)) in *.
  set (d := f_data (events s)) in *.
  set (p := f_pos (events s)) in *.
  assert (HL : List.length L = 4%nat) by apply le_encode_length.
  assert (HT : List.length T = 8%nat) by apply le_encode_length.
  assert (HP : Z.of_nat (List.length P) = strlen (er_text r) + 1).
  { unfold P. rewrite c_bytes_length. unfold strlen. lia. }
  (* the three reads *)
  pose proof (read_into_remaining (events s) len L _ Hrem ltac:(lia)) as E1.
  pose proof (remaining_advance (events s) L _ Hrem) as R1.
  rewrite HL in E1, R1. change (Z.of_nat 4) with 4 in E1.
  fold d p in E1, R1.
  pose proof (read_into_remaining (mkFile d (p + 4)) t T _ R1 ltac:(lia)) as E2.
  pose proof (remaining_advance (mkFile d (p + 4)) T _ R1) as R2.
  rewrite HT in E2, R2. change (Z.of_nat 8) with 8 in E2. cbn [f_data f_pos] in E2, R2.
  pose proof (read_into_remaining (mkFile d (p + 4 + 8))
                (stale_object sys "text" (strlen (er_text r) + 1)) P _ R2) as E3.
  rewrite stale_object_length, HP in E3. cbn [f_data f_pos] in E3.
  specialize (E3 ltac:(lia)).
  (* the pass *)
  cbn [iter_loop].
  change (0 =? 0) with true. rewrite (proj2 (Z.eqb_neq _ _) start_set), Hreplay.
  change (1 =? 1) with true. cbn [negb andb].
  rewrite lseek_cur_0, lseek_end_0. cbn [fst].
  assert (Hmore : (Z.of_nat (f_pos (events s)) <? f_size (events s)) = true).
  { apply Z.ltb_lt, remaining_size. rewrite Hrem. unfold L. discriminate. }
  rewrite Hmore. rewrite lseek_set_nat. cbn [snd f_data at_end].
  replace (mkFile (f_data (events s)) (f_pos (events s))) with (events s)
    by now destruct (events s).
  rewrite set_events_same. cbn [negb].
  rewrite ncntf_stream_lock_eq, lockf_ok. change (EXIT_SUCCESS =? 0) with true.
  cbn iota. cbn [events set_locked].
  rewrite E1. change (4 <=? 0) with false. cbn iota. cbn [events set_events].
  rewrite E2. change (8 <=? 0) with false. cbn iota. cbn [events set_events].
  subst L T.
  rewrite !to_int32_decode by (unfold strlen in *; lia).
  rewrite !to_time_t_decode by exact Htime.
  rewrite window_skip by exact start_set.
  assert (Hafter : forall f,
            f = mkFile d (p + 4 + 8 + List.length P) ->
            snd (ncntf_stream_unlock (it_ulockf io pass)
                   (set_events
                      (set_events (set_events (set_locked s 1) (mkFile d (p + 4)))
                                  (mkFile d (p + 4 + 8))) f))
            = after_record io pass s r).
  { intros f ->. unfold after_record. rewrite !set_events_twice, Henc.
    fold d p. do 4 f_equal. unfold P. rewrite c_bytes_length. lia. }
  destruct (in_window start stop r); cbn [negb].
  - rewrite E3.
    destruct (Z.leb_spec (strlen (er_text r) + 1) 0) as [Hle|_];
      [unfold strlen in Hle; lia | ].
    unfold P at 1. rewrite c_string_c_bytes by exact Hnul.
    now rewrite Hafter.
  - rewrite <- HP, lseek_cur_nat. cbn [snd f_data f_pos].
    now rewrite Hafter.
Qed.

(** A pass at the end of the file ends the replay. *)
Lemma iter_loop_end (fuel pass : nat) (g : globals) (i : nat) (s : stream)
    (len t : list ascii) (event_time : option Z) :
  replay s = 1 ->
  remaining (events s) = [] ->
  exists g',
    iter_loop nc_time2datetime (S fuel) sys io pass g i s 0 len t start stop event_time
    = Some (mkIterResult (Some (replayComplete_text (nc_time2datetime (it_time io))))
                         g' 1 (store_time event_time (it_time io))).
Proof.
  intros Hreplay Hrem. cbn [iter_loop].
  change (0 =? 0) with true. rewrite (proj2 (Z.eqb_neq _ _) start_set), Hreplay.
  change (1 =? 1) with true. cbn [negb andb].
  rewrite lseek_cur_0, lseek_end_0. cbn [fst].
  destruct (Z.ltb_spec (Z.of_nat (f_pos (events s))) (f_size (events s))) as [Hlt|_].
  - apply remaining_nil_size in Hrem. lia.
  - cbn [negb]. eexists. reflexivity.
Qed.

(** The loop on a file that holds the records [recs] from its offset on:
    it returns the first record in the window, or ends the replay when there
    is none. *)
Lemma iter_loop_records (recs : list event_rec) (event_time : option Z) :
  forall (fuel pass : nat) (g : globals) (i : nat) (s : stream) (len t : list ascii),
  (List.length recs < fuel)%nat ->
  replay s = 1 ->
  remaining (events s) = encode_records recs ->
  Forall well_formed recs ->
  List.length len = 4%nat -> List.length t = 8%nat ->
  exists res,
    iter_loop nc_time2datetime fuel sys io pass g i s 0 len t start stop event_time
    = Some res
    /\ match filter (in_window start stop) recs with
       | [] =>
           it_replay_done res = 1
       | r :: _ =>
           exists s' skipped rest,
             recs = skipped ++ r :: rest
             /\ filter (in_window start stop) skipped = []
             /\ it_text res = Some (er_text r)
             /\ it_event_time res = store_time event_time (to_time_t (er_time r))
             /\ it_replay_done res = 0
             /\ it_globals res = put_stream g i s'
             /\ name s' = name s /\ replay s' = 1
             /\ remaining (events s') = encode_records rest
       end.
Proof.
  induction recs as [|r recs IH]; intros fuel pass g i s len t Hfuel Hreplay Hrem Hwf Hlen Ht.
  - destruct fuel as [|fuel]; [simpl in Hfuel; lia | ].
    destruct (iter_loop_end fuel pass g i s len t event_time Hreplay Hrem) as [g' ->].
    eexists; split; [reflexivity | reflexivity].
  - destruct fuel as [|fuel]; [simpl in Hfuel; lia | ].
    inversion Hwf as [|? ? Hr Hrest]; subst.
    cbn [encode_records map List.concat] in Hrem.
    rewrite (iter_loop_record fuel pass g i s len t r _ event_time
               Hreplay Hrem Hr Hlen Ht).
    assert (Hs' : name (after_record io pass s r) = name s
                  /\ replay (after_record io pass s r) = 1
                  /\ remaining (events (after_record io pass s r)) = encode_records recs).
    { unfold after_record.
      match goal with
      | |- context [ncntf_stream_unlock ?b ?x] =>
          pose proof (unlock_name_rules b x) as (Hn & _ & Hrp)
      end.
      rewrite Hn, Hrp, unlock_events. cbn [name replay events set_events set_locked].
      repeat split; try assumption.
      apply (remaining_advance (events s) (encode_record r) _ Hrem). }
    destruct Hs' as (Hn' & Hr' & Hrem').
    cbn [filter]. destruct (in_window start stop r) eqn:Ewin.
    + eexists; split; [reflexivity | ].
      exists (after_record io pass s r), [], recs. cbn.
      repeat split; assumption.
    + destruct (IH fuel (S pass) g i (after_record io pass s r)
                   (le_encode 4 (strlen (er_text r) + 1)) (le_encode 8 (er_time r))
                   ltac:(simpl in Hfuel; lia) Hr' Hrem' Hrest
                   (le_encode_length _ _) (le_encode_length _ _))
        as (res & -> & Hres).
      exists res. split; [reflexivity | ].
      destruct (filter (in_window start stop) recs) as [|r' ?]; [exact Hres | ].
      destruct Hres as (s' & skipped & rest & -> & Hsk & H1 & H2 & H3 & H4 & H5 & H6 & H7).
      exists s', (r :: skipped), rest. cbn [filter app]. rewrite Ewin.
      repeat split; try assumption. congruence.
Qed.


Lemma find_stream_update (ss : list stream) (nm : string) (i : nat) (s' : stream) :
  find_stream ss nm = Some i -> name s' = nm ->
  find_stream (update_nth i s' ss) nm = Some i.
Proof.
  intros Hfind Hn. revert i Hfind. induction ss as [|s0 ss IH]; intros i; simpl;
    [discriminate | ].
  destruct (String.eqb (name s0) nm) eqn:E.
  - intros [= <-]. simpl. now rewrite Hn, String.eqb_refl.
  - destruct (find_stream ss nm) as [j|] eqn:Ej; [ | discriminate].
    intros [= <-]. simpl. rewrite E. now rewrite (IH j eq_refl).
Qed.

(** C7. During the replay of a stream file, the records that successive
    calls of [ncntf_stream_iter_next] return are the stored records whose
    time [t] is in the window ([start <= t], and [t <= stop] when [stop] is
    set), in the order of the file: a record is returned if and only if it
    is in the window, every other one is skipped. The file holds the
    well-formed records [recs] from the offset of the descriptor on, the
    stream keeps its events and the file can be locked; with more passes
    for the loop of each call, and more calls, than there are records, every
    call returns and the replay comes to its end. *)
Theorem replay_window (nm : string) (i : nat) (fuel : nat) :
  forall (calls : nat) (recs : list event_rec) (g : globals) (s : stream),
  ncntf_config g = true ->
  find_stream (streams g) nm = Some i ->
  nth_error (streams g) i = Some s ->
  replay s = 1 ->
  remaining (events s) = encode_records recs ->
  Forall well_formed recs ->
  (List.length recs < fuel)%nat ->
  (List.length recs < calls)%nat ->
  replayed nc_time2datetime calls fuel sys io g 0 (Some nm) start stop
  = Some (map delivered (filter (in_window start stop) recs)).
Proof.
  induction calls as [|calls IH]; intros recs g s Hcfg Hfind Hnth Hreplay Hrem Hwf Hfuel Hcalls;
    [simpl in Hcalls; lia | ].
  cbn [replayed]. unfold ncntf_stream_iter_next. rewrite Hcfg. cbn [negb].
  rewrite (proj2 (Z.eqb_neq _ _) start_set). cbn [negb andb].
  destruct (negb (stop =? -1) && (stop <? start)) eqn:Eempty.
  - (* the window is empty: the call returns NULL *)
    apply andb_true_iff in Eempty as [Estop Hlt].
    apply negb_true_iff, Z.eqb_neq in Estop. apply Z.ltb_lt in Hlt.
    cbn [it_replay_done it_text]. change (0 =? 0) with true. cbn iota.
    replace (filter (in_window start stop) recs) with (@nil event_rec); [reflexivity | ].
    symmetry. clear -Estop Hlt. induction recs as [|r recs IHr]; [reflexivity | ].
    cbn [filter]. now rewrite in_window_empty.
  - unfold ncntf_stream_get. rewrite Hfind, Hnth.
    destruct (iter_loop_records recs (Some 0) fuel O g i s
                (stale_object sys "len" 4) (stale_object sys "t" 8)
                Hfuel Hreplay Hrem Hwf
                (stale_object_length _ _ _) (stale_object_length _ _ _))
      as (res & -> & Hres).
    destruct (filter (in_window start stop) recs) as [|r found] eqn:Efilter.
    + (* no record in the window is left: the replay ends *)
      now rewrite Hres.
    + (* the call returns the first record in the window *)
      assert (Hr : in_window start stop r = true).
      { assert (Hin : In r (filter (in_window start stop) recs))
          by (rewrite Efilter; now left).
        apply filter_In in Hin. tauto. }
      destruct Hres as (s' & skipped & rest & -> & Hsk & Htext & Htime & Hdone
                        & Hglob & Hname & Hreplay' & Hrem').
      rewrite filter_app, Hsk in Efilter. cbn [app filter] in Efilter.
      rewrite Hr in Efilter. injection Efilter as <-.
      rewrite Hdone, Htext, Htime. change (0 =? 0) with true. cbn iota.
      cbn [store_time map]. fold (delivered r).
      rewrite Hglob.
      enough (Hrest : replayed nc_time2datetime calls fuel sys io (put_stream g i s') 0
                               (Some nm) start stop
                      = Some (map delivered (filter (in_window start stop) rest)))
        by now rewrite Hrest.
      destruct (find_stream_nth _ _ _ Hfind) as (s0 & Hs0 & Hn0).
      assert (s0 = s) by congruence. subst s0.
      apply Forall_app in Hwf as [_ Hwf]. inversion Hwf as [|? ? _ Hwf']; subst.
      rewrite length_app in Hfuel, Hcalls. cbn [List.length] in Hfuel, Hcalls.
      apply (IH rest (put_stream g i s') s'); try assumption; try lia.
      * unfold put_stream, set_streams. cbn [streams].
        apply find_stream_update; [assumption | congruence].
      * unfold put_stream, set_streams. cbn [streams].
        now apply (nth_error_update_nth_eq i s' s).
Qed.

End Replay.

Lemma no_nul_check (l : list ascii) :
  forallb (fun c => negb (Ascii.eqb c NUL)) l = true -> no_nul l.
Proof.
  intros H. apply Forall_forall. intros c Hc E.
  rewrite forallb_forall in H. specialize (H c Hc).
  subst c. discriminate H.
Qed.

Lemma stored_records_well_formed : Forall well_formed stored_records.
Proof.
  repeat constructor; try (apply no_nul_check; vm_compute; reflexivity);
    try (vm_compute; reflexivity); try (vm_compute; discriminate).
Qed.

(** C7 at the example of the specification: of the records stored at the
    times 100, 200 and 300, the window from 150 to 250 gives the one at
    200. *)
Lemma replay_window_witness :
  150 <> -1
  /\ remaining (events replay_stream) = encode_records stored_records
  /\ replayed iso8601 4 4 bare_system (iter_ok 5000) replay_state 0 (Some "A") 150 250
     = Some [delivered (record_at 200)].
Proof.
  split; [lia | split; [vm_compute; reflexivity | ]].
  rewrite (replay_window iso8601 bare_system (iter_ok 5000) 150 250
             ltac:(lia) (fun _ => eq_refl) "A" 0 4 4 stored_records
             replay_state replay_stream).
  - vm_compute. reflexivity.
  - reflexivity.
  - reflexivity.
  - reflexivity.
  - reflexivity.
  - vm_compute. reflexivity.
  - exact stored_records_well_formed.
  - simpl. lia.
  - simpl. lia.
Defined.

(** The same from the publisher on: the event [x] is published at the times
    100, 200 and 300 and the iteration is started; the streams are those of
    the example above, and the calls give the record at 200 alone. *)
Example publish_then_replay :
  let '(g, replay_done) :=
    ncntf_stream_iter_start bare_system published_thrice 0 (Some "A") in
  streams g = streams replay_state
  /\ replayed iso8601 4 4 bare_system (iter_ok 5000) g replay_done (Some "A") 150 250
     = Some [(event_record "1970-01-01T00:03:20Z" "<x/>", 200)].
Proof. vm_compute. split; reflexivity. Qed.

(** ** The rules: a region that is full *)

Lemma c_str_filled (n : nat) :
  c_str (filled_rules n) = repeat "a"%char n ++ [LF].
Proof.
  unfold filled_rules. induction n as [|n IH]; [reflexivity | ].
  cbn [repeat app c_str]. change (Ascii.eqb "a" NUL) with false. cbn iota.
  now rewrite IH.
Qed.

Lemma split_on_line (n : nat) :
  split_on LF (repeat "a"%char n ++ [LF]) = [repeat "a"%char n; []].
Proof.
  induction n as [|n IH]; [reflexivity | ].
  cbn [repeat app split_on]. change (Ascii.eqb "a" LF) with false. cbn iota.
  now rewrite IH.
Qed.

Lemma last_index_line (n : nat) :
  last_index LF (repeat "a"%char n ++ [LF]) = Some n.
Proof.
  induction n as [|n IH]; [reflexivity | ].
  cbn [repeat app last_index]. now rewrite IH.
Qed.

Lemma filled_rules_length (n : nat) : List.length (filled_rules n) = (n + 2)%nat.
Proof. unfold filled_rules. now rewrite length_app, repeat_length. Qed.

(** The rule [x] is not in a region that a line of ["a"] fills. *)
Lemma filled_rules_not_allowed (n : nat) :
  allowed_in (streams (state_with_rules (filled_rules n))) "A" "x" = false.
Proof.
  unfold allowed_in.
  change (find_stream (streams (state_with_rules (filled_rules n))) "A") with (Some O).
  cbv beta iota.
  change (nth_error (streams (state_with_rules (filled_rules n))) 0)
    with (Some (stream_with_rules (filled_rules n))).
  cbv beta iota.
  change (rules (stream_with_rules (filled_rules n))) with (filled_rules n).
  rewrite c_str_filled. unfold strtok_tokens. rewrite split_on_line.
  destruct n as [|n]; reflexivity.
Qed.

(** On a region of [n + 2] bytes with one byte free, allowing the event
    [x] returns EXIT_SUCCESS, puts ["x"] in the last byte of the region and
    stores the newline and the NUL past its end. *)
Lemma allow_events_on_filled (sys : system) (n : nat) :
  ncntf_stream_allow_events sys (state_with_rules (filled_rules n))
                            (Some "A") (Some "x")
  = (EXIT_SUCCESS,
     state_with_rules (repeat "a"%char n ++ [LF; "x"%char]),
     [LF; NUL]).
Proof.
  unfold ncntf_stream_allow_events.
  assert (Hfind : find_stream (streams (state_with_rules (filled_rules n))) "A" = Some O)
    by reflexivity.
  rewrite (isallowed_listed sys _ "A" "x" O Hfind), filled_rules_not_allowed.
  change (negb (0 =? 0)) with false. cbn iota.
  unfold ncntf_stream_get. rewrite Hfind. cbv beta iota.
  change (nth_error (streams (state_with_rules (filled_rules n))) 0)
    with (Some (stream_with_rules (filled_rules n))).
  cbv beta iota.
  change (rules (stream_with_rules (filled_rules n))) with (filled_rules n).
  unfold strrchr. rewrite c_str_filled, last_index_line, filled_rules_length.
  assert (Hmem1 : strcpy_at (filled_rules n) (S n) "x"
                  = (repeat "a"%char n ++ [LF]) ++ ["x"%char; NUL]).
  { unfold strcpy_at, filled_rules.
    replace (repeat "a"%char n ++ [LF; NUL])
      with ((repeat "a"%char n ++ [LF]) ++ [NUL]) by now rewrite <- app_assoc.
    rewrite firstn_app_at by (rewrite length_app, repeat_length; cbn [List.length String.length]; lia).
    rewrite skipn_all2
      by (rewrite !length_app, repeat_length, ?c_bytes_length; cbn [List.length String.length]; lia).
    replace (S n - List.length ((repeat "a"%char n ++ [LF]) ++ [NUL]))%nat with O
      by (rewrite !length_app, repeat_length, ?c_bytes_length; cbn [List.length String.length]; lia).
    reflexivity. }
  rewrite Hmem1.
  assert (Hmem2 : strcpy_at ((repeat "a"%char n ++ [LF]) ++ ["x"%char; NUL])
                            (S n + String.length "x") (String LF EmptyString)
                  = (repeat "a"%char n ++ [LF; "x"%char]) ++ [LF; NUL]).
  { unfold strcpy_at.
    replace ((repeat "a"%char n ++ [LF]) ++ ["x"%char; NUL])
      with ((repeat "a"%char n ++ [LF; "x"%char]) ++ [NUL])
      by (rewrite <- !app_assoc; reflexivity).
    rewrite firstn_app_at by (rewrite length_app, repeat_length; cbn [List.length String.length]; lia).
    rewrite skipn_all2
      by (rewrite !length_app, repeat_length, ?c_bytes_length; cbn [List.length String.length]; lia).
    replace (S n + String.length "x"
             - List.length ((repeat "a"%char n ++ [LF; "x"%char]) ++ [NUL]))%nat with O
      by (rewrite !length_app, repeat_length, ?c_bytes_length; cbn [List.length String.length]; lia).
    reflexivity. }
  rewrite Hmem2.
  rewrite firstn_app_at by (rewrite length_app, repeat_length; cbn [List.length String.length]; lia).
  rewrite skipn_app_at by (rewrite length_app, repeat_length; cbn [List.length String.length]; lia).
  reflexivity.
Qed.

(** C4 on the code. The rules region of the stream "A" has its full size
    of 1 MiB and one byte free, less than the two bytes of the entry for the
    event [x]; [ncntf_stream_allow_events] does not fail: it returns
    EXIT_SUCCESS, changes the last byte of the region and stores two bytes
    past the end of the region. *)
Theorem allow_events_overruns_full_rules :
  Z.of_nat (List.length full_rules) = NCNTF_RULES_SIZE
  /\ Z.of_nat (List.length (c_str full_rules)) = NCNTF_RULES_SIZE - 1
  /\ ncntf_stream_allow_events bare_system (state_with_rules full_rules)
                               (Some "A") (Some "x")
     = (EXIT_SUCCESS,
        state_with_rules (repeat "a"%char (Z.to_nat NCNTF_RULES_SIZE - 2)
                          ++ [LF; "x"%char]),
        [LF; NUL]).
Proof.
  unfold full_rules. split; [ | split].
  - rewrite filled_rules_length. unfold NCNTF_RULES_SIZE. lia.
  - rewrite c_str_filled, length_app, repeat_length. unfold NCNTF_RULES_SIZE.
    cbn [List.length]. lia.
  - apply allow_events_on_filled.
Qed.

(** The same on a region of eight bytes, with the bytes written out. *)
Example allow_events_overruns_small_rules :
  ncntf_stream_allow_events bare_system
    (state_with_rules (list_ascii_of_string "aaaaaa" ++ [LF; NUL]))
    (Some "A") (Some "x")
  = (EXIT_SUCCESS,
     state_with_rules (list_ascii_of_string "aaaaaa" ++ [LF; "x"%char]),
     [LF; NUL]).
Proof. vm_compute. reflexivity. Qed.

(** ** The header of a stream file *)

Lemma c_str_head (a : list ascii) (x : ascii) (rest : list ascii) :
  c_str a = x :: rest -> exists a', a = x :: a' /\ x <> NUL.
Proof.
  destruct a as [|c a']; simpl; [discriminate | ].
  destruct (Ascii.eqb_spec c NUL) as [E|E]; [discriminate | ].
  intros [= <- _]. now exists a'.
Qed.

(** Two buffers that [strncmp] finds equal on [n] characters hold the same
    character at each position before [n] up to which the second holds no
    NUL. *)
Lemma strncmp_eq_nth (n : nat) :
  forall (a b : list ascii) (k : nat),
  strncmp_eq a b n = true -> (k < n)%nat ->
  (forall j, (j <= k)%nat -> nth j b NUL <> NUL) ->
  nth k a NUL = nth k b NUL.
Proof.
  induction n as [|n IH]; intros a b k Heq Hk Hb; [lia | ].
  cbn [strncmp_eq] in Heq.
  destruct (c_str a) as [|x ra] eqn:Ea; destruct (c_str b) as [|y rb] eqn:Eb;
    try discriminate.
  - exfalso. apply (Hb O); [lia | ].
    destruct b as [|c b']; [reflexivity | ]. simpl in Eb |- *.
    destruct (Ascii.eqb_spec c NUL); [assumption | discriminate].
  - apply andb_true_iff in Heq as [Hxy Hrest]. apply Ascii.eqb_eq in Hxy. subst y.
    destruct (c_str_head _ _ _ Ea) as (a' & -> & _).
    destruct (c_str_head _ _ _ Eb) as (b' & -> & _).
    destruct k as [|k]; [reflexivity | ].
    cbn [nth tl] in *. apply IH; [assumption | lia | ].
    intros j Hj. apply (Hb (S j)). lia.
Qed.

(** The last byte of an address below 2^56 is NUL. *)
Lemma address_last_byte (p : Z) :
  0 <= p < 2 ^ 56 -> nth 7 (le_encode 8 p) NUL = NUL.
Proof.
  intros H. cbn [le_encode nth].
  rewrite !Z.div_div by lia. rewrite Z.div_small by lia. reflexivity.
Qed.

Lemma prepare_header_offset (s : stream) : 23 <= snd (prepare_header s).
Proof.
  unfold prepare_header, header_put. cbn [snd].
  assert (H : forall z, 0 <= to_uint16 z)
    by (intros z; unfold to_uint16; apply Z.mod_pos_bound; lia).
  change (strlen MAGIC_NAME) with 8.
  destruct (desc s) as [d|]; cbn [snd].
  - pose proof (H (to_uint16 (strlen (name s)) + 1)).
    pose proof (H (to_uint16 (strlen d) + 1)). lia.
  - pose proof (H (to_uint16 (strlen (name s)) + 1)). lia.
Qed.

(** What [write_fileheader] writes starts with the address of the buffer,
    not with the magic bytes. *)
Lemma written_header_start (io : header_io) (n : Z) :
  8 <= n ->
  exists rest, memory_at_header_variable io n = le_encode 8 (hio_header io) ++ rest.
Proof.
  intros Hn. unfold memory_at_header_variable.
  rewrite firstn_app, le_encode_length.
  rewrite firstn_all2 by (rewrite le_encode_length; lia).
  eexists. reflexivity.
Qed.

(** C1 on the code. When [write_fileheader] succeeds, with a write that
    transfers all its bytes and a header buffer allocated below 2^56, the
    file it leaves is not accepted by [read_fileheader]: the file starts
    with the address of the buffer, the magic bytes are not found and the
    stream is not loaded, so no attribute is recovered. *)
Theorem written_header_not_loaded (path : string) (io : header_io) (s s' : stream)
    (sys : system) (filepath : string) (fd : Z) :
  write_fileheader (Some path) io s = (EXIT_SUCCESS, s') ->
  wr_end (hio_write io) = WriteAll ->
  0 <= hio_header io < 2 ^ 56 ->
  sys_open sys filepath = Some (fd, f_data (events s')) ->
  read_fileheader sys filepath = None.
Proof.
  intros Hwrite Hall Haddr Hopen.
  assert (Hdata : exists rest, f_data (events s') = le_encode 8 (hio_header io) ++ rest).
  { unfold write_fileheader in Hwrite.
    assert (Hbody : forall s0,
              events s0 = mkFile [] 0 ->
              (let '(r, f) := write_loop (hio_write io) (events s0)
                                (memory_at_header_variable io (snd (prepare_header s0))) in
               if r =? -1
               then (EXIT_FAILURE,
                     set_events s0 (if hio_revert io then truncate f 0 else f))
               else (EXIT_SUCCESS,
                     set_data (set_events s0 f) (to_uint32 (fst (lseek_cur f 0)))))
              = (EXIT_SUCCESS, s') ->
              exists rest, f_data (events s') = le_encode 8 (hio_header io) ++ rest).
    { intros s0 Hev.
      destruct (written_header_start io (snd (prepare_header s0))) as [rest Hmem];
        [pose proof (prepare_header_offset s0); lia | ].
      rewrite Hev, Hmem. change (mkFile [] 0) with (at_end []).
      unfold write_loop. rewrite write_retry_once, Hall. cbn [write_retry].
      rewrite of_nat_not_minus_one, pwrite_at_end. intros [= <-].
      exists rest. reflexivity. }
    destruct (fd_events s =? -1).
    - destruct (fd_events (set_fd_events s (hio_open io)) =? -1); [discriminate | ].
      now apply Hbody in Hwrite.
    - destruct (hio_ftruncate io); [ | discriminate].
      now apply Hbody in Hwrite. }
  destruct Hdata as [rest Hdata].
  unfold read_fileheader. rewrite Hopen, Hdata.
  change (strlen MAGIC_NAME) with (Z.of_nat (List.length (le_encode 8 (hio_header io)))).
  rewrite (read_into_remaining (mkFile (le_encode 8 (hio_header io) ++ rest) 0)
             (stale_object sys "magic_name" 8) (le_encode 8 (hio_header io)) rest
             eq_refl)
    by (rewrite stale_object_length, le_encode_length; simpl; lia).
  rewrite le_encode_length. change (Z.of_nat 8 <=? 0) with false. cbn iota.
  destruct (strncmp_eq (le_encode 8 (hio_header io)) (list_ascii_of_string MAGIC_NAME)
                       (String.length MAGIC_NAME)) eqn:Ecmp; [ | reflexivity].
  exfalso.
  pose proof (strncmp_eq_nth _ _ _ 7%nat Ecmp) as H.
  rewrite address_last_byte in H by exact Haddr.
  assert (Hm : NUL = nth 7 (list_ascii_of_string MAGIC_NAME) NUL).
  { apply H; [simpl; lia | ].
    intros j Hj. do 8 (destruct j as [|j]; [discriminate | ]). lia. }
  discriminate Hm.
Qed.

(** C1 at an example: the stream "A" with the description "d" and the replay
    flag 1 is created, its file is written and then read. *)
Lemma written_header_not_loaded_witness :
  let created := write_fileheader (Some "/var/streams") header_ok new_stream in
  fst created = EXIT_SUCCESS
  /\ f_data (events (snd created)) <> fst (prepare_header new_stream)
  /\ read_fileheader
       (system_with_file "/var/streams/A.events" (f_data (events (snd created))))
       "/var/streams/A.events"
     = None.
Proof.
  split; [reflexivity | split; [vm_compute; discriminate | ]].
  apply (written_header_not_loaded "/var/streams" header_ok new_stream
           (snd (write_fileheader (Some "/var/streams") header_ok new_stream))
           _ "/var/streams/A.events" 3).
  - reflexivity.
  - reflexivity.
  - vm_compute. split; [discriminate | reflexivity].
  - reflexivity.
Defined.

(** *** The header the function prepares *)

Lemma to_uint16_length (s : string) :
  strlen s + 1 < 2 ^ 16 -> to_uint16 (to_uint16 (strlen s) + 1) = strlen s + 1.
Proof.
  intros H. unfold to_uint16, strlen in *.
  rewrite (Z.mod_small (Z.of_nat (String.length s))) by lia.
  apply Z.mod_small. lia.
Qed.

(** The bytes of the buffer [header], field by field. *)
Lemma prepare_header_fields (s : stream) (d : string) :
  desc s = Some d ->
  strlen (name s) + 1 < 2 ^ 16 -> strlen d + 1 < 2 ^ 16 ->
  fst (prepare_header s)
  = list_ascii_of_string MAGIC_NAME
    ++ le_encode 2 MAGIC_VERSION
    ++ le_encode 2 (strlen (name s) + 1) ++ c_bytes (name s)
    ++ le_encode 2 (strlen d + 1) ++ c_bytes d
    ++ [byte_of_Z (replay s)]
    ++ le_encode 8 (to_uint64 (created s)).
Proof.
  intros Hdesc Hn Hd. unfold prepare_header, header_put. rewrite Hdesc. cbn [fst].
  rewrite !to_uint16_length by assumption.
  rewrite (firstn_all2 (le_encode 2 MAGIC_VERSION))
    by (rewrite le_encode_length; simpl; lia).
  rewrite (firstn_all2 (le_encode 2 (strlen (name s) + 1)))
    by (rewrite le_encode_length; simpl; lia).
  rewrite (firstn_all2 (le_encode 2 (strlen d + 1)))
    by (rewrite le_encode_length; simpl; lia).
  rewrite (firstn_all2 (le_encode 8 (to_uint64 (created s))))
    by (rewrite le_encode_length; simpl; lia).
  rewrite (firstn_all2 (c_bytes (name s)))
    by (rewrite c_bytes_length; unfold strlen; lia).
  rewrite (firstn_all2 (c_bytes d))
    by (rewrite c_bytes_length; unfold strlen; lia).
  change (firstn (Z.to_nat (strlen MAGIC_NAME)) (list_ascii_of_string MAGIC_NAME))
    with (list_ascii_of_string MAGIC_NAME).
  change (firstn (Z.to_nat 1) [byte_of_Z (replay s)]) with [byte_of_Z (replay s)].
  cbn [app]. now rewrite <- !app_assoc.
Qed.

(** X1. A file that starts with the bytes the function prepares is accepted
    by [read_fileheader], which recovers the name, the description, the
    replay flag and the time of creation, and leaves the descriptor where
    the records start. *)
Lemma prepared_header_loads (sys : system) (filepath : string) (fd : Z)
    (s : stream) (d : string) (records : list ascii) :
  desc s = Some d ->
  no_nul (list_ascii_of_string (name s)) -> no_nul (list_ascii_of_string d) ->
  strlen (name s) + 1 < 2 ^ 16 -> strlen d + 1 < 2 ^ 16 ->
  0 <= replay s < 2 ^ 8 ->
  - 2 ^ 63 <= created s < 2 ^ 63 ->
  sys_open sys filepath = Some (fd, fst (prepare_header s) ++ records) ->
  exists s',
    read_fileheader sys filepath = Some s'
    /\ name s' = name s /\ desc s' = desc s
    /\ replay s' = replay s /\ created s' = created s
    /\ remaining (events s') = records.
Proof.
  intros Hdesc Hnn Hnd Hln Hld Hreplay Hcreated Hopen.
  unfold read_fileheader. rewrite Hopen.
  rewrite (prepare_header_fields s d Hdesc Hln Hld), <- !app_assoc.
  set (M := list_ascii_of_string MAGIC_NAME).
  set (V := le_encode 2 MAGIC_VERSION).
  set (L1 := le_encode 2 (strlen (name s) + 1)).
  set (N := c_bytes (name s)).
  set (L2 := le_encode 2 (strlen d + 1)).
  set (D := c_bytes d).
  set (R := [byte_of_Z (replay s)]).
  set (T := le_encode 8 (to_uint64 (created s))).
  set (bytes := M ++ V ++ L1 ++ N ++ L2 ++ D ++ R ++ T ++ records).
  assert (HN : Z.of_nat (List.length N) = strlen (name s) + 1)
    by (unfold N; rewrite c_bytes_length; unfold strlen; lia).
  assert (HD : Z.of_nat (List.length D) = strlen d + 1)
    by (unfold D; rewrite c_bytes_length; unfold strlen; lia).
  assert (R0 : remaining (mkFile bytes 0) = M ++ V ++ L1 ++ N ++ L2 ++ D ++ R ++ T ++ records)
    by reflexivity.
  pose proof (read_into_remaining _ (stale_object sys "magic_name" 8) M _ R0
                ltac:(rewrite stale_object_length; simpl; lia)) as E1.
  pose proof (remaining_advance _ M _ R0) as R1. cbn [f_data f_pos] in E1, R1.
  pose proof (read_into_remaining _ (stale_object sys "magic_number" 2) V _ R1
                ltac:(rewrite stale_object_length; simpl; lia)) as E2.
  pose proof (remaining_advance _ V _ R1) as R2. cbn [f_data f_pos] in E2, R2.
  pose proof (read_into_remaining _ (stale_object sys "len" 2) L1 _ R2
                ltac:(rewrite stale_object_length; simpl; lia)) as E3.
  pose proof (remaining_advance _ L1 _ R2) as R3. cbn [f_data f_pos] in E3, R3.
  pose proof (read_into_remaining _ (stale_object sys "name" (strlen (name s) + 1)) N _ R3
                ltac:(rewrite stale_object_length; lia)) as E4.
  pose proof (remaining_advance _ N _ R3) as R4. cbn [f_data f_pos] in E4, R4.
  pose proof (read_into_remaining _ L1 L2 _ R4
                ltac:(unfold L1, L2; rewrite !le_encode_length; lia)) as E5.
  pose proof (remaining_advance _ L2 _ R4) as R5. cbn [f_data f_pos] in E5, R5.
  pose proof (read_into_remaining _ (stale_object sys "desc" (strlen d + 1)) D _ R5
                ltac:(rewrite stale_object_length; lia)) as E6.
  pose proof (remaining_advance _ D _ R5) as R6. cbn [f_data f_pos] in E6, R6.
  pose proof (read_into_remaining _ (stale_object sys "replay" 1) R _ R6
                ltac:(rewrite stale_object_length; simpl; lia)) as E7.
  pose proof (remaining_advance _ R _ R6) as R7. cbn [f_data f_pos] in E7, R7.
  pose proof (read_into_remaining _ (stale_object sys "t" 8) T _ R7
                ltac:(rewrite stale_object_length; simpl; lia)) as E8.
  pose proof (remaining_advance _ T _ R7) as R8. cbn [f_data f_pos] in E8, R8.
  rewrite HN in E4. rewrite HD in E6.
  change (Z.of_nat (List.length M)) with 8 in E1.
  change (Z.of_nat (List.length V)) with 2 in E2.
  change (Z.of_nat (List.length L1)) with 2 in E3.
  change (Z.of_nat (List.length L2)) with 2 in E5.
  change (Z.of_nat (List.length R)) with 1 in E7.
  change (Z.of_nat (List.length T)) with 8 in E8.
  change (strlen MAGIC_NAME) with 8.
  rewrite E1. change (8 <=? 0) with false. cbn iota.
  assert (Hmagic : strncmp_eq M M (String.length MAGIC_NAME) = true) by reflexivity.
  rewrite Hmagic. cbn [negb]. cbn iota.
  rewrite E2. change (2 <=? 0) with false. cbn iota.
  rewrite E3. change (2 <=? 0) with false. cbn iota.
  assert (HL1 : le_decode L1 = strlen (name s) + 1).
  { unfold L1. apply le_decode_encode_small. unfold strlen in *. simpl. lia. }
  assert (HL2 : le_decode L2 = strlen d + 1).
  { unfold L2. apply le_decode_encode_small. unfold strlen in *. simpl. lia. }
  rewrite HL1, E4.
  destruct (Z.leb_spec (strlen (name s) + 1) 0) as [Hle|_];
    [unfold strlen in Hle; lia | ].
  rewrite E5. change (2 <=? 0) with false. cbn iota.
  rewrite HL2, E6.
  destruct (Z.leb_spec (strlen d + 1) 0) as [Hle|_]; [unfold strlen in Hle; lia | ].
  rewrite E7. change (1 <=? 0) with false. cbn iota.
  rewrite E8. change (8 <=? 0) with false. cbn iota.
  eexists. split; [reflexivity | ].
  cbn [name desc replay created events].
  unfold N, D. rewrite !c_string_c_bytes by assumption.
  repeat split.
  - now rewrite Hdesc.
  - unfold R. cbn [le_decode]. rewrite Z_of_byte_of_Z, Z.mod_small; lia.
  - unfold T. rewrite le_decode_encode_small
      by (unfold to_uint64; simpl; apply Z.mod_pos_bound; lia).
    unfold to_time_t, to_signed, to_uint64. rewrite Z.mod_mod by lia.
    change (64 - 1) with 63.
    destruct (Z.le_gt_cases 0 (created s)) as [Hpos|Hneg].
    + rewrite Z.mod_small by lia.
      destruct (Z.ltb_spec (created s) (2 ^ 63)); lia.
    + replace (created s mod 2 ^ 64) with (created s + 2 ^ 64)
        by (apply Z.mod_unique with (q := -1); lia).
      destruct (Z.ltb_spec (created s + 2 ^ 64) (2 ^ 63)); lia.
  - exact R8.
Qed.

(** ** Loading a stream file *)

Lemma read_into_eq (f : file) (old : list ascii) (n : Z) :
  read_into f old n
  = (Z.of_nat (List.length (firstn (Z.to_nat n) (remaining f))),
     fill old (firstn (Z.to_nat n) (remaining f)),
     mkFile (f_data f)
            (f_pos f + List.length (firstn (Z.to_nat n) (remaining f)))).
Proof. reflexivity. Qed.

Lemma skipn_nil_ge {A : Type} (n m : nat) (l : list A) :
  skipn n l = [] -> (n <= m)%nat -> skipn m l = [].
Proof.
  intros H Hm. apply skipn_all2.
  assert (Hl : List.length (skipn n l) = O) by now rewrite H.
  rewrite length_skipn in Hl. lia.
Qed.

(** A read that is cut short by the end of the file leaves nothing for the
    next one. *)
Lemma read_into_short (f : file) (old : list ascii) (n : Z) (r : Z)
    (obj : list ascii) (f' : file) (old' : list ascii) (n' : Z) :
  read_into f old n = (r, obj, f') -> r < n ->
  fst (fst (read_into f' old' n')) = 0.
Proof.
  rewrite read_into_eq. intros [= <- <- <-] Hr.
  rewrite read_into_eq. cbn [fst]. unfold remaining in *. cbn [f_data f_pos].
  rewrite length_firstn, length_skipn in Hr.
  rewrite skipn_all2; [now destruct (Z.to_nat n') | ].
  rewrite length_firstn, length_skipn. lia.
Qed.

Lemma strncmp_eq_magic (buf : list ascii) :
  List.length buf = 8%nat ->
  strncmp_eq buf (list_ascii_of_string MAGIC_NAME) (String.length MAGIC_NAME) = true ->
  buf = list_ascii_of_string MAGIC_NAME.
Proof.
  intros Hlen Hcmp.
  assert (Hnth : forall k, (k < 8)%nat ->
            nth k buf NUL = nth k (list_ascii_of_string MAGIC_NAME) NUL).
  { intros k Hk. apply (strncmp_eq_nth _ _ _ k Hcmp); [exact Hk | ].
    intros j Hj. do 8 (destruct j as [|j]; [discriminate | ]). lia. }
  do 8 (destruct buf as [|? buf]; [discriminate | ]).
  destruct buf; [ | discriminate].
  pose proof (Hnth 0%nat ltac:(lia)) as H0. pose proof (Hnth 1%nat ltac:(lia)) as H1.
  pose proof (Hnth 2%nat ltac:(lia)) as H2. pose proof (Hnth 3%nat ltac:(lia)) as H3.
  pose proof (Hnth 4%nat ltac:(lia)) as H4. pose proof (Hnth 5%nat ltac:(lia)) as H5.
  pose proof (Hnth 6%nat ltac:(lia)) as H6. pose proof (Hnth 7%nat ltac:(lia)) as H7.
  cbn [nth] in *. now subst.
Qed.

(** X2. A file that [read_fileheader] accepts starts with the magic bytes
    "NCSTREAM". The stream returned carries the descriptor of the file, is
    not locked, has no rules mapped yet, and its field [data] is the offset
    the descriptor is left at, after the header, as [unsigned int]. *)
Theorem loaded_stream_file (sys : system) (filepath : string) (s : stream) :
  read_fileheader sys filepath = Some s ->
  exists fd rest,
    sys_open sys filepath = Some (fd, list_ascii_of_string MAGIC_NAME ++ rest)
    /\ fd_events s = fd /\ fd_rules s = -1 /\ locked s = 0 /\ rules s = []
    /\ f_data (events s) = list_ascii_of_string MAGIC_NAME ++ rest
    /\ data s = to_uint32 (Z.of_nat (f_pos (events s))).
Proof.
  unfold read_fileheader.
  destruct (sys_open sys filepath) as [[fd bytes]|] eqn:Hopen; [ | discriminate].
  destruct (read_into (mkFile bytes 0) (stale_object sys "magic_name" 8)
              (strlen MAGIC_NAME)) as [[r1 magic_name] f1] eqn:E1.
  destruct (r1 <=? 0) eqn:R1; [discriminate | ].
  destruct (strncmp_eq magic_name _ _) eqn:Hmagic; [ | discriminate]. cbn [negb].
  destruct (read_into f1 _ 2) as [[r2 magic_number] f2] eqn:E2.
  destruct (r2 <=? 0) eqn:R2; [discriminate | ].
  destruct (read_into f2 _ 2) as [[r3 len] f3] eqn:E3.
  destruct (r3 <=? 0); [discriminate | ].
  destruct (read_into f3 _ _) as [[r4 s_name] f4] eqn:E4.
  destruct (r4 <=? 0); [discriminate | ].
  destruct (read_into f4 _ 2) as [[r5 len'] f5] eqn:E5.
  destruct (r5 <=? 0); [discriminate | ].
  destruct (read_into f5 _ _) as [[r6 s_desc] f6] eqn:E6.
  destruct (r6 <=? 0); [discriminate | ].
  destruct (read_into f6 _ 1) as [[r7 s_replay] f7] eqn:E7.
  destruct (r7 <=? 0); [discriminate | ].
  destruct (read_into f7 _ 8) as [[r8 t] f8] eqn:E8.
  destruct (r8 <=? 0); [discriminate | ].
  intros [= <-]. cbn [fd_events fd_rules locked rules events data].
  (* the first read gave the eight magic bytes *)
  assert (Hr1 : r1 = 8).
  { destruct (Z.eq_dec r1 8) as [|Hne]; [assumption | exfalso].
    pose proof (read_into_short _ _ _ _ _ _ (stale_object sys "magic_number" 2) 2 E1) as H.
    rewrite E2 in H. cbn [fst] in H.
    rewrite read_into_eq in E1.
    pose proof (f_equal (fun x => fst (fst x)) E1) as Hr. cbn [fst] in Hr.
    rewrite length_firstn in Hr. change (Z.to_nat (strlen MAGIC_NAME)) with 8%nat in Hr.
    change (strlen MAGIC_NAME) with 8 in H. lia. }
  rewrite read_into_eq in E1.
  pose proof (f_equal (fun x => fst (fst x)) E1) as Hlen.
  pose proof (f_equal (fun x => snd (fst x)) E1) as Hname.
  pose proof (f_equal snd E1) as Hf1. cbn [fst snd] in Hlen, Hname, Hf1. clear E1.
  change (Z.to_nat (strlen MAGIC_NAME)) with 8%nat in *.
  change (remaining (mkFile bytes 0)) with bytes in *.
  assert (Hgot : List.length (firstn 8 bytes) = 8%nat) by (clear - Hlen Hr1; lia).
  rewrite fill_full in Hname
    by (rewrite stale_object_length; change (Z.to_nat 8) with 8%nat; lia).
  subst magic_name. apply strncmp_eq_magic in Hmagic; [ | exact Hgot].
  exists fd, (skipn 8 bytes).
  rewrite <- Hmagic, firstn_skipn.
  assert (Hd : forall f o n r ob f', read_into f o n = (r, ob, f') -> f_data f' = f_data f)
    by (intros f o n r ob f'; rewrite read_into_eq; now intros [= _ _ <-]).
  rewrite (Hd _ _ _ _ _ _ E8), (Hd _ _ _ _ _ _ E7), (Hd _ _ _ _ _ _ E6),
    (Hd _ _ _ _ _ _ E5), (Hd _ _ _ _ _ _ E4), (Hd _ _ _ _ _ _ E3), (Hd _ _ _ _ _ _ E2).
  subst f1. cbn [f_data]. rewrite lseek_cur_0. cbn [fst].
  repeat split; reflexivity.
Qed.

Lemma stale_object_ext (sys sys' : system) (nm : string) (n : Z) :
  (forall nm i, sys_stale sys' nm i = sys_stale sys nm i) ->
  stale_object sys' nm n = stale_object sys nm n.
Proof. intros H. unfold stale_object. apply map_ext. intros i. apply H. Qed.

(** Two descriptors with the same bytes ahead of them read the same. *)
Lemma read_into_same (f f' : file) (old : list ascii) (n : Z) :
  remaining f = remaining f' -> f_pos f = f_pos f' ->
  exists r obj k,
    read_into f old n = (r, obj, mkFile (f_data f) k)
    /\ read_into f' old n = (r, obj, mkFile (f_data f') k)
    /\ remaining (mkFile (f_data f) k) = remaining (mkFile (f_data f') k).
Proof.
  intros Hrem Hpos. rewrite !read_into_eq, <- Hrem, <- Hpos.
  eexists _, _, _. split; [reflexivity | split; [reflexivity | ]].
  unfold remaining in *. cbn [f_data f_pos].
  rewrite Nat.add_comm, <- !skipn_skipn, Hrem, Hpos. reflexivity.
Qed.

Lemma read_into_exact (f : file) (old x rest : list ascii) (n : Z) :
  remaining f = x ++ rest -> n = Z.of_nat (List.length x) ->
  (List.length old <= List.length x)%nat ->
  read_into f old n = (n, x, mkFile (f_data f) (f_pos f + List.length x)).
Proof. intros H -> Hl. now apply read_into_remaining with (rest := rest). Qed.

(** X3. The two bytes of the version, which follow the magic bytes, are read
    and never looked at: two files that differ in them only are both
    refused, or both loaded as the same stream. *)
Theorem stream_file_version_ignored (sys sys' : system) (filepath : string) (fd : Z)
    (v v' rest : list ascii) :
  List.length v = 2%nat -> List.length v' = 2%nat ->
  (forall nm i, sys_stale sys' nm i = sys_stale sys nm i) ->
  sys_open sys filepath = Some (fd, list_ascii_of_string MAGIC_NAME ++ v ++ rest) ->
  sys_open sys' filepath = Some (fd, list_ascii_of_string MAGIC_NAME ++ v' ++ rest) ->
  read_fileheader sys' filepath
  = option_map
      (fun s => set_events s (mkFile (list_ascii_of_string MAGIC_NAME ++ v' ++ rest)
                                     (f_pos (events s))))
      (read_fileheader sys filepath).
Proof.
  intros Hv Hv' Hstale Hopen Hopen'.
  unfold read_fileheader. rewrite Hopen, Hopen'.
  rewrite !(stale_object_ext sys sys') by exact Hstale.
  set (M := list_ascii_of_string MAGIC_NAME).
  set (B := M ++ v ++ rest). set (B' := M ++ v' ++ rest).
  change (strlen MAGIC_NAME) with (Z.of_nat (List.length M)).
  rewrite (read_into_remaining (mkFile B 0) _ M (v ++ rest) eq_refl)
    by (rewrite stale_object_length; simpl; lia).
  rewrite (read_into_remaining (mkFile B' 0) _ M (v' ++ rest) eq_refl)
    by (rewrite stale_object_length; simpl; lia).
  change (Z.of_nat (List.length M) <=? 0) with false. cbn iota.
  destruct (negb (strncmp_eq M M (String.length MAGIC_NAME))); [reflexivity | ].
  cbn [f_data f_pos].
  assert (R : remaining (mkFile B (0 + List.length M)) = v ++ rest) by reflexivity.
  assert (R' : remaining (mkFile B' (0 + List.length M)) = v' ++ rest) by reflexivity.
  rewrite (read_into_exact _ _ v rest 2 R)
    by (rewrite ?stale_object_length, Hv; simpl; lia).
  rewrite (read_into_exact _ _ v' rest 2 R')
    by (rewrite ?stale_object_length, Hv'; simpl; lia).
  rewrite Hv, Hv'. change (2 <=? 0) with false. cbn iota.
  cbn [f_data f_pos].
  pose proof (remaining_advance _ v rest R) as R1.
  pose proof (remaining_advance _ v' rest R') as R1'.
  cbn [f_data f_pos] in R1, R1'. rewrite Hv in R1. rewrite Hv' in R1'.
  assert (Hrem : remaining (mkFile B (0 + List.length M + 2))
                 = remaining (mkFile B' (0 + List.length M + 2))) by congruence.
  clear R R' R1 R1'.
  generalize dependent (0 + List.length M + 2)%nat. intros k Hrem.
  destruct (read_into_same _ _ (stale_object sys "len" 2) 2 Hrem eq_refl)
    as (r3 & len & k3 & E & E' & Hrem3).
  cbn [f_data] in E, E', Hrem3. rewrite E, E'. clear E E'.
  destruct (r3 <=? 0); [reflexivity | ].
  rewrite !(stale_object_ext sys sys') by exact Hstale.
  destruct (read_into_same _ _ (stale_object sys "name" (le_decode len)) (le_decode len)
              Hrem3 eq_refl) as (r4 & s_name & k4 & E & E' & Hrem4).
  cbn [f_data] in E, E', Hrem4. rewrite E, E'. clear E E'.
  destruct (r4 <=? 0); [reflexivity | ].
  destruct (read_into_same _ _ len 2 Hrem4 eq_refl) as (r5 & len' & k5 & E & E' & Hrem5).
  cbn [f_data] in E, E', Hrem5. rewrite E, E'. clear E E'.
  destruct (r5 <=? 0); [reflexivity | ].
  rewrite !(stale_object_ext sys sys') by exact Hstale.
  destruct (read_into_same _ _ (stale_object sys "desc" (le_decode len')) (le_decode len')
              Hrem5 eq_refl) as (r6 & s_desc & k6 & E & E' & Hrem6).
  cbn [f_data] in E, E', Hrem6. rewrite E, E'. clear E E'.
  destruct (r6 <=? 0); [reflexivity | ].
  destruct (read_into_same _ _ (stale_object sys "replay" 1) 1 Hrem6 eq_refl)
    as (r7 & s_replay & k7 & E & E' & Hrem7).
  cbn [f_data] in E, E', Hrem7. rewrite E, E'. clear E E'.
  destruct (r7 <=? 0); [reflexivity | ].
  destruct (read_into_same _ _ (stale_object sys "t" 8) 8 Hrem7 eq_refl)
    as (r8 & t & k8 & E & E' & Hrem8).
  cbn [f_data] in E, E', Hrem8. rewrite E, E'. clear E E'.
  destruct (r8 <=? 0); [reflexivity | ].
  cbn [option_map]. unfold set_events. cbn [fd_events fd_rules name desc replay created
    locked rules data events f_pos].
  rewrite !lseek_cur_0. reflexivity.
Qed.

(** X1 at an example: the header of the stream "A" followed by three
    records. *)
Lemma prepared_header_loads_witness :
  exists s',
    read_fileheader
      (system_with_file "/var/streams/A.events"
         (fst (prepare_header new_stream) ++ encode_records stored_records))
      "/var/streams/A.events" = Some s'
    /\ name s' = "A" /\ desc s' = Some "d" /\ replay s' = 1 /\ created s' = 1000
    /\ remaining (events s') = encode_records stored_records.
Proof.
  apply (prepared_header_loads
           (system_with_file "/var/streams/A.events"
              (fst (prepare_header new_stream) ++ encode_records stored_records))
           "/var/streams/A.events" 3 new_stream "d" (encode_records stored_records)).
  - reflexivity.
  - apply no_nul_check. reflexivity.
  - apply no_nul_check. reflexivity.
  - reflexivity.
  - reflexivity.
  - cbn [replay new_stream]. lia.
  - cbn [created new_stream]. lia.
  - reflexivity.
Defined.

(** X2 at an example: the file that holds the header of the stream "A". *)
Lemma loaded_stream_file_witness :
  exists fd rest,
    sys_open (system_with_file "/var/streams/A.events" (fst (prepare_header new_stream)))
             "/var/streams/A.events"
    = Some (fd, list_ascii_of_string MAGIC_NAME ++ rest)
    /\ fd_events loaded_stream = fd /\ fd_rules loaded_stream = -1
    /\ locked loaded_stream = 0 /\ rules loaded_stream = []
    /\ f_data (events loaded_stream) = list_ascii_of_string MAGIC_NAME ++ rest
    /\ data loaded_stream = to_uint32 (Z.of_nat (f_pos (events loaded_stream))).
Proof.
  apply (loaded_stream_file
           (system_with_file "/var/streams/A.events" (fst (prepare_header new_stream)))
           "/var/streams/A.events" loaded_stream).
  vm_compute. reflexivity.
Defined.

(** X3 at an example: the file of the stream "A" with the version 0xFF02. *)
Lemma stream_file_version_ignored_witness :
  read_fileheader
    (system_with_file "/var/streams/A.events"
       (list_ascii_of_string MAGIC_NAME ++ le_encode 2 0xFF02 ++ header_after_version))
    "/var/streams/A.events"
  = option_map
      (fun s => set_events s
                  (mkFile (list_ascii_of_string MAGIC_NAME ++ le_encode 2 0xFF02
                           ++ header_after_version)
                          (f_pos (events s))))
      (read_fileheader
         (system_with_file "/var/streams/A.events"
            (list_ascii_of_string MAGIC_NAME ++ le_encode 2 MAGIC_VERSION
             ++ header_after_version))
         "/var/streams/A.events").
Proof.
  apply (stream_file_version_ignored _ _ "/var/streams/A.events" 3
           (le_encode 2 MAGIC_VERSION) (le_encode 2 0xFF02) header_after_version).
  - reflexivity.
  - reflexivity.
  - reflexivity.
  - reflexivity.
  - reflexivity.
Defined.

(** ** Allowing events in a region with room *)

Lemma c_str_self_no_nul (buf : list ascii) : no_nul (c_str buf).
Proof.
  induction buf as [|c buf IH]; simpl; [constructor | ].
  destruct (Ascii.eqb_spec c NUL); [constructor | ]. now constructor.
Qed.

Lemma c_str_split (buf : list ascii) :
  exists rest, buf = c_str buf ++ rest /\ (rest = [] \/ exists r, rest = NUL :: r).
Proof.
  induction buf as [|c buf (rest & IH & Hrest)]; simpl.
  - exists []. auto.
  - destruct (Ascii.eqb_spec c NUL) as [->|Hc].
    + exists (NUL :: buf). split; [reflexivity | right; now exists buf].
    + exists rest. split; [cbn [app]; f_equal; exact IH | exact Hrest].
Qed.

Lemma last_index_app_last (c : ascii) (body : list ascii) :
  last_index c (body ++ [c]) = Some (List.length body).
Proof.
  induction body as [|x body IH]; simpl.
  - now rewrite Ascii.eqb_refl.
  - now rewrite IH.
Qed.

(** In a text made of whole lines a new line starts at the end. *)
Lemma line_end_terminated (text : list ascii) :
  terminated text ->
  match last_index LF text with None => O | Some e => S e end = List.length text.
Proof.
  intros [-> | [body ->]]; [reflexivity | ].
  rewrite last_index_app_last, length_app. simpl. lia.
Qed.

Lemma split_on_not_nil (d : ascii) (s : list ascii) : split_on d s <> [].
Proof.
  destruct s as [|c s]; simpl; [discriminate | ].
  destruct (Ascii.eqb c d); [discriminate | ].
  destruct (split_on d s); discriminate.
Qed.

Lemma split_on_app (d : ascii) (a b : list ascii) :
  split_on d (a ++ d :: b) = split_on d a ++ split_on d b.
Proof.
  induction a as [|c a IH]; simpl.
  - now rewrite Ascii.eqb_refl.
  - destruct (Ascii.eqb c d); [now rewrite IH | ].
    rewrite IH. pose proof (split_on_not_nil d a) as Hne.
    destruct (split_on d a) as [|seg segs]; [contradiction | reflexivity].
Qed.

Lemma split_on_one (d : ascii) (a : list ascii) :
  ~ In d a -> split_on d a = [a].
Proof.
  induction a as [|c a IH]; intros Hin; simpl; [reflexivity | ].
  destruct (Ascii.eqb_spec c d) as [->|_]; [exfalso; apply Hin; now left | ].
  rewrite IH; [reflexivity | ]. intros H. apply Hin. now right.
Qed.

Lemma strtok_tokens_app (d : ascii) (a b : list ascii) :
  strtok_tokens d (a ++ d :: b) = strtok_tokens d a ++ strtok_tokens d b.
Proof. unfold strtok_tokens. now rewrite split_on_app, filter_app. Qed.

(** The tokens of a text of whole lines to which one more line is added. *)
Lemma strtok_tokens_line (text line : list ascii) :
  terminated text -> line <> [] -> ~ In LF line ->
  strtok_tokens LF (text ++ line ++ [LF]) = strtok_tokens LF text ++ [line].
Proof.
  intros Hterm Hne Hin.
  assert (Hline : strtok_tokens LF (line ++ [LF]) = [line]).
  { rewrite strtok_tokens_app. unfold strtok_tokens. rewrite split_on_one by exact Hin.
    destruct line; [contradiction | reflexivity]. }
  destruct Hterm as [-> | [body ->]]; [exact Hline | ].
  rewrite <- app_assoc. cbn [app].
  rewrite (strtok_tokens_app LF body (line ++ [LF])), Hline.
  rewrite (strtok_tokens_app LF body []).
  change (strtok_tokens LF []) with (@nil (list ascii)). now rewrite app_nil_r.
Qed.

Lemma list_ascii_eqb_strings (a b : string) :
  list_ascii_eqb (list_ascii_of_string a) (list_ascii_of_string b) = String.eqb a b.
Proof.
  destruct (String.eqb_spec a b) as [->|Hne].
  - now apply list_ascii_eqb_spec.
  - destruct (list_ascii_eqb _ _) eqn:E; [ | reflexivity].
    apply list_ascii_eqb_spec in E. exfalso. apply Hne.
    rewrite <- (string_of_list_ascii_of_string a), <- (string_of_list_ascii_of_string b).
    now rewrite E.
Qed.

(** [strcpy] into a place of the memory that holds the copy. *)
Lemma strcpy_at_inside (pre old rest : list ascii) (src : string) :
  List.length old = S (String.length src) ->
  strcpy_at (pre ++ old ++ rest) (List.length pre) src = pre ++ c_bytes src ++ rest.
Proof.
  intros Hold. unfold strcpy_at.
  rewrite firstn_app_exact, length_app, c_bytes_length.
  replace (List.length pre - (List.length pre + List.length (old ++ rest)))%nat with O by lia.
  cbn [repeat app].
  rewrite (Nat.add_comm (List.length pre)), <- skipn_skipn, skipn_app_exact.
  rewrite <- Hold, skipn_app_exact. reflexivity.
Qed.

(** The two copies of [ncntf_stream_allow_events] in a region with room. *)
Lemma new_rule_stored (region : list ascii) (ev : string) :
  has_room region ev ->
  no_nul (list_ascii_of_string ev) ->
  let pos := List.length (c_str region) in
  let mem := strcpy_at region pos ev in
  let mem := strcpy_at mem (pos + String.length ev) (String LF EmptyString) in
  List.length mem = List.length region
  /\ c_str mem = c_str region ++ list_ascii_of_string ev ++ [LF].
Proof.
  intros Hroom Hev. cbv zeta.
  destruct (c_str_split region) as (rest & Hsplit & _).
  set (text := c_str region) in *. unfold has_room in Hroom. fold text in Hroom.
  assert (Hlen : List.length region = (List.length text + List.length rest)%nat)
    by (rewrite Hsplit at 1; apply length_app).
  set (n := String.length ev) in *.
  assert (Hrest : rest = firstn (S n) rest ++ firstn 1 (skipn (S n) rest)
                         ++ skipn 1 (skipn (S n) rest))
    by now rewrite !firstn_skipn.
  set (old1 := firstn (S n) rest) in *.
  set (old2 := firstn 1 (skipn (S n) rest)) in *.
  set (tail := skipn 1 (skipn (S n) rest)) in *.
  assert (Hold1 : List.length old1 = S n) by (unfold old1; rewrite length_firstn; lia).
  assert (Hold2 : List.length old2 = 1%nat)
    by (unfold old2; rewrite length_firstn, length_skipn; lia).
  assert (Hmem : strcpy_at (strcpy_at region (List.length text) ev)
                            (List.length text + n) (String LF EmptyString)
                  = (text ++ list_ascii_of_string ev ++ [LF]) ++ NUL :: tail).
  { rewrite Hsplit at 1. rewrite Hrest at 1.
    rewrite (strcpy_at_inside text old1 (old2 ++ tail) ev Hold1).
    unfold c_bytes at 1. rewrite <- !app_assoc.
    replace (List.length text + n)%nat
      with (List.length (text ++ list_ascii_of_string ev))
      by (rewrite length_app, length_list_ascii_of_string; reflexivity).
    change ([NUL] ++ old2 ++ tail) with ((NUL :: old2) ++ tail).
    rewrite (app_assoc text).
    rewrite (strcpy_at_inside (text ++ list_ascii_of_string ev) (NUL :: old2) tail
               (String LF EmptyString)) by (simpl; lia).
    change (c_bytes (String LF EmptyString)) with ([LF] ++ [NUL]).
    rewrite <- !app_assoc. reflexivity. }
  rewrite Hmem. split.
  - rewrite Hlen, Hrest. rewrite !length_app, Hold1, Hold2.
    rewrite length_list_ascii_of_string. fold n. cbn [List.length]. lia.
  - rewrite c_str_app_nul; [reflexivity | ].
    unfold no_nul. rewrite !Forall_app. repeat split.
    + apply c_str_self_no_nul.
    + exact Hev.
    + constructor; [discriminate | constructor].
Qed.

Lemma find_stream_put (g : globals) (nm : string) (i : nat) (s s' : stream) :
  find_stream (streams g) nm = Some i -> nth_error (streams g) i = Some s ->
  name s' = name s ->
  find_stream (streams (put_stream g i s')) nm = Some i
  /\ nth_error (streams (put_stream g i s')) i = Some s'.
Proof.
  intros Hfind Hnth Hname.
  destruct (find_stream_nth _ _ _ Hfind) as (s0 & Hnth0 & Hnm).
  assert (s0 = s) by congruence. subst s0.
  unfold put_stream. cbn [streams set_streams]. split.
  - apply find_stream_update; [exact Hfind | congruence].
  - now apply nth_error_update_nth_eq with (y := s).
Qed.

(** The call for a stream of the list in which the event is not allowed
    yet: the two copies are made after the last newline of the text. *)
Lemma allow_events_listed (sys : system) (g : globals) (nm ev : string) (i : nat)
    (s : stream) :
  find_stream (streams g) nm = Some i ->
  nth_error (streams g) i = Some s ->
  allowed_in (streams g) nm ev = false ->
  let pos := match last_index LF (c_str (rules s)) with None => O | Some e => S e end in
  let mem := strcpy_at (rules s) pos ev in
  let mem := strcpy_at mem (pos + String.length ev) (String LF EmptyString) in
  ncntf_stream_allow_events sys g (Some nm) (Some ev)
  = (EXIT_SUCCESS,
     put_stream g i (set_rules s (firstn (List.length (rules s)) mem)),
     skipn (List.length (rules s)) mem).
Proof.
  intros Hfind Hnth Hnot. cbv zeta. unfold ncntf_stream_allow_events.
  rewrite (isallowed_listed sys g nm ev i Hfind), Hnot. cbn [negb Z.eqb].
  unfold ncntf_stream_get. rewrite Hfind, Hnth. reflexivity.
Qed.

(** In a region with room whose text is made of whole lines the new line
    goes after the text and the region keeps its size. *)
Lemma allow_events_in_room (sys : system) (g : globals) (nm ev : string) (i : nat)
    (s : stream) :
  find_stream (streams g) nm = Some i ->
  nth_error (streams g) i = Some s ->
  terminated (c_str (rules s)) ->
  has_room (rules s) ev ->
  no_nul (list_ascii_of_string ev) ->
  allowed_in (streams g) nm ev = false ->
  exists region,
    ncntf_stream_allow_events sys g (Some nm) (Some ev)
    = (EXIT_SUCCESS, put_stream g i (set_rules s region), [])
    /\ List.length region = List.length (rules s)
    /\ c_str region = c_str (rules s) ++ list_ascii_of_string ev ++ [LF].
Proof.
  intros Hfind Hnth Hterm Hroom Hev Hnot.
  destruct (new_rule_stored (rules s) ev Hroom Hev) as [Hlen Hc].
  rewrite (allow_events_listed sys g nm ev i s Hfind Hnth Hnot).
  rewrite (line_end_terminated _ Hterm).
  eexists. split; [ | split].
  - rewrite firstn_all2 by (rewrite Hlen; lia).
    rewrite skipn_all2 by (rewrite Hlen; lia). reflexivity.
  - exact Hlen.
  - exact Hc.
Qed.

(** X4. In a region with room whose text is made of whole lines,
    [ncntf_stream_allow_events] adds the event as one more line: it returns
    EXIT_SUCCESS, stores nothing past the region, leaves the other streams
    as they are, and the text it leaves is again made of whole lines. *)
Theorem allow_events_appends (sys : system) (g : globals) (nm ev : string) (i : nat)
    (s : stream) :
  find_stream (streams g) nm = Some i ->
  nth_error (streams g) i = Some s ->
  terminated (c_str (rules s)) ->
  has_room (rules s) ev ->
  no_nul (list_ascii_of_string ev) ->
  allowed_in (streams g) nm ev = false ->
  exists g' s',
    ncntf_stream_allow_events sys g (Some nm) (Some ev) = (EXIT_SUCCESS, g', [])
    /\ nth_error (streams g') i = Some s'
    /\ (forall j, j <> i -> nth_error (streams g') j = nth_error (streams g) j)
    /\ List.length (rules s') = List.length (rules s)
    /\ c_str (rules s') = c_str (rules s) ++ list_ascii_of_string ev ++ [LF]
    /\ terminated (c_str (rules s'))
    /\ name s' = name s /\ events s' = events s.
Proof.
  intros Hfind Hnth Hterm Hroom Hev Hnot.
  destruct (allow_events_in_room sys g nm ev i s Hfind Hnth Hterm Hroom Hev Hnot)
    as (region & Hcall & Hlen & Hc).
  exists (put_stream g i (set_rules s region)), (set_rules s region).
  split; [exact Hcall | ]. cbn [rules set_rules name events].
  split; [ | split; [ | split; [exact Hlen | split; [exact Hc | split]]]].
  - now apply (find_stream_put g nm i s).
  - intros j Hj. unfold put_stream. cbn [streams set_streams].
    apply nth_error_update_nth_neq. congruence.
  - right. rewrite Hc. exists (c_str (rules s) ++ list_ascii_of_string ev).
    now rewrite <- app_assoc.
  - split; reflexivity.
Qed.

(** X5. After the call the event is allowed in the stream, and any other
    event is allowed exactly when it was before. *)
Theorem allow_events_allows (sys : system) (g : globals) (nm ev : string) (i : nat)
    (s : stream) (ev' : string) :
  find_stream (streams g) nm = Some i ->
  nth_error (streams g) i = Some s ->
  terminated (c_str (rules s)) ->
  has_room (rules s) ev ->
  no_nul (list_ascii_of_string ev) ->
  ev <> EmptyString -> ~ In LF (list_ascii_of_string ev) ->
  let g' := snd (fst (ncntf_stream_allow_events sys g (Some nm) (Some ev))) in
  fst (ncntf_event_isallowed sys g' (Some nm) (Some ev'))
  = if String.eqb ev' ev then 1
    else fst (ncntf_event_isallowed sys g (Some nm) (Some ev')).
Proof.
  intros Hfind Hnth Hterm Hroom Hev Hne Hlf. cbv zeta.
  destruct (allowed_in (streams g) nm ev) eqn:Hallowed.
  - (* the event is allowed already: nothing changes *)
    assert (Hsame : ncntf_stream_allow_events sys g (Some nm) (Some ev)
                    = (EXIT_SUCCESS, g, [])).
    { unfold ncntf_stream_allow_events.
      now rewrite (isallowed_listed sys g nm ev i Hfind), Hallowed. }
    rewrite Hsame. cbn [fst snd].
    destruct (String.eqb_spec ev' ev) as [->|_]; [ | reflexivity].
    now rewrite (isallowed_listed sys g nm ev i Hfind), Hallowed.
  - destruct (allow_events_in_room sys g nm ev i s Hfind Hnth Hterm Hroom Hev Hallowed)
      as (region & Hcall & _ & Hc).
    rewrite Hcall. cbn [fst snd].
    destruct (find_stream_put g nm i s (set_rules s region) Hfind Hnth eq_refl)
      as [Hfind' Hnth'].
    rewrite (isallowed_listed sys _ nm ev' i Hfind').
    rewrite (isallowed_listed sys g nm ev' i Hfind).
    unfold allowed_in. rewrite Hfind', Hnth', Hfind, Hnth.
    cbn [rules set_rules]. rewrite Hc.
    rewrite strtok_tokens_line; [ | exact Hterm | | exact Hlf].
    + rewrite existsb_app. cbn [existsb]. rewrite list_ascii_eqb_strings, orb_false_r.
      destruct (String.eqb ev' ev); [now rewrite orb_true_r | now rewrite orb_false_r].
    + destruct ev; [contradiction | discriminate].
Qed.

(** X4 at an example: the event [y] is allowed in the stream "A", whose
    rules hold the line [x] in a region of 64 bytes. *)
Lemma allow_events_appends_witness :
  exists g' s',
    ncntf_stream_allow_events bare_system one_stream (Some "A") (Some "y")
    = (EXIT_SUCCESS, g', [])
    /\ nth_error (streams g') 0 = Some s'
    /\ (forall j, j <> O -> nth_error (streams g') j = nth_error (streams one_stream) j)
    /\ List.length (rules s') = List.length (rules (example_stream "A" 1 ("x" ++ LFs)))
    /\ c_str (rules s')
       = c_str (rules (example_stream "A" 1 ("x" ++ LFs)))
         ++ list_ascii_of_string "y" ++ [LF]
    /\ terminated (c_str (rules s'))
    /\ name s' = name (example_stream "A" 1 ("x" ++ LFs))
    /\ events s' = events (example_stream "A" 1 ("x" ++ LFs)).
Proof.
  apply (allow_events_appends bare_system one_stream "A" "y" 0
           (example_stream "A" 1 ("x" ++ LFs))).
  - reflexivity.
  - reflexivity.
  - right. exists ["x"%char]. reflexivity.
  - unfold has_room. vm_compute. lia.
  - apply no_nul_check. reflexivity.
  - reflexivity.
Defined.

(** X5 at an example: once [y] is allowed in the stream "A", it is found
    there. *)
Lemma allow_events_allows_witness :
  fst (ncntf_event_isallowed bare_system
         (snd (fst (ncntf_stream_allow_events bare_system one_stream
                      (Some "A") (Some "y"))))
         (Some "A") (Some "y"))
  = 1.
Proof.
  apply (allow_events_allows bare_system one_stream "A" "y" 0
           (example_stream "A" 1 ("x" ++ LFs)) "y").
  - reflexivity.
  - reflexivity.
  - right. exists ["x"%char]. reflexivity.
  - unfold has_room. vm_compute. lia.
  - apply no_nul_check. reflexivity.
  - discriminate.
  - intros [H | []]. discriminate H.
Defined.

(** ** Creating, listing and closing streams *)

Lemma write_fileheader_fields (path : option string) (io : header_io) (s s' : stream)
    (r : Z) :
  write_fileheader path io s = (r, s') ->
  name s' = name s /\ desc s' = desc s /\ replay s' = replay s
  /\ created s' = created s /\ locked s' = locked s /\ rules s' = rules s
  /\ fd_rules s' = fd_rules s
  /\ (r = EXIT_SUCCESS \/ r = EXIT_FAILURE)
  /\ (r = EXIT_SUCCESS -> fd_events s' <> -1).
Proof.
  unfold write_fileheader. destruct path as [p|].
  2:{ intros [= <- <-]. repeat split; auto. discriminate. }
  assert (Hbody : forall s0,
            name s0 = name s -> desc s0 = desc s -> replay s0 = replay s ->
            created s0 = created s -> locked s0 = locked s -> rules s0 = rules s ->
            fd_rules s0 = fd_rules s -> fd_events s0 <> -1 ->
            (let '(r, f) := write_loop (hio_write io) (events s0)
                              (memory_at_header_variable io (snd (prepare_header s0))) in
             if r =? -1
             then (EXIT_FAILURE, set_events s0 (if hio_revert io then truncate f 0 else f))
             else (EXIT_SUCCESS,
                   set_data (set_events s0 f) (to_uint32 (fst (lseek_cur f 0)))))
            = (r, s') ->
            name s' = name s /\ desc s' = desc s /\ replay s' = replay s
            /\ created s' = created s /\ locked s' = locked s /\ rules s' = rules s
            /\ fd_rules s' = fd_rules s
            /\ (r = EXIT_SUCCESS \/ r = EXIT_FAILURE)
            /\ (r = EXIT_SUCCESS -> fd_events s' <> -1)).
  { intros s0 H1 H2 H3 H4 H5 H6 H7 H8.
    destruct (write_loop _ _ _) as [r0 f]. destruct (r0 =? -1); intros [= <- <-];
      cbn [name desc replay created locked rules fd_rules fd_events set_events set_data];
      repeat split; auto. }
  destruct (fd_events s =? -1) eqn:Hfd.
  - destruct (fd_events (set_fd_events s (hio_open io)) =? -1) eqn:Hfd'.
    + intros [= <- <-]. cbn. repeat split; auto. discriminate.
    + apply Hbody; try reflexivity. cbn in Hfd' |- *. now apply Z.eqb_neq.
  - destruct (hio_ftruncate io).
    + apply Hbody; try reflexivity. cbn. now apply Z.eqb_neq.
    + intros [= <- <-]. repeat split; auto. discriminate.
Qed.

Lemma map_rules_fields (path : option string) (sys : system) (s s' : stream) (r : Z) :
  map_rules path sys s = (r, s') ->
  name s' = name s /\ desc s' = desc s /\ replay s' = replay s
  /\ created s' = created s /\ locked s' = locked s /\ events s' = events s
  /\ data s' = data s /\ fd_events s' = fd_events s
  /\ (r = EXIT_SUCCESS \/ r = EXIT_FAILURE)
  /\ (r = EXIT_SUCCESS ->
      fd_rules s' <> -1
      /\ exists p, path = Some p
           /\ rio_mmap (sys_rules sys (p ++ "/" ++ name s ++ ".rules")%string)
              = Some (rules s')).
Proof.
  unfold map_rules. destruct path as [p|].
  2:{ intros [= <- <-]. repeat split; auto; discriminate. }
  set (io := sys_rules sys _).
  assert (Hmap : forall s0,
            name s0 = name s -> desc s0 = desc s -> replay s0 = replay s ->
            created s0 = created s -> locked s0 = locked s -> events s0 = events s ->
            data s0 = data s -> fd_events s0 = fd_events s -> fd_rules s0 <> -1 ->
            match rio_mmap io with
            | None => (EXIT_FAILURE, s0)
            | Some region => (EXIT_SUCCESS, set_rules s0 region)
            end = (r, s') ->
            name s' = name s /\ desc s' = desc s /\ replay s' = replay s
            /\ created s' = created s /\ locked s' = locked s /\ events s' = events s
            /\ data s' = data s /\ fd_events s' = fd_events s
            /\ (r = EXIT_SUCCESS \/ r = EXIT_FAILURE)
            /\ (r = EXIT_SUCCESS ->
                fd_rules s' <> -1
                /\ exists p0, Some p = Some p0
                     /\ rio_mmap (sys_rules sys (p0 ++ "/" ++ name s ++ ".rules")%string)
                        = Some (rules s'))).
  { intros s0 H1 H2 H3 H4 H5 H6 H7 H8 H9.
    destruct (rio_mmap io) as [region|] eqn:Hm; intros [= <- <-];
      cbn [name desc replay created locked rules fd_rules fd_events events data set_rules];
      repeat split; auto; try discriminate.
    exists p. split; [reflexivity | exact Hm]. }
  assert (Hfail : forall s0,
            name s0 = name s -> desc s0 = desc s -> replay s0 = replay s ->
            created s0 = created s -> locked s0 = locked s -> events s0 = events s ->
            data s0 = data s -> fd_events s0 = fd_events s ->
            (EXIT_FAILURE, s0) = (r, s') ->
            name s' = name s /\ desc s' = desc s /\ replay s' = replay s
            /\ created s' = created s /\ locked s' = locked s /\ events s' = events s
            /\ data s' = data s /\ fd_events s' = fd_events s
            /\ (r = EXIT_SUCCESS \/ r = EXIT_FAILURE)
            /\ (r = EXIT_SUCCESS ->
                fd_rules s' <> -1
                /\ exists p0, Some p = Some p0
                     /\ rio_mmap (sys_rules sys (p0 ++ "/" ++ name s ++ ".rules")%string)
                        = Some (rules s'))).
  { intros s0 H1 H2 H3 H4 H5 H6 H7 H8 [= <- <-]. repeat split; auto; discriminate. }
  destruct (fd_rules s =? -1) eqn:Hfd.
  - assert (Hopen : forall s0,
              name s0 = name s -> desc s0 = desc s -> replay s0 = replay s ->
              created s0 = created s -> locked s0 = locked s -> events s0 = events s ->
              data s0 = data s -> fd_events s0 = fd_events s ->
              match (let s1 := if fd_rules s0 =? -1 then set_fd_rules s0 (rio_open io)
                               else s0 in
                     if fd_rules s1 =? -1 then inl s1 else inr s1) with
              | inl s1 => (EXIT_FAILURE, s1)
              | inr s1 =>
                  match rio_mmap io with
                  | None => (EXIT_FAILURE, s1)
                  | Some region => (EXIT_SUCCESS, set_rules s1 region)
                  end
              end = (r, s') ->
              name s' = name s /\ desc s' = desc s /\ replay s' = replay s
              /\ created s' = created s /\ locked s' = locked s /\ events s' = events s
              /\ data s' = data s /\ fd_events s' = fd_events s
              /\ (r = EXIT_SUCCESS \/ r = EXIT_FAILURE)
              /\ (r = EXIT_SUCCESS ->
                  fd_rules s' <> -1
                  /\ exists p0, Some p = Some p0
                       /\ rio_mmap (sys_rules sys (p0 ++ "/" ++ name s ++ ".rules")%string)
                          = Some (rules s'))).
    { intros s0 H1 H2 H3 H4 H5 H6 H7 H8. cbv zeta.
      destruct (fd_rules s0 =? -1) eqn:Hfd0.
      - destruct (fd_rules (set_fd_rules s0 (rio_open io)) =? -1) eqn:Hfd1.
        + now apply Hfail.
        + apply Hmap; auto. now apply Z.eqb_neq.
      - rewrite Hfd0. apply Hmap; auto. now apply Z.eqb_neq. }
    destruct (rio_access io); cbn [negb].
    + now apply Hopen.
    + destruct (rio_creat io).
      * now apply Hopen.
      * now apply Hopen.
      * now apply Hfail.
  - apply Hmap; auto. now apply Z.eqb_neq.
Qed.

Lemma existsb_name (nm : string) (ss : list stream) :
  existsb (fun s => String.eqb nm (name s)) ss = true <-> In nm (map name ss).
Proof.
  rewrite existsb_exists, in_map_iff. split.
  - intros (s & Hin & Heq). apply String.eqb_eq in Heq. now exists s.
  - intros (s & Heq & Hin). exists s. split; [exact Hin | ]. now apply String.eqb_eq.
Qed.

Lemma existsb_name_sym (nm : string) (ss : list stream) :
  existsb (fun s => String.eqb (name s) nm) ss
  = existsb (fun s => String.eqb nm (name s)) ss.
Proof.
  induction ss as [|s ss IH]; simpl; [reflexivity | ].
  now rewrite IH, String.eqb_sym.
Qed.

(** A call of [ncntf_stream_new] that does not return EXIT_SUCCESS returns
    EXIT_FAILURE and leaves the state. *)
Lemma stream_new_failure (sys : system) (io : new_io) (g g' : globals)
    (nm description : string) (replay_flag ret : Z) :
  ncntf_stream_new sys io g nm description replay_flag = (ret, g') ->
  ret = EXIT_SUCCESS \/ (ret = EXIT_FAILURE /\ g' = g).
Proof.
  unfold ncntf_stream_new.
  destruct (ncntf_config g); cbn [negb]; [ | intros [= <- <-]; now right].
  destruct (existsb _ _); [intros [= <- <-]; now right | ].
  destruct (new_malloc io); cbn [negb]; [ | intros [= <- <-]; now right].
  destruct (write_fileheader _ _ _) as [r1 s1].
  destruct (r1 =? 0); cbn [negb]; [ | intros [= <- <-]; now right].
  destruct (map_rules _ _ _) as [r2 s2].
  destruct (r2 =? 0); cbn [negb]; [ | intros [= <- <-]; now right].
  intros [= <- <-]. now left.
Qed.

(** A call that returns EXIT_SUCCESS has put one stream at the head of the
    list. *)
Lemma stream_new_success (sys : system) (io : new_io) (g g' : globals)
    (nm description : string) (replay_flag : Z) :
  ncntf_stream_new sys io g nm description replay_flag = (EXIT_SUCCESS, g') ->
  ncntf_config g = true /\ ~ In nm (map name (streams g))
  /\ exists s,
       g' = set_streams g (s :: streams g)
       /\ name s = nm /\ desc s = Some description
       /\ replay s = to_uint8 replay_flag /\ created s = new_time io
       /\ locked s = 0 /\ fd_events s <> -1 /\ fd_rules s <> -1
       /\ exists p, streams_path g = Some p
            /\ rio_mmap (sys_rules sys (p ++ "/" ++ nm ++ ".rules")%string)
               = Some (rules s).
Proof.
  unfold ncntf_stream_new.
  destruct (ncntf_config g); cbn [negb]; [ | discriminate].
  destruct (existsb _ _) eqn:Hex; [discriminate | ].
  destruct (new_malloc io); cbn [negb]; [ | discriminate].
  destruct (write_fileheader _ _ _) as [r1 s1] eqn:Hw.
  destruct (r1 =? 0) eqn:Hr1; cbn [negb]; [ | discriminate].
  destruct (map_rules _ _ _) as [r2 s2] eqn:Hm.
  destruct (r2 =? 0) eqn:Hr2; cbn [negb]; [ | discriminate].
  intros [= <-]. apply Z.eqb_eq in Hr1, Hr2. subst r1 r2.
  destruct (write_fileheader_fields _ _ _ _ _ Hw)
    as (W1 & W2 & W3 & W4 & W5 & W6 & W7 & _ & W9).
  destruct (map_rules_fields _ _ _ _ _ Hm)
    as (M1 & M2 & M3 & M4 & M5 & M6 & M7 & M8 & _ & M10).
  destruct (M10 eq_refl) as (Hfd & p & Hp & Hmap).
  split; [reflexivity | split].
  - intros Hin. apply existsb_name in Hin. congruence.
  - exists s2. cbn [name desc replay created locked] in *.
    repeat split; try congruence.
    + rewrite M8. now apply W9.
    + exists p. split; [exact Hp | ]. now rewrite <- W1.
Qed.

(** X6. [ncntf_stream_new] is refused while the library is not initialised
    and for a name that a stream of the list has already; a call that does
    not succeed, for these reasons or any other, returns EXIT_FAILURE and
    leaves the variables of the library (the list of streams, the path,
    [ncntf_config], the connection to D-Bus) as they were: the stream it
    was building is in no list. The statement is about these variables,
    not about the files: [write_fileheader] may have created or emptied the
    events file of that name before the call fails. *)
Theorem stream_new_refused (sys : system) (io : new_io) (g : globals)
    (nm description : string) (replay_flag : Z) :
  (ncntf_config g = false \/ In nm (map name (streams g)) ->
   ncntf_stream_new sys io g nm description replay_flag = (EXIT_FAILURE, g))
  /\ (fst (ncntf_stream_new sys io g nm description replay_flag) <> EXIT_SUCCESS ->
      ncntf_stream_new sys io g nm description replay_flag = (EXIT_FAILURE, g)).
Proof.
  split.
  - intros [Hconfig | Hin]; unfold ncntf_stream_new.
    + now rewrite Hconfig.
    + apply existsb_name in Hin. rewrite Hin. now destruct (ncntf_config g).
  - intros Hret.
    destruct (ncntf_stream_new sys io g nm description replay_flag) as [ret g'] eqn:Hnew.
    destruct (stream_new_failure _ _ _ _ _ _ _ _ Hnew) as [-> | [-> ->]];
      [now contradiction Hret | reflexivity].
Qed.

(** X7. Once [ncntf_stream_new] has succeeded the stream is the first of the
    list, with the name, the description and the replay flag (as
    [uint8_t]) it was asked with: [ncntf_stream_isavailable] finds it,
    [ncntf_stream_list] gives its name first, [ncntf_stream_get] returns it
    without reading any file, and the streams that were there are there as
    before. *)
Theorem stream_new_registered (sys : system) (io : new_io) (g g' : globals)
    (nm description : string) (replay_flag : Z) :
  ncntf_stream_new sys io g nm description replay_flag = (EXIT_SUCCESS, g') ->
  ncntf_stream_isavailable g' (Some nm) = 1
  /\ ncntf_stream_list true g' = option_map (cons nm) (ncntf_stream_list true g)
  /\ (forall sys', ncntf_stream_get sys' g' (Some nm) = (Some O, g'))
  /\ (forall nm', nm' <> nm ->
        ncntf_stream_isavailable g' (Some nm') = ncntf_stream_isavailable g (Some nm'))
  /\ exists s,
       streams g' = s :: streams g
       /\ name s = nm /\ desc s = Some description
       /\ replay s = to_uint8 replay_flag /\ created s = new_time io /\ locked s = 0.
Proof.
  intros Hnew.
  destruct (stream_new_success _ _ _ _ _ _ _ Hnew)
    as (Hconfig & _ & s & -> & Hname & Hdesc & Hreplay & Hcreated & Hlocked & _).
  unfold ncntf_stream_isavailable, ncntf_stream_list, ncntf_stream_get.
  cbn [ncntf_config streams set_streams]. rewrite Hconfig. cbn [negb existsb map find_stream].
  rewrite Hname, String.eqb_refl. cbn [orb option_map].
  split; [reflexivity | split; [reflexivity | split; [reflexivity | split]]].
  - intros nm' Hne. apply String.eqb_neq in Hne. rewrite String.eqb_sym in Hne.
    now rewrite Hne.
  - exists s. now rewrite Hname.
Qed.

(** X8. [ncntf_stream_new] keeps the names of the list distinct. *)
Theorem stream_new_names_distinct (sys : system) (io : new_io) (g : globals)
    (nm description : string) (replay_flag : Z) :
  NoDup (map name (streams g)) ->
  NoDup (map name (streams (snd (ncntf_stream_new sys io g nm description replay_flag)))).
Proof.
  intros Hnodup.
  destruct (ncntf_stream_new sys io g nm description replay_flag) as [ret g'] eqn:Hnew.
  cbn [snd].
  destruct (stream_new_failure _ _ _ _ _ _ _ _ Hnew) as [-> | [_ ->]]; [ | exact Hnodup].
  destruct (stream_new_success _ _ _ _ _ _ _ Hnew) as (_ & Hnew_name & s & -> & Hname & _).
  cbn [streams set_streams map]. rewrite Hname. now constructor.
Qed.

(** X7 at an example: the stream "B" is created beside the stream "A". *)
Lemma stream_new_registered_witness :
  ncntf_stream_isavailable
    (snd (ncntf_stream_new fresh_system new_ok one_stream "B" "d" 1)) (Some "B") = 1
  /\ ncntf_stream_list true (snd (ncntf_stream_new fresh_system new_ok one_stream "B" "d" 1))
     = Some ["B"; "A"].
Proof.
  destruct (stream_new_registered fresh_system new_ok one_stream
              (snd (ncntf_stream_new fresh_system new_ok one_stream "B" "d" 1))
              "B" "d" 1 eq_refl) as (H1 & H2 & _).
  split; [exact H1 | exact H2].
Defined.

(** X8 at an example: the stream "A" is asked for a second time. *)
Lemma stream_new_names_distinct_witness :
  NoDup (map name
           (streams (snd (ncntf_stream_new fresh_system new_ok one_stream "A" "d" 1)))).
Proof.
  apply (stream_new_names_distinct fresh_system new_ok one_stream "A" "d" 1).
  repeat constructor. intros [].
Defined.

Section Closing.

Variable nc_time2datetime : Z -> option string.
Variable xml_root_name : string -> option string.
Variable nc_session_term_string : NC_SESSION_TERM_REASON -> string.

(** X9. [ncntf_close] leaves the library not initialised: the list of
    streams is empty and the D-Bus connection is gone when it was
    initialised, and nothing changes when it was not. Until the next
    [ncntf_init] the functions that check [ncntf_config] refuse their calls
    and leave the state: no stream is created, listed or found, no event is
    published, and the iterator returns NULL. *)
Theorem close_refuses (sys : system) (g : globals) (nio : new_io) (pio : publish_io)
    (iio : iter_io) (nm description : string) (replay_flag : Z) (calloc : bool)
    (stream : option string) (etime : Z) (event : event_params) (fuel : nat)
    (replay_done start stop : Z) (event_time : option Z) :
  let g' := ncntf_close g in
  ncntf_config g' = false
  /\ (ncntf_config g = true ->
      streams g' = [] /\ dbus g' = None /\ streams_path g' = streams_path g)
  /\ (ncntf_config g = false -> g' = g)
  /\ ncntf_stream_new sys nio g' nm description replay_flag = (EXIT_FAILURE, g')
  /\ ncntf_stream_list calloc g' = None
  /\ ncntf_stream_isavailable g' stream = 0
  /\ ncntf_event_new nc_time2datetime xml_root_name nc_session_term_string
                     sys pio g' etime event = (EXIT_FAILURE, g')
  /\ ncntf_stream_iter_start sys g' replay_done stream = (g', replay_done)
  /\ ncntf_stream_iter_next nc_time2datetime fuel sys iio g' replay_done stream
                            start stop event_time
     = Some (mkIterResult None g' replay_done event_time).
Proof.
  cbv zeta.
  assert (Hc : ncntf_config (ncntf_close g) = false).
  { unfold ncntf_close. destruct (ncntf_config g) eqn:E; [ | exact E].
    unfold ncntf_streams_close, ncntf_dbus_close. cbn [dbus].
    now destruct (dbus g). }
  split; [exact Hc | ].
  split.
  { intros E. unfold ncntf_close. rewrite E.
    unfold ncntf_streams_close, ncntf_dbus_close. cbn [dbus].
    now destruct (dbus g). }
  split.
  { intros E. unfold ncntf_close. now rewrite E. }
  unfold ncntf_stream_new, ncntf_stream_list, ncntf_stream_isavailable, ncntf_event_new,
    ncntf_stream_iter_start, ncntf_stream_iter_next.
  rewrite Hc. cbn [negb]. repeat split. now destruct stream.
Qed.

End Closing.

(** *** Starting the library *)

Lemma extends_refl (g : globals) : extends g g.
Proof. repeat split. apply incl_refl. Qed.

Lemma extends_trans (g1 g2 g3 : globals) :
  extends g1 g2 -> extends g2 g3 -> extends g1 g3.
Proof.
  intros (A1 & A2 & A3 & A4) (B1 & B2 & B3 & B4).
  repeat split; try congruence. eapply incl_tran; eassumption.
Qed.

Lemma extends_cons (g : globals) (s : stream) :
  extends g (set_streams g (s :: streams g)).
Proof. repeat split. cbn [streams set_streams map]. apply incl_tl, incl_refl. Qed.

Lemma map_name_update_nth (ss : list stream) (i : nat) (s s' : stream) :
  nth_error ss i = Some s -> name s' = name s ->
  map name (update_nth i s' ss) = map name ss.
Proof.
  revert i. induction ss as [|x ss IH]; intros [|i] Hnth Hname; simpl in *;
    try discriminate.
  - injection Hnth as ->. now rewrite Hname.
  - now rewrite (IH i Hnth Hname).
Qed.

Lemma stream_get_extends (sys : system) (g : globals) (stream : option string) :
  extends g (snd (ncntf_stream_get sys g stream)).
Proof.
  unfold ncntf_stream_get. destruct stream as [nm|]; [ | apply extends_refl].
  destruct (find_stream (streams g) nm); [apply extends_refl | ].
  destruct (read_fileheader sys _) as [s|]; [ | apply extends_refl].
  destruct (map_rules _ _ _) as [r s']. destruct (r =? 0); [ | apply extends_refl].
  apply extends_cons.
Qed.

Lemma isallowed_extends (sys : system) (g : globals) (stream event : option string) :
  extends g (snd (ncntf_event_isallowed sys g stream event)).
Proof.
  unfold ncntf_event_isallowed.
  destruct stream as [nm|]; [ | apply extends_refl].
  destruct event as [ev|]; [ | apply extends_refl].
  pose proof (stream_get_extends sys g (Some nm)) as H.
  destruct (ncntf_stream_get sys g (Some nm)) as [[i|] g1]; cbn [snd] in H |- *;
    [ | exact H].
  destruct (nth_error (streams g1) i); [ | exact H].
  now destruct (existsb _ _).
Qed.

Lemma allow_events_extends (sys : system) (g : globals) (stream event : option string) :
  extends g (snd (fst (ncntf_stream_allow_events sys g stream event))).
Proof.
  unfold ncntf_stream_allow_events.
  destruct stream as [nm|]; [ | apply extends_refl].
  destruct event as [ev|]; [ | apply extends_refl].
  pose proof (isallowed_extends sys g (Some nm) (Some ev)) as H1.
  destruct (ncntf_event_isallowed sys g (Some nm) (Some ev)) as [allowed g1].
  cbn [snd] in H1.
  destruct (negb (allowed =? 0)); [exact H1 | ].
  pose proof (stream_get_extends sys g1 (Some nm)) as H2.
  destruct (ncntf_stream_get sys g1 (Some nm)) as [[i|] g2]; cbn [snd fst] in H2 |- *;
    [ | now apply extends_trans with g1].
  destruct (nth_error (streams g2) i) as [s|] eqn:Hnth;
    [ | now apply extends_trans with g1].
  cbn [fst snd]. apply extends_trans with g1; [exact H1 | ].
  apply extends_trans with g2; [exact H2 | ].
  repeat split. unfold put_stream. cbn [streams set_streams].
  rewrite (map_name_update_nth _ _ s) by (assumption || reflexivity).
  apply incl_refl.
Qed.

Lemma isavailable_listed (g : globals) (nm : string) :
  ncntf_config g = true -> In nm (map name (streams g)) ->
  ncntf_stream_isavailable g (Some nm) = 1.
Proof.
  intros Hc Hin. unfold ncntf_stream_isavailable. rewrite Hc. cbn [negb].
  apply existsb_name in Hin. now rewrite existsb_name_sym, Hin.
Qed.

Lemma stream_new_extends (sys : system) (io : new_io) (g : globals)
    (nm description : string) (replay_flag : Z) :
  extends g (snd (ncntf_stream_new sys io g nm description replay_flag)).
Proof.
  destruct (ncntf_stream_new sys io g nm description replay_flag) as [ret g'] eqn:Hnew.
  cbn [snd].
  destruct (stream_new_failure _ _ _ _ _ _ _ _ Hnew) as [-> | [_ ->]];
    [ | apply extends_refl].
  destruct (stream_new_success _ _ _ _ _ _ _ Hnew) as (_ & _ & s & -> & _).
  apply extends_cons.
Qed.

Lemma dbus_init_config (bus : option dbus_connection) (g : globals) :
  ncntf_config (snd (ncntf_dbus_init bus g)) = ncntf_config g
  /\ streams (snd (ncntf_dbus_init bus g)) = streams g
  /\ streams_path (snd (ncntf_dbus_init bus g)) = streams_path g
  /\ (fst (ncntf_dbus_init bus g) = EXIT_SUCCESS
      \/ fst (ncntf_dbus_init bus g) = EXIT_FAILURE).
Proof.
  unfold ncntf_dbus_init. destruct (dbus g); [repeat split; now left | ].
  destruct bus; repeat split; auto.
Qed.

Lemma not_in_check (c : ascii) (l : list ascii) :
  forallb (fun x => negb (Ascii.eqb x c)) l = true -> ~ In c l.
Proof.
  intros H Hin. rewrite forallb_forall in H. specialize (H c Hin).
  now rewrite Ascii.eqb_refl in H.
Qed.

(** One call of [ncntf_stream_allow_events] in a region with room: where the
    stream is afterwards, and what is allowed in it. *)
Lemma allow_events_step (sys : system) (g : globals) (nm ev : string) (i : nat)
    (s : stream) :
  find_stream (streams g) nm = Some i ->
  nth_error (streams g) i = Some s ->
  terminated (c_str (rules s)) ->
  has_room (rules s) ev ->
  no_nul (list_ascii_of_string ev) ->
  ev <> EmptyString -> ~ In LF (list_ascii_of_string ev) ->
  exists s',
    find_stream (streams (snd (fst (ncntf_stream_allow_events sys g (Some nm) (Some ev)))))
                nm = Some i
    /\ nth_error (streams (snd (fst (ncntf_stream_allow_events sys g (Some nm) (Some ev)))))
                  i = Some s'
    /\ terminated (c_str (rules s'))
    /\ List.length (rules s') = List.length (rules s)
    /\ (List.length (c_str (rules s'))
        <= List.length (c_str (rules s)) + String.length ev + 1)%nat
    /\ forall ev',
         allowed_in (streams (snd (fst (ncntf_stream_allow_events sys g (Some nm)
                                          (Some ev)))))
                    nm ev'
         = String.eqb ev' ev || allowed_in (streams g) nm ev'.
Proof.
  intros Hfind Hnth Hterm Hroom Hev Hne Hlf.
  destruct (allowed_in (streams g) nm ev) eqn:Hallowed.
  - assert (Hsame : ncntf_stream_allow_events sys g (Some nm) (Some ev)
                    = (EXIT_SUCCESS, g, [])).
    { unfold ncntf_stream_allow_events.
      now rewrite (isallowed_listed sys g nm ev i Hfind), Hallowed. }
    rewrite Hsame. cbn [fst snd]. exists s.
    split; [exact Hfind | split; [exact Hnth | split; [exact Hterm | ]]].
    split; [reflexivity | split; [lia | ]].
    intros ev'. destruct (String.eqb_spec ev' ev) as [->|_]; [ | reflexivity].
    now rewrite Hallowed.
  - destruct (allow_events_in_room sys g nm ev i s Hfind Hnth Hterm Hroom Hev Hallowed)
      as (region & Hcall & Hlen & Hc).
    rewrite Hcall. cbn [fst snd].
    destruct (find_stream_put g nm i s (set_rules s region) Hfind Hnth eq_refl)
      as [Hfind' Hnth'].
    exists (set_rules s region). cbn [rules set_rules].
    split; [exact Hfind' | split; [exact Hnth' | split; [ | split; [exact Hlen | split]]]].
    + right. rewrite Hc. exists (c_str (rules s) ++ list_ascii_of_string ev).
      now rewrite <- app_assoc.
    + rewrite Hc, !length_app, length_list_ascii_of_string. cbn [List.length]. lia.
    + intros ev'. unfold allowed_in. rewrite Hfind', Hnth', Hfind, Hnth.
      cbn [rules set_rules]. rewrite Hc.
      rewrite strtok_tokens_line; [ | exact Hterm | | exact Hlf].
      * rewrite existsb_app. cbn [existsb]. rewrite list_ascii_eqb_strings, orb_false_r.
        apply orb_comm.
      * destruct ev; [contradiction | discriminate].
Qed.

Section Starting.

Variable NCNTF_STREAM_BASE : string.
Variable NCNTF_STREAMS_PATH : string.

Lemma allow_base_extends (sys : system) (g : globals) :
  extends g (allow_base_events NCNTF_STREAM_BASE sys g).
Proof.
  unfold allow_base_events.
  repeat (eapply extends_trans; [ | apply allow_events_extends]).
  apply extends_refl.
Qed.

Lemma set_streams_path_config (env : option string) (paths : string -> path_io)
    (g : globals) :
  ncntf_config (snd (set_streams_path NCNTF_STREAMS_PATH env paths g)) = ncntf_config g
  /\ streams (snd (set_streams_path NCNTF_STREAMS_PATH env paths g)) = streams g
  /\ (fst (set_streams_path NCNTF_STREAMS_PATH env paths g) = 0
      -> streams_path (snd (set_streams_path NCNTF_STREAMS_PATH env paths g)) <> None).
Proof.
  unfold set_streams_path.
  destruct env as [e|].
  - destruct (check_streams_path (paths e) =? 0).
    + repeat split. discriminate.
    + destruct (check_streams_path (paths NCNTF_STREAMS_PATH) =? 0);
        repeat split; discriminate.
  - destruct (check_streams_path (paths NCNTF_STREAMS_PATH) =? 0);
      repeat split; discriminate.
Qed.

(** The loop that opens the files: the streams it adds. *)
Lemma load_stream_files (sys : system) (path : string) (filelist : list (option dirent))
    (g : globals) :
  streams_path g = Some path ->
  extends g (fold_right (load_stream_file sys) g filelist)
  /\ forall d s s',
       In (Some d) filelist ->
       read_fileheader sys (path ++ "/" ++ d_name d) = Some s ->
       map_rules (Some path) sys s = (EXIT_SUCCESS, s') ->
       In (name s') (map name (streams (fold_right (load_stream_file sys) g filelist))).
Proof.
  intros Hpath. induction filelist as [|entry filelist [IHext IHin]]; cbn [fold_right].
  - split; [apply extends_refl | intros d s s' []].
  - set (g1 := fold_right (load_stream_file sys) g filelist) in *.
    assert (Hpath1 : streams_path g1 = Some path)
      by (destruct IHext as (_ & -> & _); exact Hpath).
    assert (Hstep : extends g1 (load_stream_file sys entry g1)).
    { unfold load_stream_file. destruct entry as [d|]; [ | apply extends_refl].
      destruct (read_fileheader sys _) as [s|]; [ | apply extends_refl].
      destruct (map_rules _ _ _) as [r s']. destruct (r =? 0); [ | apply extends_refl].
      apply extends_cons. }
    split; [now apply extends_trans with g1 | ].
    intros d s s' [-> | Hin] Hread Hmap.
    + unfold load_stream_file. rewrite Hpath1. cbn [printf_s].
      rewrite Hread, Hmap. cbn [Z.eqb EXIT_SUCCESS streams set_streams map].
      now left.
    + destruct Hstep as (_ & _ & _ & Hincl). apply Hincl. now apply (IHin d s s').
Qed.

Lemma filter_reg_files_keeps (entries : list dirent) (d : dirent) :
  In d entries -> regular_file d ->
  In (Some d) (filter_reg_files (map Some entries)).
Proof.
  intros Hin Hreg. unfold filter_reg_files. rewrite map_map. apply in_map_iff.
  exists d. split; [ | exact Hin].
  destruct Hreg as [-> | [-> ->]]; reflexivity.
Qed.

(** [ncntf_streams_init] on a library that is not initialised. *)
Lemma streams_init_cases (sys : system) (io : init_io) (g : globals) :
  ncntf_config g = false ->
  (fst (ncntf_streams_init NCNTF_STREAM_BASE NCNTF_STREAMS_PATH sys io g) = EXIT_FAILURE
   /\ ncntf_config (snd (ncntf_streams_init NCNTF_STREAM_BASE NCNTF_STREAMS_PATH sys io g))
      = false
   /\ streams (snd (ncntf_streams_init NCNTF_STREAM_BASE NCNTF_STREAMS_PATH sys io g))
      = streams g)
  \/ (exists path entries g1,
        ncntf_streams_init NCNTF_STREAM_BASE NCNTF_STREAMS_PATH sys io g
        = (EXIT_SUCCESS, g1)
        /\ ncntf_config g1 = true
        /\ streams_path g1 = Some path
        /\ in_scandir io path = Some entries
        /\ forall d s s',
             In d entries -> regular_file d ->
             read_fileheader sys (path ++ "/" ++ d_name d) = Some s ->
             map_rules (Some path) sys s = (EXIT_SUCCESS, s') ->
             In (name s') (map name (streams g1))).
Proof.
  intros Hconfig. unfold ncntf_streams_init. rewrite Hconfig.
  assert (Hpath : exists r g0,
            match streams_path g with
            | None => set_streams_path NCNTF_STREAMS_PATH (in_env io) (in_paths io) g
            | Some _ => (0, g)
            end = (r, g0)
            /\ ncntf_config g0 = false /\ streams g0 = streams g
            /\ (r = 0 -> streams_path g0 <> None)).
  { destruct (streams_path g) as [p|] eqn:Hp.
    - exists 0, g. repeat split; auto. rewrite Hp. discriminate.
    - pose proof (set_streams_path_config (in_env io) (in_paths io) g) as (H1 & H2 & H3).
      destruct (set_streams_path _ _ _ g) as [r g0]. cbn [fst snd] in *.
      exists r, g0. repeat split; auto. congruence. }
  destruct Hpath as (r & g0 & -> & Hc0 & Hs0 & Hp0).
  destruct (r =? 0) eqn:Hr; cbn [negb]; [ | left; now repeat split].
  apply Z.eqb_eq in Hr. specialize (Hp0 Hr).
  destruct (streams_path g0) as [path|] eqn:Hpath0; [clear Hp0 | contradiction].
  cbn [printf_s].
  destruct (in_scandir io path) as [entries|] eqn:Hscan; [ | left; now repeat split].
  right. exists path, entries.
  destruct (load_stream_files sys path (filter_reg_files (map Some entries)) g0 Hpath0)
    as [Hext Hin].
  set (g1 := fold_right (load_stream_file sys) g0 _) in *.
  set (g2 := mkGlobals (streams_path g1) true (streams g1) (dbus g1)).
  assert (Hpath2 : streams_path g2 = Some path)
    by (destruct Hext as (_ & H & _); cbn; congruence).
  assert (Hin2 : forall d s s',
            In d entries -> regular_file d ->
            read_fileheader sys (path ++ "/" ++ d_name d) = Some s ->
            map_rules (Some path) sys s = (EXIT_SUCCESS, s') ->
            In (name s') (map name (streams g2))).
  { intros d s s' Hd Hreg Hread Hmap. cbn [g2 streams].
    apply (Hin d s s'); [now apply filter_reg_files_keeps | exact Hread | exact Hmap]. }
  destruct (ncntf_stream_isavailable g2 (Some NCNTF_STREAM_BASE) =? 0).
  - eexists. split; [reflexivity | ].
    pose proof (stream_new_extends sys (in_new io) g2 NCNTF_STREAM_BASE
                  "NETCONF Base Notifications" 1) as Hnew.
    pose proof (allow_base_extends sys
                  (snd (ncntf_stream_new sys (in_new io) g2 NCNTF_STREAM_BASE
                          "NETCONF Base Notifications" 1))) as Hallow.
    destruct (extends_trans _ _ _ Hnew Hallow) as (E1 & E2 & _ & E4).
    split; [now rewrite E1 | split; [now rewrite E2 | split; [exact Hscan | ]]].
    intros d s s' Hd Hreg Hread Hmap. apply E4. now apply (Hin2 d s s').
  - exists g2. repeat split; auto.
Qed.

(** X10. [ncntf_init] returns EXIT_SUCCESS or EXIT_FAILURE, and
    EXIT_SUCCESS exactly when it leaves the library initialised; a call that
    fails leaves the list of streams as it was. *)
Theorem init_result (sys : system) (io : init_io) (g : globals) :
  let r := ncntf_init NCNTF_STREAM_BASE NCNTF_STREAMS_PATH sys io g in
  (fst r = EXIT_SUCCESS <-> ncntf_config (snd r) = true)
  /\ (fst r = EXIT_SUCCESS \/ fst r = EXIT_FAILURE)
  /\ (fst r = EXIT_FAILURE -> streams (snd r) = streams g).
Proof.
  cbv zeta. unfold ncntf_init.
  destruct (ncntf_config g) eqn:Hconfig.
  { cbn [fst snd]. split; [split; auto | split; [now left | discriminate]]. }
  destruct (in_mutexes io); cbn [negb fst snd].
  2:{ split; [split; [discriminate | congruence] | split; [now right | reflexivity]]. }
  pose proof (dbus_init_config (in_bus io) g) as (D1 & D2 & _ & D4).
  destruct (ncntf_dbus_init (in_bus io) g) as [r1 g1]. cbn [fst snd] in *.
  destruct D4 as [-> | ->]; cbn [negb Z.eqb EXIT_SUCCESS EXIT_FAILURE fst snd].
  2:{ split; [split; [discriminate | congruence] | split; [now right | intros _; exact D2]]. }
  assert (Hc1 : ncntf_config g1 = false) by congruence.
  destruct (streams_init_cases sys io g1 Hc1)
    as [(F1 & F2 & F3) | (path & entries & g2 & E & Hc2 & _)].
  - destruct (ncntf_streams_init _ _ sys io g1) as [r2 g2]. cbn [fst snd] in *.
    subst r2. cbn [negb Z.eqb EXIT_FAILURE fst snd].
    split; [split; [discriminate | congruence] | split; [now right | intros _; congruence]].
  - rewrite E. cbn [negb Z.eqb EXIT_SUCCESS fst snd].
    split; [split; auto | split; [now left | discriminate]].
Qed.

(** X11. After [ncntf_init] has succeeded on a library that was not
    initialised, every regular file of the streams directory that
    [read_fileheader] accepts and whose rules [map_rules] maps is a stream
    that [ncntf_stream_isavailable] finds, under the name its header
    holds. *)
Theorem init_loads_stream_files (sys : system) (io : init_io) (g g' : globals)
    (path : string) (entries : list dirent) (d : dirent) (s s' : stream) :
  ncntf_config g = false ->
  ncntf_init NCNTF_STREAM_BASE NCNTF_STREAMS_PATH sys io g = (EXIT_SUCCESS, g') ->
  streams_path g' = Some path ->
  in_scandir io path = Some entries ->
  In d entries -> regular_file d ->
  read_fileheader sys (path ++ "/" ++ d_name d) = Some s ->
  map_rules (Some path) sys s = (EXIT_SUCCESS, s') ->
  ncntf_stream_isavailable g' (Some (name s')) = 1.
Proof.
  intros Hconfig Hinit Hpath Hscan Hd Hreg Hread Hmap.
  unfold ncntf_init in Hinit. rewrite Hconfig in Hinit.
  destruct (in_mutexes io); cbn [negb] in Hinit; [ | discriminate].
  pose proof (dbus_init_config (in_bus io) g) as (D1 & _ & _ & D4).
  destruct (ncntf_dbus_init (in_bus io) g) as [r1 g1]. cbn [fst snd] in *.
  destruct D4 as [-> | ->]; cbn [negb Z.eqb EXIT_SUCCESS EXIT_FAILURE] in Hinit;
    [ | discriminate].
  assert (Hc1 : ncntf_config g1 = false) by congruence.
  destruct (streams_init_cases sys io g1 Hc1)
    as [(F1 & _) | (path' & entries' & g2 & E & Hc2 & Hp2 & Hscan' & Hin)].
  - destruct (ncntf_streams_init _ _ sys io g1) as [r2 g2]. cbn [fst] in F1.
    subst r2. discriminate.
  - rewrite E in Hinit. cbn [negb Z.eqb EXIT_SUCCESS] in Hinit.
    injection Hinit as <-.
    assert (path' = path) by congruence. subst path'.
    assert (entries' = entries) by congruence. subst entries'.
    apply isavailable_listed; [exact Hc2 | ]. now apply (Hin d s s').
Qed.

(** X12. The five calls that allow the events of RFC 6470, made on a base
    stream of the list whose rules are whole lines and leave 116 bytes free:
    afterwards each of the five events is allowed in the base stream, and any
    other event is allowed there exactly when it was before. *)
Theorem base_events_allowed (sys : system) (g : globals) (i : nat) (s : stream)
    (ev' : string) :
  find_stream (streams g) NCNTF_STREAM_BASE = Some i ->
  nth_error (streams g) i = Some s ->
  terminated (c_str (rules s)) ->
  (List.length (c_str (rules s)) + 116 <= List.length (rules s))%nat ->
  fst (ncntf_event_isallowed sys (allow_base_events NCNTF_STREAM_BASE sys g)
                             (Some NCNTF_STREAM_BASE) (Some ev'))
  = if existsb (String.eqb ev') base_events then 1
    else fst (ncntf_event_isallowed sys g (Some NCNTF_STREAM_BASE) (Some ev')).
Proof.
  intros Hfind Hnth Hterm Hroom. unfold allow_base_events.
  destruct (allow_events_step sys g NCNTF_STREAM_BASE "netconf-config-change" i s
              Hfind Hnth Hterm)
    as (s1 & F1 & N1 & T1 & L1 & C1 & A1);
    [unfold has_room; cbn [String.length]; lia | apply no_nul_check; reflexivity
     | discriminate | apply not_in_check; reflexivity | ].
  cbn [String.length] in C1.
  set (g1 := snd (fst (ncntf_stream_allow_events sys g _ _))) in *.
  destruct (allow_events_step sys g1 NCNTF_STREAM_BASE "netconf-capability-change" i s1
              F1 N1 T1)
    as (s2 & F2 & N2 & T2 & L2 & C2 & A2);
    [unfold has_room; cbn [String.length]; lia | apply no_nul_check; reflexivity
     | discriminate | apply not_in_check; reflexivity | ].
  cbn [String.length] in C2.
  set (g2 := snd (fst (ncntf_stream_allow_events sys g1 _ _))) in *.
  destruct (allow_events_step sys g2 NCNTF_STREAM_BASE "netconf-session-start" i s2
              F2 N2 T2)
    as (s3 & F3 & N3 & T3 & L3 & C3 & A3);
    [unfold has_room; cbn [String.length]; lia | apply no_nul_check; reflexivity
     | discriminate | apply not_in_check; reflexivity | ].
  cbn [String.length] in C3.
  set (g3 := snd (fst (ncntf_stream_allow_events sys g2 _ _))) in *.
  destruct (allow_events_step sys g3 NCNTF_STREAM_BASE "netconf-session-end" i s3
              F3 N3 T3)
    as (s4 & F4 & N4 & T4 & L4 & C4 & A4);
    [unfold has_room; cbn [String.length]; lia | apply no_nul_check; reflexivity
     | discriminate | apply not_in_check; reflexivity | ].
  cbn [String.length] in C4.
  set (g4 := snd (fst (ncntf_stream_allow_events sys g3 _ _))) in *.
  destruct (allow_events_step sys g4 NCNTF_STREAM_BASE "netconf-confirmed-commit" i s4
              F4 N4 T4)
    as (s5 & F5 & N5 & T5 & L5 & C5 & A5);
    [unfold has_room; cbn [String.length]; lia | apply no_nul_check; reflexivity
     | discriminate | apply not_in_check; reflexivity | ].
  set (g5 := snd (fst (ncntf_stream_allow_events sys g4 _ _))) in *.
  rewrite (isallowed_listed sys g5 _ ev' i F5), (isallowed_listed sys g _ ev' i Hfind).
  cbn [fst]. rewrite A5, A4, A3, A2, A1. cbn [existsb base_events].
  destruct (String.eqb ev' "netconf-config-change");
    destruct (String.eqb ev' "netconf-capability-change");
    destruct (String.eqb ev' "netconf-session-start");
    destruct (String.eqb ev' "netconf-session-end");
    destruct (String.eqb ev' "netconf-confirmed-commit"); reflexivity.
Qed.

End Starting.

(** X11 at an example: the directory holds the file of the stream "A". *)
Lemma init_loads_stream_files_witness :
  ncntf_stream_isavailable
    (snd (ncntf_init "NETCONF" "/var/run/netconf_events" system_with_stream
                     init_with_stream not_started))
    (Some "A") = 1.
Proof.
  apply (init_loads_stream_files "NETCONF" "/var/run/netconf_events" system_with_stream
           init_with_stream not_started _ "/var/run/netconf_events"
           [mkDirent "." DT_other None; mkDirent ".." DT_other None;
            mkDirent "A.events" DT_REG None; mkDirent "A.rules" DT_UNKNOWN (Some true)]
           (mkDirent "A.events" DT_REG None)
           loaded_stream
           (set_rules (set_fd_rules loaded_stream 4) (repeat NUL 128))).
  - reflexivity.
  - vm_compute. reflexivity.
  - vm_compute. reflexivity.
  - reflexivity.
  - right. right. now left.
  - now left.
  - vm_compute. reflexivity.
  - vm_compute. reflexivity.
Defined.

(** X12 at an example: the base stream "NETCONF" just created, its rules in
    a region of 128 NUL bytes. *)
Lemma base_events_allowed_witness :
  fst (ncntf_event_isallowed fresh_system
         (allow_base_events "NETCONF" fresh_system base_created)
         (Some "NETCONF") (Some "netconf-session-end"))
  = 1.
Proof.
  apply (base_events_allowed "NETCONF" fresh_system base_created 0
           (set_rules
              (set_fd_rules
                 (snd (write_fileheader (Some "/var/run/netconf_events") header_ok
                         (mkStream (-1) (-1) "NETCONF" (Some "NETCONF Base Notifications")
                                   1 1000 0 []
                                   (to_uint32 (le_decode (stale_object fresh_system "data" 4)))
                                   (mkFile [] 0))))
                 4)
              (repeat NUL 128))
           "netconf-session-end").
  - reflexivity.
  - vm_compute. reflexivity.
  - now left.
  - vm_compute. lia.
Defined.

(** [ncntf_init] on a directory with no stream file: the base stream is
    created, and its rules are the five events of RFC 6470. *)
Example init_fresh_directory :
  let r := ncntf_init "NETCONF" "/var/run/netconf_events" fresh_system init_ok
                      not_started in
  fst r = EXIT_SUCCESS
  /\ ncntf_stream_list true (snd r) = Some ["NETCONF"]
  /\ map (fun s => c_string (rules s)) (streams (snd r))
     = [String.concat LFs base_events ++ LFs]%string
  /\ streams_path (snd r) = Some "/var/run/netconf_events".
Proof. vm_compute. repeat split; reflexivity. Qed.

(** A second [ncntf_init] changes nothing; [ncntf_close] empties the list
    of streams and drops the connection. *)
Example init_twice :
  let g := snd (ncntf_init "NETCONF" "/var/run/netconf_events" fresh_system init_ok
                           not_started) in
  ncntf_init "NETCONF" "/var/run/netconf_events" fresh_system init_ok g
  = (EXIT_SUCCESS, g)
  /\ ncntf_close g = mkGlobals (Some "/var/run/netconf_events") false [] None.
Proof. vm_compute. split; reflexivity. Qed.

(** ** The iterator: live events and the end of the replay *)

(** An event that the D-Bus loop returns lies in the window, and the
    messages in front of it have been taken off the queue. *)
Lemma dbus_poll_in_window (config is_open : bool) (queue : list dbus_message)
    (start stop : Z) (text : string) (tm : Z) (left : list dbus_message) :
  dbus_poll config is_open queue start stop = (Some (text, tm), left) ->
  (start = -1 \/ start <= tm) /\ (stop = -1 \/ tm <= stop)
  /\ exists skipped m, queue = skipped ++ m :: left.
Proof.
  revert left. induction queue as [|m queue IH]; intros left; cbn [dbus_poll].
  - destruct (negb config); [discriminate | ]. destruct (negb is_open); discriminate.
  - destruct (negb config); [discriminate | ].
    destruct (negb is_open); [discriminate | ].
    destruct (dbus_message_is_signal m NC_NTF_DBUS_INTERFACE "Event"); [ | discriminate].
    assert (Hrec : dbus_poll config is_open queue start stop = (Some (text, tm), left) ->
                   (start = -1 \/ start <= tm) /\ (stop = -1 \/ tm <= stop)
                   /\ exists skipped m0, m :: queue = skipped ++ m0 :: left).
    { intros H. destruct (IH _ H) as (H1 & H2 & skipped & m0 & ->).
      split; [exact H1 | split; [exact H2 | ]]. now exists (m :: skipped), m0. }
    destruct (msg_args m) as [|[t| |] args]; try discriminate; try exact Hrec.
    destruct (negb (start =? -1) && (start >? to_time_t t)) eqn:E1; [exact Hrec | ].
    destruct (negb (stop =? -1) && (stop <? to_time_t t)) eqn:E2; [exact Hrec | ].
    destruct args as [|[| text'|] args']; try exact Hrec.
    intros [= <- <- <-]. split; [lia | split; [lia | ]]. now exists [], m.
Qed.

Section Live.

Variable nc_time2datetime : Z -> option string.

(** X13. Once the replay is over ([replay_done] is not 0) a call for a
    stream of the list goes through its loop once and reads nothing from the
    file: the streams stay as they are, the flag keeps its value, and a text
    returned is the content of an Event signal of the D-Bus queue whose time
    is not before [start] (when set) and not after [stop] (when set). *)
Theorem iter_next_live_in_window (fuel : nat) (sys : system) (io : iter_io)
    (g : globals) (replay_done : Z) (nm : string) (i : nat) (start stop : Z)
    (event_time : option Z) :
  ncntf_config g = true ->
  find_stream (streams g) nm = Some i ->
  replay_done <> 0 ->
  exists res,
    ncntf_stream_iter_next nc_time2datetime (S fuel) sys io g replay_done (Some nm)
                           start stop event_time = Some res
    /\ streams (it_globals res) = streams g
    /\ it_replay_done res = (if start =? -1 then 1 else replay_done)
    /\ (forall text, it_text res = Some text ->
        exists conn m t rest,
          dbus g = Some conn
          /\ In m (dbus_incoming conn)
          /\ dbus_message_is_signal m NC_NTF_DBUS_INTERFACE "Event" = true
          /\ msg_args m = DBUS_UINT64 t :: DBUS_STRING text :: rest
          /\ (start = -1 \/ start <= to_time_t t)
          /\ (stop = -1 \/ to_time_t t <= stop)
          /\ it_event_time res = store_time event_time (to_time_t t)).
Proof.
  intros Hconfig Hfind Hdone.
  destruct (find_stream_nth _ _ _ Hfind) as (s & Hnth & _).
  unfold ncntf_stream_iter_next. rewrite Hconfig. cbn [negb].
  destruct (negb (start =? -1) && negb (stop =? -1) && (stop <? start)) eqn:Ewin.
  { (* the window is empty *)
    eexists. split; [reflexivity | ]. cbn [it_globals it_replay_done it_text].
    repeat split; try discriminate.
    destruct (start =? -1) eqn:E; [discriminate Ewin | reflexivity]. }
  unfold ncntf_stream_get. rewrite Hfind, Hnth.
  set (rd := if start =? -1 then 1 else replay_done).
  assert (Hrd : (rd =? 0) = false)
    by (unfold rd; destruct (start =? -1); [reflexivity | now apply Z.eqb_neq]).
  cbn [iter_loop]. rewrite Hrd. cbn [andb negb]. rewrite set_events_same.
  rewrite put_stream_same by exact Hnth.
  destruct (dbus g) as [conn|] eqn:Econn.
  2:{ eexists. split; [reflexivity | ]. cbn [it_globals it_replay_done it_text].
      repeat split; discriminate. }
  destruct (dbus_poll (ncntf_config g) (dbus_is_open conn) (dbus_incoming conn) start stop)
    as [[[text tm]|] queue] eqn:Epoll.
  - eexists. split; [reflexivity | ].
    cbn [it_globals it_replay_done it_text it_event_time].
    split; [ | split; [reflexivity | ]].
    + unfold put_stream, set_streams, set_dbus. cbn [streams].
      now rewrite update_nth_same.
    + intros text' [= <-].
      destruct (dbus_poll_returns_message _ _ _ _ _ _ _ _ Epoll)
        as (m & t & rest & Hin & Hsig & Hargs & ->).
      destruct (dbus_poll_in_window _ _ _ _ _ _ _ _ Epoll) as (Hs & Hp & _).
      exists conn, m, t, rest. now repeat split.
  - eexists. split; [reflexivity | ].
    cbn [it_globals it_replay_done it_text it_event_time].
    split; [ | split; [reflexivity | discriminate]].
    unfold put_stream, set_streams, set_dbus. cbn [streams].
    now rewrite update_nth_same.
Qed.

(** X14. The end of the replay. A call with a start time, for a stream of
    the list that keeps no events or whose file has nothing left to read,
    while [replay_done] is 0: it returns the replayComplete notification with
    the time of the clock, stores that time through [event_time] and sets
    [replay_done], and the streams keep their names, rules and file
    contents. *)
Theorem iter_next_replay_complete (fuel : nat) (sys : system) (io : iter_io)
    (g : globals) (nm : string) (i : nat) (s : stream) (start stop : Z)
    (event_time : option Z) :
  ncntf_config g = true ->
  find_stream (streams g) nm = Some i ->
  nth_error (streams g) i = Some s ->
  start <> -1 -> (stop = -1 \/ start <= stop) ->
  (replay s <> 1 \/ remaining (events s) = []) ->
  exists g',
    ncntf_stream_iter_next nc_time2datetime (S fuel) sys io g 0 (Some nm)
                           start stop event_time
    = Some (mkIterResult (Some (replayComplete_text (nc_time2datetime (it_time io))))
                         g' 1 (store_time event_time (it_time io)))
    /\ dbus g' = dbus g
    /\ map (fun x => (name x, rules x, f_data (events x))) (streams g')
       = map (fun x => (name x, rules x, f_data (events x))) (streams g).
Proof.
  intros Hconfig Hfind Hnth Hstart Hstop Hend.
  unfold ncntf_stream_iter_next. rewrite Hconfig. cbn [negb].
  replace (negb (start =? -1) && negb (stop =? -1) && (stop <? start)) with false by lia.
  unfold ncntf_stream_get. rewrite Hfind, Hnth.
  replace (start =? -1) with false by lia.
  cbn [iter_loop]. change (0 =? 0) with true. cbn [andb negb].
  replace (start =? -1) with false by lia. cbn [negb andb].
  assert (Hmap : forall f, f_data f = f_data (events s) ->
            map (fun x => (name x, rules x, f_data (events x)))
                (streams (put_stream g i (set_events s f)))
            = map (fun x => (name x, rules x, f_data (events x))) (streams g)).
  { intros f Hf. unfold put_stream. cbn [streams set_streams].
    clear -Hnth Hf. revert i Hnth.
    induction (streams g) as [|x ss IH]; intros [|i] Hnth; cbn in *; try discriminate.
    - injection Hnth as ->. now rewrite Hf.
    - now rewrite (IH i Hnth). }
  destruct (replay s =? 1) eqn:Hreplay.
  - (* the file has nothing left *)
    destruct Hend as [Hne | Hrem]; [apply Z.eqb_eq in Hreplay; contradiction | ].
    rewrite lseek_cur_0, lseek_end_0. cbn [fst snd].
    pose proof (remaining_nil_size _ Hrem) as Hsize.
    replace (Z.of_nat (f_pos (events s)) <? f_size (events s)) with false by lia.
    cbn [negb]. eexists. split; [reflexivity | ]. split; [reflexivity | ].
    now apply Hmap.
  - cbn [negb]. rewrite set_events_same.
    eexists. split; [reflexivity | ]. split; [reflexivity | ].
    now rewrite put_stream_same by exact Hnth.
Qed.

End Live.

(** X13 at an example: the signals of the times 50 and 200 are waiting, and
    the events from 100 to 300 are asked for. *)
Lemma iter_next_live_in_window_witness :
  exists res,
    ncntf_stream_iter_next iso8601 1 bare_system (iter_ok 5000) live_state 1 (Some "A")
                           100 300 (Some 0) = Some res
    /\ it_text res = Some "<x/>" /\ it_event_time res = Some 200.
Proof.
  destruct (iter_next_live_in_window iso8601 0 bare_system (iter_ok 5000) live_state 1
              "A" 0 100 300 (Some 0) eq_refl eq_refl ltac:(discriminate))
    as (res & Hres & _).
  exists res. split; [exact Hres | ].
  vm_compute in Hres. injection Hres as <-. split; reflexivity.
Defined.

(** X14 at an example: the stream "A" has no record, and the events from
    100 on are asked for at the time 5000. *)
Lemma iter_next_replay_complete_witness :
  exists g',
    ncntf_stream_iter_next iso8601 1 bare_system (iter_ok 5000) one_stream 0 (Some "A")
                           100 (-1) (Some 0)
    = Some (mkIterResult (Some (replayComplete_text (iso8601 5000))) g' 1 (Some 5000)).
Proof.
  destruct (iter_next_replay_complete iso8601 0 bare_system (iter_ok 5000) one_stream
              "A" 0 (example_stream "A" 1 ("x" ++ LFs)) 100 (-1) (Some 0)
              eq_refl eq_refl eq_refl ltac:(discriminate) (or_introl eq_refl)
              (or_intror eq_refl))
    as (g' & Hcall & _).
  exists g'. exact Hcall.
Defined.

(** ** Replaying what was published *)

Lemma filter_in_window_empty (start stop : Z) (recs : list event_rec) :
  stop <> -1 -> stop < start -> filter (in_window start stop) recs = [].
Proof.
  intros H1 H2. induction recs as [|r recs IH]; [reflexivity | ].
  cbn [filter]. now rewrite in_window_empty.
Qed.

Section Replaying.

Variable nc_time2datetime : Z -> option string.
Variable sys : system.
Variable io : iter_io.
Variables start stop : Z.

Hypothesis start_set : start <> -1.
Hypothesis lockf_ok : forall n, it_lockf io n = true.

(** The records a caller gets from the file, when it makes more calls than
    there are records in the window. *)
Lemma replayed_in_window (nm : string) (i : nat) (fuel : nat) :
  forall (calls : nat) (recs : list event_rec) (g : globals) (s : stream),
  ncntf_config g = true ->
  find_stream (streams g) nm = Some i ->
  nth_error (streams g) i = Some s ->
  replay s = 1 ->
  remaining (events s) = encode_records recs ->
  Forall well_formed recs ->
  (List.length recs < fuel)%nat ->
  (List.length (filter (in_window start stop) recs) < calls)%nat ->
  replayed nc_time2datetime calls fuel sys io g 0 (Some nm) start stop
  = Some (map delivered (filter (in_window start stop) recs)).
Proof.
  induction calls as [|calls IH];
    intros recs g s Hcfg Hfind Hnth Hreplay Hrem Hwf Hfuel Hcalls; [lia | ].
  cbn [replayed]. unfold ncntf_stream_iter_next. rewrite Hcfg. cbn [negb].
  replace (start =? -1) with false by lia. cbn [negb andb].
  destruct (negb (stop =? -1) && (stop <? start)) eqn:Eempty.
  - cbn [it_replay_done it_text]. change (0 =? 0) with true. cbn iota.
    rewrite filter_in_window_empty by lia. reflexivity.
  - unfold ncntf_stream_get. rewrite Hfind, Hnth.
    destruct (iter_loop_records nc_time2datetime sys io start stop start_set lockf_ok
                recs (Some 0) fuel O g i s
                (stale_object sys "len" 4) (stale_object sys "t" 8)
                Hfuel Hreplay Hrem Hwf
                (stale_object_length _ _ _) (stale_object_length _ _ _))
      as (res & -> & Hres).
    destruct (filter (in_window start stop) recs) as [|r found] eqn:Efilter.
    + now rewrite Hres.
    + assert (Hr : in_window start stop r = true).
      { assert (Hin : In r (filter (in_window start stop) recs))
          by (rewrite Efilter; now left).
        apply filter_In in Hin. tauto. }
      destruct Hres as (s' & skipped & rest & -> & Hsk & Htext & Htime & Hdone
                        & Hglob & Hname & Hreplay' & Hrem').
      rewrite filter_app, Hsk in Efilter. cbn [app filter] in Efilter.
      rewrite Hr in Efilter. injection Efilter as <-.
      rewrite Hdone, Htext, Htime. change (0 =? 0) with true. cbn iota.
      cbn [store_time map]. fold (delivered r). rewrite Hglob.
      destruct (find_stream_nth _ _ _ Hfind) as (s0 & Hs0 & Hn0).
      assert (s0 = s) by congruence. subst s0.
      apply Forall_app in Hwf as [_ Hwf]. inversion Hwf as [|? ? _ Hwf']; subst.
      rewrite length_app in Hfuel. cbn [List.length] in Hfuel, Hcalls.
      rewrite (IH rest (put_stream g i s') s'); try assumption; try lia; [reflexivity | | ].
      * unfold put_stream, set_streams. cbn [streams].
        apply find_stream_update; [assumption | congruence].
      * unfold put_stream, set_streams. cbn [streams].
        now apply (nth_error_update_nth_eq i s' s).
Qed.

End Replaying.

(** [ncntf_stream_iter_start] for a stream of the list: the descriptor goes
    to the offset [data] and the flag is cleared. *)
Lemma iter_start_listed (sys : system) (g : globals) (replay_done : Z) (nm : string)
    (i : nat) (s : stream) :
  ncntf_config g = true ->
  find_stream (streams g) nm = Some i ->
  nth_error (streams g) i = Some s ->
  ncntf_stream_iter_start sys g replay_done (Some nm)
  = (put_stream g i (set_events s (snd (lseek_set (events s) (data s)))), 0).
Proof.
  intros Hcfg Hfind Hnth. unfold ncntf_stream_iter_start, ncntf_stream_get.
  now rewrite Hcfg, Hfind, Hnth.
Qed.

Lemma append_event_data_replay (a : append_io) (len etime64 : Z) (record : string)
    (s : stream) :
  data (append_event a len etime64 record s) = data s
  /\ replay (append_event a len etime64 record s) = replay s.
Proof.
  unfold append_event. rewrite ncntf_stream_lock_eq.
  destruct (ap_lockf a); cbn [EXIT_SUCCESS EXIT_FAILURE Z.eqb]; [ | now split].
  destruct (lseek_end (events (set_locked s 1)) 0) as [offset f0].
  destruct (write_loop (ap_len a) f0 _) as [r1 f1].
  destruct (if r1 =? -1 then _ else _) as [r2 f2].
  destruct (if r2 =? -1 then _ else _) as [r3 f3].
  rewrite ncntf_stream_unlock_eq. cbn [locked set_events set_locked].
  change (1 =? 0) with false. cbn iota.
  now destruct (ap_ulockf a).
Qed.

(** What the state the publisher leaves holds at the position of a stream
    it writes to. *)
Lemma published_stream (io : publish_io) (len etime64 : Z) (record ename : string)
    (g : globals) (nm : string) (k : nat) (s : stream) :
  nth_error (streams g) k = Some s ->
  replay s <> 0 -> admits g ename s = true ->
  ncntf_config (published io len etime64 record ename g) = ncntf_config g
  /\ find_stream (streams (published io len etime64 record ename g)) nm
     = find_stream (streams g) nm
  /\ nth_error (streams (published io len etime64 record ename g)) k
     = Some (append_event (pub_append io k) len etime64 record s).
Proof.
  intros Hnth Hreplay Hadmits. unfold published. cbn [ncntf_config streams].
  split; [reflexivity | split].
  - apply same_rules_find, same_rules_stored.
  - rewrite nth_error_mapi_from, Hnth. cbn [option_map Nat.add]. unfold stored.
    rewrite (proj2 (Z.eqb_neq _ _) Hreplay), Hadmits. reflexivity.
Qed.

Section Composition.

Variable nc_time2datetime : Z -> option string.
Variable xml_root_name : string -> option string.
Variable nc_session_term_string : NC_SESSION_TERM_REASON -> string.

(** The length and the time that the publisher goes on with. *)
Lemma prepare_event_fields (io : publish_io) (g : globals) (etime : Z)
    (event : event_params) (len etime64 : Z) (record ename : string) :
  prepare_event nc_time2datetime xml_root_name nc_session_term_string io g etime event
  = Some (len, etime64, record, ename) ->
  ncntf_config g = true
  /\ len = to_int32 (to_int32 (strlen record) + 1)
  /\ 0 <= etime64 < 2 ^ 64.
Proof.
  unfold prepare_event.
  destruct (ncntf_config g); cbn [negb]; [ | discriminate].
  destruct (event_content nc_session_term_string event) as [content|]; [ | discriminate].
  destruct ((if etime =? -1 then pub_time io else etime) =? -1); [discriminate | ].
  destruct (nc_time2datetime _) as [event_time|]; [ | discriminate].
  destruct (xml_root_name content) as [en|]; [ | discriminate].
  destruct (to_int32 (strlen (event_record event_time content)) =? -1); [discriminate | ].
  intros H.
  pose proof (f_equal (fun o => match o with Some (l, _, _, _) => l | None => 0 end) H) as Hl.
  pose proof (f_equal (fun o => match o with Some (_, e, _, _) => e | None => 0 end) H) as He.
  pose proof (f_equal (fun o => match o with Some (_, _, r, _) => r | None => EmptyString end) H)
    as Hr.
  cbv beta iota in Hl, He, Hr. clear H.
  split; [reflexivity | split].
  - now rewrite <- Hl, <- Hr.
  - rewrite <- He. unfold to_uint64. apply Z.mod_pos_bound. lia.
Qed.

Variable sys : system.
Variable io : iter_io.
Variables start stop : Z.

Hypothesis start_set : start <> -1.
Hypothesis lockf_ok : forall n, it_lockf io n = true.

(** X15. [ncntf_stream_iter_start] starts the replay over: wherever the
    descriptor of the stream was and whatever the flag [replay_done] was,
    the calls of [ncntf_stream_iter_next] that follow return the records of
    the file that lie in the window, from the first record on, in the order
    of the file. *)
Theorem iter_start_replays (g : globals) (replay_done : Z) (nm : string) (i : nat)
    (s : stream) (header : list ascii) (recs : list event_rec) (fuel calls : nat) :
  ncntf_config g = true ->
  find_stream (streams g) nm = Some i ->
  nth_error (streams g) i = Some s ->
  replay s = 1 ->
  f_data (events s) = header ++ encode_records recs ->
  data s = Z.of_nat (List.length header) ->
  Forall well_formed recs ->
  (List.length recs < fuel)%nat ->
  (List.length (filter (in_window start stop) recs) < calls)%nat ->
  let '(g1, flag) := ncntf_stream_iter_start sys g replay_done (Some nm) in
  replayed nc_time2datetime calls fuel sys io g1 flag (Some nm) start stop
  = Some (map delivered (filter (in_window start stop) recs)).
Proof.
  intros Hcfg Hfind Hnth Hreplay Hfile Hdata Hwf Hfuel Hcalls.
  rewrite (iter_start_listed sys g replay_done nm i s Hcfg Hfind Hnth).
  rewrite Hdata, lseek_set_nat. cbn [snd].
  set (s1 := set_events s (mkFile (f_data (events s)) (List.length header))).
  destruct (find_stream_put g nm i s s1 Hfind Hnth eq_refl) as [Hfind1 Hnth1].
  apply (replayed_in_window nc_time2datetime sys io start stop start_set lockf_ok
           nm i fuel calls recs (put_stream g i s1) s1); try assumption.
  unfold remaining. cbn [s1 events set_events f_data f_pos].
  rewrite Hfile. apply skipn_app_exact.
Qed.

(** X16. An event published with [ncntf_event_new] is replayed. For a
    stream of the list that keeps its events and admits the event, whose
    file holds the records [recs] after its header: when the append is
    complete, a replay started afterwards returns the records of [recs] in
    the window followed, when its time lies in the window, by the text and
    the time of the new event. *)
Theorem published_event_replayed (psys : system) (pio : publish_io) (g : globals)
    (etime : Z) (event : event_params) (len etime64 : Z) (record ename : string)
    (nm : string) (k : nat) (s : stream) (header : list ascii)
    (recs : list event_rec) (replay_done : Z) (fuel calls : nat) :
  prepare_event nc_time2datetime xml_root_name nc_session_term_string pio g etime event
  = Some (len, etime64, record, ename) ->
  find_stream (streams g) nm = Some k ->
  nth_error (streams g) k = Some s ->
  replay s = 1 -> admits g ename s = true ->
  append_complete (pub_append pio k) ->
  f_data (events s) = header ++ encode_records recs ->
  data s = Z.of_nat (List.length header) ->
  Forall well_formed recs ->
  no_nul (list_ascii_of_string record) -> strlen record + 1 < 2 ^ 31 ->
  (S (List.length recs) < fuel)%nat ->
  (S (List.length recs) < calls)%nat ->
  let g1 := snd (ncntf_event_new nc_time2datetime xml_root_name nc_session_term_string
                                 psys pio g etime event) in
  let '(g2, flag) := ncntf_stream_iter_start sys g1 replay_done (Some nm) in
  replayed nc_time2datetime calls fuel sys io g2 flag (Some nm) start stop
  = Some (map delivered
              (filter (in_window start stop) (recs ++ [mkRec etime64 record]))).
Proof.
  intros Hprep Hfind Hnth Hreplay Hadmits Happend Hfile Hdata Hwf Hnul Hlen Hfuel Hcalls.
  cbv zeta.
  destruct (prepare_event_fields _ _ _ _ _ _ _ _ Hprep) as (Hcfg & Hl & Ht).
  rewrite ncntf_event_new_eq, Hprep. cbn [snd].
  set (g1 := published pio len etime64 record ename g).
  destruct (published_stream pio len etime64 record ename g nm k s Hnth
              ltac:(lia) Hadmits) as (Hcfg1 & Hfind1 & Hnth1).
  fold g1 in Hcfg1, Hfind1, Hnth1. rewrite Hfind in Hfind1. rewrite Hcfg in Hcfg1.
  set (s1 := append_event (pub_append pio k) len etime64 record s) in *.
  destruct (append_event_data_replay (pub_append pio k) len etime64 record s)
    as [Hdata1 Hreplay1].
  fold s1 in Hdata1, Hreplay1.
  assert (Hlen' : len = strlen record + 1).
  { rewrite Hl. unfold strlen in *. rewrite (to_int32_small (Z.of_nat _)) by lia.
    apply to_int32_small. lia. }
  assert (Hfile1 : f_data (events s1)
                   = header ++ encode_records (recs ++ [mkRec etime64 record])).
  { unfold s1. rewrite append_event_complete by exact Happend.
    cbn [at_end f_data]. rewrite Hfile, <- app_assoc. f_equal.
    unfold encode_records. rewrite map_app, concat_app. f_equal.
    cbn [map List.concat]. rewrite app_nil_r. unfold encode_record.
    cbn [er_text er_time]. now rewrite Hlen'. }
  assert (Hwf1 : Forall well_formed (recs ++ [mkRec etime64 record])).
  { apply Forall_app. split; [exact Hwf | ]. constructor; [ | constructor].
    unfold well_formed. cbn [er_text er_time]. now repeat split. }
  rewrite (iter_start_listed sys g1 replay_done nm k s1 Hcfg1 Hfind1 Hnth1).
  rewrite Hdata1, Hdata, lseek_set_nat. cbn [snd].
  set (s2 := set_events s1 (mkFile (f_data (events s1)) (List.length header))).
  destruct (find_stream_put g1 nm k s1 s2 Hfind1 Hnth1 eq_refl) as [Hfind2 Hnth2].
  apply (replayed_in_window nc_time2datetime sys io start stop start_set lockf_ok
           nm k fuel calls _ (put_stream g1 k s2) s2); try assumption.
  - cbn [s2 replay set_events]. congruence.
  - unfold remaining. cbn [s2 events set_events f_data f_pos].
    rewrite Hfile1. apply skipn_app_exact.
  - rewrite length_app. cbn [List.length]. lia.
  - pose proof (filter_length_le (in_window start stop) (recs ++ [mkRec etime64 record]))
      as Hle.
    rewrite length_app in Hle. cbn [List.length] in Hle. lia.
Qed.

(** X17. The publisher and the iterator use the same descriptor of a
    stream. Once [ncntf_event_new] has appended an event to a stream, the
    descriptor is at the end of the file: the next call of
    [ncntf_stream_iter_next] of a replay that was going on returns the
    replayComplete notification, whatever records were left to read. *)
Theorem publish_ends_replay (psys : system) (pio : publish_io) (g : globals)
    (etime : Z) (event : event_params) (len etime64 : Z) (record ename : string)
    (nm : string) (k : nat) (s : stream) (fuel : nat) (event_time : option Z) :
  prepare_event nc_time2datetime xml_root_name nc_session_term_string pio g etime event
  = Some (len, etime64, record, ename) ->
  find_stream (streams g) nm = Some k ->
  nth_error (streams g) k = Some s ->
  replay s = 1 -> admits g ename s = true ->
  append_complete (pub_append pio k) ->
  (stop = -1 \/ start <= stop) ->
  let g1 := snd (ncntf_event_new nc_time2datetime xml_root_name nc_session_term_string
                                 psys pio g etime event) in
  exists g2,
    ncntf_stream_iter_next nc_time2datetime (S fuel) sys io g1 0 (Some nm)
                           start stop event_time
    = Some (mkIterResult (Some (replayComplete_text (nc_time2datetime (it_time io))))
                         g2 1 (store_time event_time (it_time io))).
Proof.
  intros Hprep Hfind Hnth Hreplay Hadmits Happend Hstop. cbv zeta.
  destruct (prepare_event_fields _ _ _ _ _ _ _ _ Hprep) as (Hcfg & _ & _).
  rewrite ncntf_event_new_eq, Hprep. cbn [snd].
  set (g1 := published pio len etime64 record ename g).
  destruct (published_stream pio len etime64 record ename g nm k s Hnth
              ltac:(lia) Hadmits) as (Hcfg1 & Hfind1 & Hnth1).
  fold g1 in Hcfg1, Hfind1, Hnth1. rewrite Hfind in Hfind1. rewrite Hcfg in Hcfg1.
  set (s1 := append_event (pub_append pio k) len etime64 record s) in *.
  destruct (append_event_data_replay (pub_append pio k) len etime64 record s)
    as [_ Hreplay1].
  fold s1 in Hreplay1.
  assert (Hrem : remaining (events s1) = []).
  { unfold s1. rewrite append_event_complete by exact Happend.
    unfold remaining, at_end. cbn [f_data f_pos]. apply skipn_all. }
  unfold ncntf_stream_iter_next. rewrite Hcfg1. cbn [negb].
  replace (negb (start =? -1) && negb (stop =? -1) && (stop <? start)) with false by lia.
  unfold ncntf_stream_get. rewrite Hfind1, Hnth1.
  replace (start =? -1) with false by lia.
  apply (iter_loop_end nc_time2datetime sys io start stop start_set
           fuel O g1 k s1 _ _ event_time); [congruence | exact Hrem].
Qed.

End Composition.

(** X15 at an example: the stream "A" after three events were published to
    it, its descriptor at the end of the file, and the flag set. *)
Lemma iter_start_replays_witness :
  let '(g1, flag) := ncntf_stream_iter_start bare_system published_thrice 1 (Some "A") in
  replayed iso8601 4 4 bare_system (iter_ok 5000) g1 flag (Some "A") 150 250
  = Some (map delivered (filter (in_window 150 250) stored_records)).
Proof.
  apply (iter_start_replays iso8601 bare_system (iter_ok 5000) 150 250
           ltac:(discriminate) (fun _ => eq_refl) published_thrice 1 "A" 0
           (set_events replay_stream (at_end (f_data (events replay_stream))))
           (f_data (events (example_stream "A" 1 ("x" ++ LFs))))
           stored_records 4 4).
  - reflexivity.
  - reflexivity.
  - vm_compute. reflexivity.
  - reflexivity.
  - reflexivity.
  - reflexivity.
  - exact stored_records_well_formed.
  - cbn. lia.
  - vm_compute. lia.
Defined.

(** X16 at an example: the event [x] is published at the time 1000 to the
    stream "A", which has no record yet, and the events from 500 on are
    asked for. *)
Lemma published_event_replayed_witness :
  let g1 := snd (example_event_new bare_system (publish_ok 5000) one_stream 1000
                                   generic_x) in
  let '(g2, flag) := ncntf_stream_iter_start bare_system g1 1 (Some "A") in
  replayed iso8601 3 3 bare_system (iter_ok 6000) g2 flag (Some "A") 500 (-1)
  = Some (map delivered (filter (in_window 500 (-1)) ([] ++ [mkRec 1000 example_record]))).
Proof.
  apply (published_event_replayed iso8601 root_element_name term_string
           bare_system (iter_ok 6000) 500 (-1) ltac:(discriminate) (fun _ => eq_refl)
           bare_system (publish_ok 5000) one_stream 1000 generic_x
           example_len 1000 example_record "x" "A" 0
           (example_stream "A" 1 ("x" ++ LFs))
           (f_data (events (example_stream "A" 1 ("x" ++ LFs)))) [] 1 3 3).
  - vm_compute. reflexivity.
  - reflexivity.
  - reflexivity.
  - reflexivity.
  - reflexivity.
  - repeat split.
  - now rewrite app_nil_r.
  - reflexivity.
  - constructor.
  - apply no_nul_check. reflexivity.
  - reflexivity.
  - cbn. lia.
  - cbn. lia.
Defined.

(** X17 at an example: the three records of the stream "A" are still to be
    read when the event [x] is published to it. *)
Lemma publish_ends_replay_witness :
  exists g2,
    ncntf_stream_iter_next iso8601 1 bare_system (iter_ok 6000)
      (snd (example_event_new bare_system (publish_ok 5000) replay_state 1000 generic_x))
      0 (Some "A") 150 (-1) (Some 0)
    = Some (mkIterResult (Some (replayComplete_text (iso8601 6000))) g2 1 (Some 6000)).
Proof.
  apply (publish_ends_replay iso8601 root_element_name term_string
           bare_system (iter_ok 6000) 150 (-1) ltac:(discriminate)
           bare_system (publish_ok 5000) replay_state 1000 generic_x
           example_len 1000 example_record "x" "A" 0 replay_stream 0 (Some 0)).
  - vm_compute. reflexivity.
  - reflexivity.
  - reflexivity.
  - reflexivity.
  - reflexivity.
  - repeat split.
  - now left.
Defined.

(** ** Looking streams and events up *)

Lemma strtok_tokens_rules_text (lines : list (list ascii)) :
  Forall rule_line lines -> strtok_tokens LF (rules_text lines) = lines.
Proof.
  induction 1 as [|line lines [Hne Hlf] _ IH]; [reflexivity | ].
  unfold rules_text in *. cbn [map List.concat]. rewrite <- app_assoc. cbn [app].
  rewrite strtok_tokens_app, IH. unfold strtok_tokens. rewrite split_on_one by exact Hlf.
  destruct line; [contradiction | reflexivity].
Qed.

(** X18. Events are matched against whole lines of the rules. For a stream
    of the list whose rules text is a sequence of lines, each followed by a
    newline, [ncntf_event_isallowed] answers 1 when the name of the event is
    one of the lines and 0 otherwise, and leaves the state as it is. *)
Theorem isallowed_whole_lines (sys : system) (g : globals) (nm ev : string) (i : nat)
    (s : stream) (lines : list (list ascii)) :
  find_stream (streams g) nm = Some i ->
  nth_error (streams g) i = Some s ->
  c_str (rules s) = rules_text lines ->
  Forall rule_line lines ->
  snd (ncntf_event_isallowed sys g (Some nm) (Some ev)) = g
  /\ (fst (ncntf_event_isallowed sys g (Some nm) (Some ev)) = 1
      <-> In (list_ascii_of_string ev) lines)
  /\ (fst (ncntf_event_isallowed sys g (Some nm) (Some ev)) = 0
      <-> ~ In (list_ascii_of_string ev) lines).
Proof.
  intros Hfind Hnth Htext Hlines.
  rewrite (isallowed_listed sys g nm ev i Hfind). cbn [fst snd].
  unfold allowed_in. rewrite Hfind, Hnth, Htext, strtok_tokens_rules_text by exact Hlines.
  split; [reflexivity | ].
  destruct (existsb _ lines) eqn:Hex.
  - apply existsb_exists in Hex as (line & Hin & Heq).
    apply list_ascii_eqb_spec in Heq. subst line.
    split; split; intros H; [assumption | reflexivity | discriminate | contradiction].
  - assert (Hnot : ~ In (list_ascii_of_string ev) lines).
    { intros Hin. apply Bool.not_true_iff_false in Hex. apply Hex.
      apply existsb_exists. exists (list_ascii_of_string ev).
      split; [exact Hin | now apply list_ascii_eqb_spec]. }
    split; split; intros H; [discriminate | contradiction | assumption | reflexivity].
Qed.

(** The fields [read_fileheader] sets without reading them from the
    file. *)
Lemma loaded_header_fields (sys : system) (filepath : string) (s : stream) :
  read_fileheader sys filepath = Some s ->
  locked s = 0 /\ fd_rules s = -1 /\ rules s = [].
Proof.
  unfold read_fileheader.
  destruct (sys_open sys filepath) as [[fd bytes]|]; [ | discriminate].
  repeat match goal with
         | |- context [read_into ?f ?o ?n] =>
             destruct (read_into f o n) as [[? ?] ?]
         | |- (if ?c then None else _) = Some _ -> _ =>
             destruct c; [discriminate | ]
         end.
  intros [= <-]. now repeat split.
Qed.

(** X19. What [ncntf_stream_get] returns. NULL leaves the state as it was,
    and the name asked for is not in the list. A stream returned is in the
    list that results, which has the settings and the names of the one
    before; it is the stream of that name that was in the list, the state
    unchanged, or a stream just loaded from its file and put first; and it
    is found again under its own name without a file being read. *)
Theorem stream_get_result (sys : system) (g g' : globals) (nm : string)
    (r : option nat) :
  ncntf_stream_get sys g (Some nm) = (r, g') ->
  match r with
  | None => g' = g /\ find_stream (streams g) nm = None
  | Some i =>
      exists s,
        nth_error (streams g') i = Some s
        /\ extends g g'
        /\ ((g' = g /\ find_stream (streams g) nm = Some i /\ name s = nm)
            \/ (i = O /\ streams g' = s :: streams g
                /\ find_stream (streams g) nm = None
                /\ read_fileheader sys (printf_s (streams_path g) ++ "/" ++ nm ++ ".events")
                   <> None
                /\ locked s = 0 /\ fd_rules s <> -1))
        /\ forall sys', ncntf_stream_get sys' g' (Some (name s)) = (Some i, g')
  end.
Proof.
  unfold ncntf_stream_get.
  destruct (find_stream (streams g) nm) as [i|] eqn:Hfind.
  - intros [= <- <-].
    destruct (find_stream_nth _ _ _ Hfind) as (s & Hnth & Hname).
    exists s. split; [exact Hnth | split; [apply extends_refl | split]].
    + left. now repeat split.
    + intros sys'. now rewrite Hname, Hfind.
  - destruct (read_fileheader sys _) as [s|] eqn:Hread; [ | intros [= <- <-]; now split].
    destruct (map_rules (streams_path g) sys s) as [r1 s1] eqn:Hmap.
    destruct (r1 =? 0) eqn:Hr1; [ | intros [= <- <-]; now split].
    intros [= <- <-]. apply Z.eqb_eq in Hr1. subst r1.
    destruct (loaded_header_fields _ _ _ Hread) as (Hl & _).
    destruct (map_rules_fields _ _ _ _ _ Hmap)
      as (_ & _ & _ & _ & M5 & _ & _ & _ & _ & M10).
    destruct (M10 eq_refl) as (Hfd & _).
    exists s1. cbn [streams set_streams nth_error].
    split; [reflexivity | split; [apply extends_cons | split]].
    + right. repeat split; congruence.
    + intros sys'. cbn [find_stream]. now rewrite String.eqb_refl.
Qed.

(** A lookup that returns NULL leaves the state. *)
Lemma stream_get_null (sys : system) (g g' : globals) (stream : option string) :
  ncntf_stream_get sys g stream = (None, g') -> g' = g.
Proof.
  unfold ncntf_stream_get. destruct stream as [nm|]; [ | now intros [= <-]].
  destruct (find_stream (streams g) nm); [discriminate | ].
  destruct (read_fileheader sys _) as [s|]; [ | now intros [= <-]].
  destruct (map_rules (streams_path g) sys s) as [r1 s1].
  destruct (r1 =? 0); [discriminate | now intros [= <-]].
Qed.

Section Unknown.

Variable nc_time2datetime : Z -> option string.
Variable NCNTF_STREAM_DEFAULT : string.
Variable nc_datetime2time : string -> Z.

(** X20. A stream that [ncntf_stream_get] does not find, in the list or as
    a file it can load with its rules, is refused by every function that
    takes its name, and the state stays as it is: no event is allowed in it
    or can be allowed, the iterator does not start and returns NULL, and a
    subscription to it gets the error invalid-value with a message that
    names the stream, whatever its times are. *)
Theorem unknown_stream_refused (sys : system) (g g' : globals) (nm : string) :
  ncntf_stream_get sys g (Some nm) = (None, g') ->
  g' = g
  /\ (forall event, ncntf_event_isallowed sys g (Some nm) event = (0, g))
  /\ (forall event,
        ncntf_stream_allow_events sys g (Some nm) event = (EXIT_FAILURE, g, []))
  /\ (forall replay_done,
        ncntf_stream_iter_start sys g replay_done (Some nm) = (g, replay_done))
  /\ (forall fuel io replay_done start stop event_time,
        ncntf_stream_iter_next nc_time2datetime fuel sys io g replay_done (Some nm)
                               start stop event_time
        = Some (mkIterResult None g replay_done event_time))
  /\ (forall now rpc start stop,
        ncntf_subscription_get_params NCNTF_STREAM_DEFAULT nc_datetime2time (Some rpc)
        = (0, nm, start, stop) ->
        ncntf_subscription_check NCNTF_STREAM_DEFAULT nc_datetime2time sys now g (Some rpc)
        = (nc_reply_error
             (mkErr NC_ERR_INVALID_VALUE None None
                    (Some ("Requested stream '" ++ nm ++ "' does not exist.")%string)),
           g)).
Proof.
  intros Hget. pose proof (stream_get_null _ _ _ _ Hget) as ->.
  split; [reflexivity | ].
  split; [ | split; [ | split; [ | split]]].
  - intros [ev|]; unfold ncntf_event_isallowed; [now rewrite Hget | reflexivity].
  - intros [ev|]; unfold ncntf_stream_allow_events, ncntf_event_isallowed;
      [ | reflexivity].
    rewrite Hget. cbn [negb Z.eqb]. now rewrite Hget.
  - intros replay_done. unfold ncntf_stream_iter_start. rewrite Hget.
    now destruct (ncntf_config g).
  - intros fuel io replay_done start stop event_time. unfold ncntf_stream_iter_next.
    rewrite Hget. destruct (ncntf_config g); cbn [negb]; [ | reflexivity].
    now destruct (negb (start =? -1) && negb (stop =? -1) && (stop <? start)).
  - intros now rpc start stop Hparams. unfold ncntf_subscription_check.
    rewrite Hparams.
    assert (Hop : rpc_is_create_subscription rpc = true).
    { unfold ncntf_subscription_get_params in Hparams.
      destruct (rpc_is_create_subscription rpc); [reflexivity | discriminate]. }
    rewrite Hop. cbn [negb Z.eqb]. now rewrite Hget.
Qed.

(** X21. [ncntf_subscription_check] answers ok exactly when the request is
    a create-subscription that [ncntf_subscription_get_params] reads without
    error, its stream is found by [ncntf_stream_get], a stop time comes with
    a start time that is not after it, and a start time is not in the
    future. *)
Theorem subscription_check_ok (sys : system) (now : Z) (g : globals)
    (subscribe_rpc : option nc_rpc) :
  fst (ncntf_subscription_check NCNTF_STREAM_DEFAULT nc_datetime2time sys now g
                                subscribe_rpc) = nc_reply_ok
  <-> exists rpc stream start stop,
        subscribe_rpc = Some rpc
        /\ ncntf_subscription_get_params NCNTF_STREAM_DEFAULT nc_datetime2time (Some rpc)
           = (0, stream, start, stop)
        /\ fst (ncntf_stream_get sys g (Some stream)) <> None
        /\ (stop <> -1 -> start <> -1 /\ start <= stop)
        /\ (start <> -1 -> start <= now).
Proof.
  unfold ncntf_subscription_check. destruct subscribe_rpc as [rpc|].
  2:{ split; [discriminate | ]. now intros (rpc & _ & _ & _ & [=] & _). }
  destruct (rpc_is_create_subscription rpc) eqn:Hop; cbn [negb].
  2:{ split; [discriminate | ].
      intros (rpc' & stream & start & stop & [= <-] & Hparams & _).
      unfold ncntf_subscription_get_params in Hparams. rewrite Hop in Hparams.
      discriminate. }
  destruct (ncntf_subscription_get_params NCNTF_STREAM_DEFAULT nc_datetime2time (Some rpc))
    as [[[r stream] start] stop] eqn:Hparams.
  assert (Hinv : forall P : Prop,
            (forall stream' start' stop',
               (r, stream, start, stop) = (0, stream', start', stop') ->
               fst (ncntf_stream_get sys g (Some stream')) <> None ->
               (stop' <> -1 -> start' <> -1 /\ start' <= stop') ->
               (start' <> -1 -> start' <= now) -> P) ->
            (exists rpc' stream' start' stop',
               Some rpc = Some rpc'
               /\ ncntf_subscription_get_params NCNTF_STREAM_DEFAULT nc_datetime2time
                    (Some rpc') = (0, stream', start', stop')
               /\ fst (ncntf_stream_get sys g (Some stream')) <> None
               /\ (stop' <> -1 -> start' <> -1 /\ start' <= stop')
               /\ (start' <> -1 -> start' <= now)) -> P).
  { intros P HP (rpc' & stream' & start' & stop' & [= <-] & Hp & H1 & H2 & H3).
    rewrite Hparams in Hp. now apply (HP stream' start' stop'). }
  destruct (r =? 0) eqn:Hr.
  - apply Z.eqb_eq in Hr. subst r.
    destruct (ncntf_stream_get sys g (Some stream)) as [[i|] g1] eqn:Hget.
    + destruct (negb (stop =? -1) && (start =? -1)) eqn:E1.
      { split; [discriminate | ]. apply Hinv.
        intros stream' start' stop' [= <- <- <-] _ H1 _. exfalso. clear - E1 H1. lia. }
      destruct (negb (stop =? -1) && negb (start =? -1) && (start >? stop)) eqn:E2.
      { split; [discriminate | ]. apply Hinv.
        intros stream' start' stop' [= <- <- <-] _ H1 _. exfalso. clear - E2 H1. lia. }
      destruct (negb (start =? -1) && (start >? now)) eqn:E3.
      { split; [discriminate | ]. apply Hinv.
        intros stream' start' stop' [= <- <- <-] _ _ H2. exfalso. clear - E3 H2. lia. }
      split; [intros _ | reflexivity].
      exists rpc, stream, start, stop. rewrite Hget. cbn [fst].
      split; [reflexivity | split; [exact Hparams | split; [discriminate | ]]].
      clear - E1 E2 E3. split; intros H; lia.
    + split; [discriminate | ]. apply Hinv.
      intros stream' start' stop' [= <- <- <-] H _ _.
      rewrite Hget in H. now contradiction H.
  - assert (Hno : ~ exists rpc' stream' start' stop',
                      Some rpc = Some rpc'
                      /\ ncntf_subscription_get_params NCNTF_STREAM_DEFAULT
                           nc_datetime2time (Some rpc') = (0, stream', start', stop')
                      /\ fst (ncntf_stream_get sys g (Some stream')) <> None
                      /\ (stop' <> -1 -> start' <> -1 /\ start' <= stop')
                      /\ (start' <> -1 -> start' <= now)).
    { unfold not. apply Hinv. intros stream' start' stop' Hp _ _ _.
      pose proof (f_equal (fun x => fst (fst (fst x))) Hp) as H0. cbn [fst] in H0.
      apply Z.eqb_neq in Hr. contradiction. }
    destruct (r =? -1); [ | destruct (r =? -2)];
      (split; [discriminate | intros H; now contradiction Hno]).
Qed.

(** X22. The faults of a request are looked for in a fixed order; the first
    one found gives the reply, whatever comes after it: the kind of the
    request, the XPath context, the filter, the stream. *)
Theorem subscription_check_faults (sys : system) (now : Z) (g : globals) (rpc : nc_rpc) :
  fst (ncntf_subscription_check NCNTF_STREAM_DEFAULT nc_datetime2time sys now g None)
  = nc_reply_error (nc_err_new NC_ERR_INVALID_VALUE)
  /\ (rpc_is_create_subscription rpc = false ->
      ncntf_subscription_check NCNTF_STREAM_DEFAULT nc_datetime2time sys now g (Some rpc)
      = (nc_reply_error (nc_err_new NC_ERR_INVALID_VALUE), g))
  /\ (rpc_is_create_subscription rpc = true -> rpc_xpath_context rpc = false ->
      ncntf_subscription_check NCNTF_STREAM_DEFAULT nc_datetime2time sys now g (Some rpc)
      = (nc_reply_error (nc_err_new NC_ERR_OP_FAILED), g))
  /\ (rpc_is_create_subscription rpc = true -> rpc_xpath_context rpc = true ->
      rpc_filter rpc = Some false ->
      ncntf_subscription_check NCNTF_STREAM_DEFAULT nc_datetime2time sys now g (Some rpc)
      = (nc_reply_error (protocol_error NC_ERR_BAD_ELEM "filter"), g))
  /\ (rpc_is_create_subscription rpc = true -> rpc_xpath_context rpc = true ->
      rpc_filter rpc <> Some false -> rpc_stream rpc = None ->
      fst (ncntf_stream_get sys g (Some NCNTF_STREAM_DEFAULT)) = None ->
      fst (ncntf_subscription_check NCNTF_STREAM_DEFAULT nc_datetime2time sys now g
                                    (Some rpc))
      = nc_reply_error
          (mkErr NC_ERR_INVALID_VALUE None None
                 (Some ("Requested stream '" ++ NCNTF_STREAM_DEFAULT
                        ++ "' does not exist.")%string))).
Proof.
  split; [reflexivity | ].
  unfold ncntf_subscription_check, ncntf_subscription_get_params.
  split; [now intros -> | ].
  split; [now intros -> -> | ].
  split; [now intros -> -> -> | ].
  intros -> -> Hfilter -> Hget. cbn [negb].
  assert (Hf : match rpc_filter rpc with
               | Some false =>
                   (-2, NCNTF_STREAM_DEFAULT,
                    match rpc_startTime rpc with None => -1 | Some v => nc_datetime2time v end,
                    match rpc_stopTime rpc with None => -1 | Some v => nc_datetime2time v end)
               | _ =>
                   (0, NCNTF_STREAM_DEFAULT,
                    match rpc_startTime rpc with None => -1 | Some v => nc_datetime2time v end,
                    match rpc_stopTime rpc with None => -1 | Some v => nc_datetime2time v end)
               end
               = (0, NCNTF_STREAM_DEFAULT,
                  match rpc_startTime rpc with None => -1 | Some v => nc_datetime2time v end,
                  match rpc_stopTime rpc with None => -1 | Some v => nc_datetime2time v end)).
  { destruct (rpc_filter rpc) as [[|]|]; try reflexivity. now contradiction Hfilter. }
  rewrite Hf. cbn [Z.eqb].
  destruct (ncntf_stream_get sys g (Some NCNTF_STREAM_DEFAULT)) as [[i|] g1];
    [discriminate Hget | reflexivity].
Qed.

End Unknown.

(** X18 at an example: the stream "A", whose rules are the line [x]. *)
Lemma isallowed_whole_lines_witness :
  snd (ncntf_event_isallowed bare_system one_stream (Some "A") (Some "x")) = one_stream
  /\ (fst (ncntf_event_isallowed bare_system one_stream (Some "A") (Some "x")) = 1
      <-> In (list_ascii_of_string "x") [list_ascii_of_string "x"])
  /\ (fst (ncntf_event_isallowed bare_system one_stream (Some "A") (Some "x")) = 0
      <-> ~ In (list_ascii_of_string "x") [list_ascii_of_string "x"]).
Proof.
  apply (isallowed_whole_lines bare_system one_stream "A" "x" 0
           (example_stream "A" 1 ("x" ++ LFs)) [list_ascii_of_string "x"]).
  - reflexivity.
  - reflexivity.
  - reflexivity.
  - constructor; [ | constructor]. split; [discriminate | ].
    intros [H | []]. discriminate H.
Defined.

(** X19 at an example: the stream "A" is not in the list and its file is in
    the streams directory. *)
Lemma stream_get_result_witness :
  exists s,
    nth_error (streams (snd (ncntf_stream_get system_with_stream no_stream (Some "A")))) 0
    = Some s
    /\ name s = "A"
    /\ forall sys',
         ncntf_stream_get sys' (snd (ncntf_stream_get system_with_stream no_stream (Some "A")))
                          (Some (name s))
         = (Some O, snd (ncntf_stream_get system_with_stream no_stream (Some "A"))).
Proof.
  destruct (stream_get_result system_with_stream no_stream
              (snd (ncntf_stream_get system_with_stream no_stream (Some "A")))
              "A" (Some O) eq_refl)
    as (s & Hnth & _ & _ & Hagain).
  exists s. split; [exact Hnth | split; [ | exact Hagain]].
  vm_compute in Hnth. injection Hnth as <-. reflexivity.
Defined.

(** X20 at an example: there is no stream "B". *)
Lemma unknown_stream_refused_witness :
  ncntf_stream_allow_events bare_system one_stream (Some "B") (Some "x")
  = (EXIT_FAILURE, one_stream, [])
  /\ ncntf_stream_iter_next iso8601 1 bare_system (iter_ok 5000) one_stream 0 (Some "B")
                            100 (-1) (Some 0)
     = Some (mkIterResult None one_stream 0 (Some 0)).
Proof.
  destruct (unknown_stream_refused iso8601 "NETCONF" example_datetime2time
              bare_system one_stream one_stream "B" eq_refl)
    as (_ & _ & Hallow & _ & Hnext & _).
  split; [apply Hallow | apply Hnext].
Defined.

(** ** Locking a stream file *)

(** X23. Locking moves nothing: when [lockf] succeeds the stream is locked
    and [ncntf_stream_unlock] gives the stream back as it was; when it fails
    the stream is as it was, with EXIT_FAILURE returned. Unlocking a stream
    that is not locked does nothing and calls nothing. *)
Theorem lock_unlock_round_trip (s : stream) (b : bool) :
  locked s = 0 ->
  ncntf_stream_lock true s = (EXIT_SUCCESS, set_locked s 1)
  /\ ncntf_stream_unlock true (set_locked s 1) = (EXIT_SUCCESS, s)
  /\ ncntf_stream_unlock false (set_locked s 1) = (EXIT_FAILURE, set_locked s 1)
  /\ ncntf_stream_lock false s = (EXIT_FAILURE, s)
  /\ ncntf_stream_unlock b s = (EXIT_SUCCESS, s).
Proof.
  intros Hlocked. rewrite !ncntf_stream_lock_eq, !ncntf_stream_unlock_eq.
  cbn [locked set_locked]. change (1 =? 0) with false. rewrite Hlocked. cbn.
  repeat split. destruct s. cbn in Hlocked. subst. reflexivity.
Qed.

(** X23 at an example: the stream "A". *)
Lemma lock_unlock_round_trip_witness :
  ncntf_stream_unlock true (snd (ncntf_stream_lock true (example_stream "A" 1 EmptyString)))
  = (EXIT_SUCCESS, example_stream "A" 1 EmptyString).
Proof.
  destruct (lock_unlock_round_trip (example_stream "A" 1 EmptyString) true eq_refl)
    as (H1 & H2 & _).
  rewrite H1. exact H2.
Defined.

(** ** The file of a stream just created *)

Lemma to_uint16_bound (z : Z) : 0 <= to_uint16 z < 2 ^ 16.
Proof. unfold to_uint16. apply Z.mod_pos_bound. lia. Qed.

Lemma prepare_header_offset_max (s : stream) : snd (prepare_header s) < 2 ^ 32.
Proof.
  unfold prepare_header, header_put. cbn [snd].
  change (strlen MAGIC_NAME) with 8.
  pose proof (to_uint16_bound (to_uint16 (strlen (name s)) + 1)).
  destruct (desc s) as [d|]; cbn [snd].
  - pose proof (to_uint16_bound (to_uint16 (strlen d) + 1)). lia.
  - lia.
Qed.

Lemma memory_at_header_variable_length (io : header_io) (n : Z) :
  (List.length (memory_at_header_variable io n) <= Z.to_nat n)%nat.
Proof. unfold memory_at_header_variable. rewrite length_firstn. lia. Qed.

(** A write at the end of a file transfers a part of the buffer. *)
Lemma write_loop_at_end_part (w : write_io) (d buf : list ascii) (r : Z) (f : file) :
  write_loop w (at_end d) buf = (r, f) -> r <> -1 ->
  exists out, (List.length out <= List.length buf)%nat
              /\ r = Z.of_nat (List.length out) /\ f = at_end (d ++ out)
              /\ (wr_end w = WriteAll -> out = buf).
Proof.
  unfold write_loop. rewrite write_retry_once.
  destruct (wr_end w) as [| |n]; cbn [write_retry]; intros [= <- <-] Hr.
  - now contradiction Hr.
  - exists buf. rewrite pwrite_at_end. now repeat split.
  - exists (firstn n buf). rewrite pwrite_at_end.
    repeat split; [rewrite length_firstn; lia | discriminate].
Qed.

(** X24. The file of a stream that [ncntf_stream_new] has created holds the
    bytes that the write of the header transferred and nothing else; the
    descriptor is at their end, and the field [data] of the stream is their
    number: the records written later start where [data] says. When the
    write transfers all it is asked to, that number is the length of the
    header prepared. *)
Theorem stream_new_layout (sys : system) (io : new_io) (g g' : globals)
    (nm description : string) (replay_flag : Z) :
  ncntf_stream_new sys io g nm description replay_flag = (EXIT_SUCCESS, g') ->
  exists s,
    streams g' = s :: streams g
    /\ events s = at_end (f_data (events s))
    /\ data s = f_size (events s)
    /\ f_size (events s) <= snd (prepare_header s)
    /\ (wr_end (hio_write (new_header io)) = WriteAll ->
        f_size (events s) = snd (prepare_header s)).
Proof.
  unfold ncntf_stream_new.
  destruct (ncntf_config g); cbn [negb]; [ | discriminate].
  destruct (existsb _ _); [discriminate | ].
  destruct (new_malloc io); cbn [negb]; [ | discriminate].
  set (s0 := mkStream _ _ _ _ _ _ _ _ _ _).
  destruct (write_fileheader _ _ s0) as [r1 s1] eqn:Hw.
  destruct (r1 =? 0) eqn:Hr1; cbn [negb]; [ | discriminate].
  destruct (map_rules _ _ s1) as [r2 s2] eqn:Hm.
  destruct (r2 =? 0) eqn:Hr2; cbn [negb]; [ | discriminate].
  intros [= <-]. apply Z.eqb_eq in Hr1, Hr2. subst r1 r2.
  exists s2. split; [reflexivity | ].
  destruct (map_rules_fields _ _ _ _ _ Hm)
    as (M1 & M2 & M3 & M4 & M5 & M6 & M7 & M8 & _).
  assert (Hprep : prepare_header s2 = prepare_header s1)
    by (unfold prepare_header; now rewrite M1, M2, M3, M4).
  rewrite M6, M7, Hprep. clear Hm M1 M2 M3 M4 M5 M6 M7 M8 Hprep s2.
  unfold write_fileheader in Hw. destruct (streams_path g) as [p|]; [ | discriminate].
  change (fd_events s0 =? -1) with true in Hw. cbn iota in Hw.
  destruct (fd_events (set_fd_events s0 (hio_open (new_header io))) =? -1);
    [discriminate | ].
  set (s0' := set_events (set_fd_events s0 (hio_open (new_header io))) (mkFile [] 0)) in Hw.
  change (events s0') with (at_end []) in Hw.
  destruct (write_loop _ (at_end []) _) as [r f] eqn:Hwrite.
  destruct (r =? -1) eqn:Hr; [discriminate | ].
  apply Z.eqb_neq in Hr.
  destruct (write_loop_at_end_part _ _ _ _ _ Hwrite Hr) as (out & Hlen & -> & -> & Hall).
  injection Hw as <-. cbn [app] in *.
  assert (Hprep : prepare_header (set_data (set_events s0' (at_end out))
                                           (to_uint32 (fst (lseek_cur (at_end out) 0))))
                  = prepare_header s0') by reflexivity.
  rewrite Hprep. cbn [events data set_data set_events].
  rewrite lseek_cur_0. cbn [fst at_end f_pos f_data].
  pose proof (memory_at_header_variable_length (new_header io) (snd (prepare_header s0')))
    as Hmem.
  pose proof (prepare_header_offset_max s0') as Hmax.
  pose proof (prepare_header_offset s0') as Hmin.
  unfold f_size. change (f_data (at_end out)) with out.
  split; [reflexivity | split; [ | split]].
  - unfold to_uint32. apply Z.mod_small. lia.
  - lia.
  - intros Hwall. rewrite (Hall Hwall). unfold memory_at_header_variable.
    rewrite length_firstn, length_app, le_encode_length, length_map, length_seq. lia.
Qed.

(** X24 at an example: the stream "B" is created beside the stream "A". *)
Lemma stream_new_layout_witness :
  exists s,
    streams (snd (ncntf_stream_new fresh_system new_ok one_stream "B" "d" 1))
    = s :: streams one_stream
    /\ events s = at_end (f_data (events s))
    /\ data s = f_size (events s)
    /\ f_size (events s) <= snd (prepare_header s)
    /\ (wr_end (hio_write (new_header new_ok)) = WriteAll ->
        f_size (events s) = snd (prepare_header s)).
Proof.
  apply (stream_new_layout fresh_system new_ok one_stream _ "B" "d" 1).
  reflexivity.
Defined.

(** The life of a stream in one process: the library is started in an empty
    directory, the stream "S" is created, the event [x] is allowed in it
    and published at the time 1000, and a replay from the time 500 returns
    the event. *)
Example stream_life_cycle :
  let g := snd (ncntf_init "NETCONF" "/var/run/netconf_events" fresh_system init_ok
                           not_started) in
  let g := snd (ncntf_stream_new fresh_system new_ok g "S" "a stream" 1) in
  let g := snd (fst (ncntf_stream_allow_events fresh_system g (Some "S") (Some "x"))) in
  let g := snd (example_event_new fresh_system (publish_ok 5000) g 1000 generic_x) in
  let '(g, flag) := ncntf_stream_iter_start fresh_system g 1 (Some "S") in
  ncntf_stream_list true g = Some ["S"; "NETCONF"]
  /\ replayed iso8601 3 3 fresh_system (iter_ok 6000) g flag (Some "S") 500 (-1)
     = Some [(example_record, 1000)].
Proof. vm_compute. split; reflexivity. Qed.

(** ** The type of a notification *)

Lemma find_event_child (before after : list (option string)) (event : string) :
  Forall (fun c => c = None \/ c = Some "eventTime") before ->
  event <> "eventTime" ->
  find (fun child =>
          match child with
          | None => false
          | Some nm => negb (String.eqb nm "eventTime")
          end)
       (before ++ Some event :: after)
  = Some (Some event).
Proof.
  intros Hbefore Hev. induction Hbefore as [|c before [-> | ->] _ IH]; cbn.
  - apply String.eqb_neq in Hev. now rewrite Hev.
  - exact IH.
  - exact IH.
Qed.

(** X25. The type of a notification is that of the first child of
    [notification] whose name is not [eventTime]: the children in front of
    it, named [eventTime] or not named, and the children after it do not
    count. With such a child the type is never NCNTF_ERROR; it is
    NCNTF_BASE_CONFIRMED_COMMIT exactly for the name
    "netconf-configrmed-commit", and NCNTF_GENERIC for the name
    "netconf-confirmed-commit" that [ncntf_streams_init] allows. *)
Theorem notif_type_first_event (before after : list (option string)) (event : string) :
  Forall (fun c => c = None \/ c = Some "eventTime") before ->
  event <> "eventTime" ->
  ncntf_notif_get_type (Some (notification_of before event after))
  = ncntf_notif_get_type (Some (notification_of [] event []))
  /\ ncntf_notif_get_type (Some (notification_of before event after))
     <> NtfType.NCNTF_ERROR
  /\ (ncntf_notif_get_type (Some (notification_of before event after))
      = NtfType.NCNTF_BASE_CONFIRMED_COMMIT
      <-> event = "netconf-configrmed-commit")
  /\ (In event base_events ->
      ncntf_notif_get_type (Some (notification_of before event after))
      = if String.eqb event "netconf-config-change" then NtfType.NCNTF_BASE_CFG_CHANGE
        else if String.eqb event "netconf-capability-change"
        then NtfType.NCNTF_BASE_CPBLT_CHANGE
        else if String.eqb event "netconf-session-start"
        then NtfType.NCNTF_BASE_SESSION_START
        else if String.eqb event "netconf-session-end"
        then NtfType.NCNTF_BASE_SESSION_END
        else NtfType.NCNTF_GENERIC).
Proof.
  intros Hbefore Hev.
  unfold ncntf_notif_get_type, notification_of.
  cbn [ntf_doc doc_root elem_name elem_children xml_name_is].
  change (String.eqb "notification" "notification") with true. cbn iota.
  rewrite (find_event_child before after event Hbefore Hev).
  rewrite (find_event_child [] [] event (Forall_nil _) Hev).
  cbn [xml_name_is].
  split; [reflexivity | ].
  split; [ | split].
  - repeat (match goal with |- context [String.eqb event ?n] =>
              destruct (String.eqb event n) end; [discriminate | ]).
    discriminate.
  - destruct (String.eqb_spec event "replayComplete") as [->|_];
      [split; discriminate | ].
    destruct (String.eqb_spec event "notificationComplete") as [->|_];
      [split; discriminate | ].
    destruct (String.eqb_spec event "netconf-config-change") as [->|_];
      [split; discriminate | ].
    destruct (String.eqb_spec event "netconf-capability-change") as [->|_];
      [split; discriminate | ].
    destruct (String.eqb_spec event "netconf-session-start") as [->|_];
      [split; discriminate | ].
    destruct (String.eqb_spec event "netconf-session-end") as [->|_];
      [split; discriminate | ].
    destruct (String.eqb_spec event "netconf-configrmed-commit") as [->|Hne];
      [split; reflexivity | ].
    split; [discriminate | intros ->; now contradiction Hne].
  - intros [<- | [<- | [<- | [<- | [<- | []]]]]]; reflexivity.
Qed.

(** X25 at an example: a notification of the event
    "netconf-confirmed-commit" after its time. *)
Lemma notif_type_first_event_witness :
  ncntf_notif_get_type
    (Some (notification_of [Some "eventTime"] "netconf-confirmed-commit" []))
  = NtfType.NCNTF_GENERIC.
Proof.
  destruct (notif_type_first_event [Some "eventTime"] [] "netconf-confirmed-commit")
    as (_ & _ & _ & H).
  - constructor; [now right | constructor].
  - discriminate.
  - apply H. right. right. right. right. now left.
Defined.

(** A notification without a document, without a root, with another root,
    or with no child but its time has the type NCNTF_ERROR. *)
Example notif_type_errors :
  ncntf_notif_get_type None = NtfType.NCNTF_ERROR
  /\ ncntf_notif_get_type (Some (mkNtf None)) = NtfType.NCNTF_ERROR
  /\ ncntf_notif_get_type (Some (mkNtf (Some (mkDoc None)))) = NtfType.NCNTF_ERROR
  /\ ncntf_notif_get_type
       (Some (mkNtf (Some (mkDoc (Some (mkElement (Some "rpc") [Some "x"]))))))
     = NtfType.NCNTF_ERROR
  /\ ncntf_notif_get_type
       (Some (mkNtf (Some (mkDoc (Some (mkElement (Some "notification")
                                                  [Some "eventTime"]))))))
     = NtfType.NCNTF_ERROR.
Proof. repeat split. Qed.

(** ** The capabilities that changed *)

Lemma strncmp_eq_refl (n : nat) (a : list ascii) : strncmp_eq a a n = true.
Proof.
  revert a. induction n as [|n IH]; intros a; cbn [strncmp_eq]; [reflexivity | ].
  destruct (c_str a) as [|x rest]; [reflexivity | ].
  now rewrite Ascii.eqb_refl, IH.
Qed.

(** X26. A capability that is in both lists of an
    NCNTF_BASE_CPBLT_CHANGE event is never reported as deleted, and never
    as added: for it the first loop adds nothing or a modified-capability
    element, the second loop adds nothing. *)
Theorem capability_in_both_lists (old new : list string) (c : string) :
  In c old -> In c new ->
  deleted_capability new c = EmptyString
  /\ (created_capability old c = EmptyString
      \/ created_capability old c
         = ("<modified-capability>" ++ c ++ "</modified-capability>")%string).
Proof.
  intros Hold Hnew. split.
  - unfold deleted_capability.
    destruct (find _ new) as [x|] eqn:Hfind; [reflexivity | ].
    exfalso. apply (find_none _ _ Hfind c) in Hnew.
    unfold uri_matches in Hnew. now rewrite strncmp_eq_refl in Hnew.
  - unfold created_capability.
    destruct (find _ old) as [x|] eqn:Hfind.
    + destruct (_ && _); [now right | now left].
    + exfalso. apply (find_none _ _ Hfind c) in Hold.
      unfold uri_matches in Hold. now rewrite strncmp_eq_refl in Hold.
Qed.

(** X26 at an example: the capability "urn:a?v=1" stays while "urn:b" goes
    and "urn:c" comes. *)
Lemma capability_in_both_lists_witness :
  deleted_capability ["urn:a?v=1"; "urn:c"]%string "urn:a?v=1" = EmptyString
  /\ (created_capability ["urn:a?v=1"; "urn:b"]%string "urn:a?v=1" = EmptyString
      \/ created_capability ["urn:a?v=1"; "urn:b"]%string "urn:a?v=1"
         = ("<modified-capability>" ++ "urn:a?v=1" ++ "</modified-capability>")%string).
Proof.
  apply (capability_in_both_lists ["urn:a?v=1"; "urn:b"]%string
           ["urn:a?v=1"; "urn:c"]%string "urn:a?v=1").
  - now left.
  - now left.
Defined.

(** The content of that change, made by the server. *)
Example capability_change_content :
  event_content term_string
    (NCNTF_BASE_CPBLT_CHANGE ["urn:a?v=1"; "urn:b"]%string ["urn:a?v=2"; "urn:c"]%string
                             NCNTF_EVENT_BY_SERVER None)
  = Some ("<netconf-capability-change><server/>"
          ++ "<modified-capability>urn:a?v=2</modified-capability>"
          ++ "<added-capability>urn:c</added-capability>"
          ++ "<deleted-capability>urn:b</deleted-capability>"
          ++ "</netconf-capability-change>")%string.
Proof. reflexivity. Qed.
